(** * telegram-todo-bot: the command router, the storage client and the
      daily digest, embedded from the two variants of the program

    - [Cloud] is the JSONBin variant (src/unnamed/part_000): the document
      lives in a remote bin read by [getData] and written by [saveData].
    - [Lowdb] is the file variant (src/index.js): the document lives in
      db.json behind lowdb's [db.read()] / [db.write()].

    JavaScript strings are modelled as [string], read as UTF-8 text;
    JavaScript numbers as binary64 values of [SpecFloat]; arrays of task
    texts as [list string]. What is posted to a webhook is any JSON value,
    and the routers take what it holds as it comes; the lines and the
    sender ids of the statements are strings and numbers, read as such
    values. *)

From Stdlib Require Import ZArith Lia Bool Ascii String DecimalString DecimalNat.
From Stdlib Require DecimalPos DecimalN.
From Stdlib Require Import Floats.SpecFloat.
From stdpp Require Import base tactics option list strings.

Local Open Scope Z_scope.

(** ** Strings *)

Module Str.

Definition bytes (l : list nat) : string :=
  string_of_list_ascii (map ascii_of_nat l).

(** The line feed and the double quote, which a string literal here
    cannot spell. *)
Definition nl : string := bytes [10%nat].
Definition dq : string := bytes [34%nat].

(** [WhiteSpace] and [LineTerminator] of ECMAScript, by their UTF-8
    encodings: one byte (TAB, LF, VT, FF, CR, SP), two bytes (U+00A0) and
    three bytes (U+1680, U+2000..U+200A, U+2028, U+2029, U+202F, U+205F,
    U+3000, U+FEFF). *)
Definition ws1 (a : ascii) : bool :=
  let n := nat_of_ascii a in
  ((9 <=? n) && (n <=? 13) || (n =? 32))%nat.

Definition ws2 (a b : ascii) : bool :=
  ((nat_of_ascii a =? 194) && (nat_of_ascii b =? 160))%nat.

Definition ws3 (a b c : ascii) : bool :=
  let x := nat_of_ascii a in
  let y := nat_of_ascii b in
  let z := nat_of_ascii c in
  ((x =? 225) && (y =? 154) && (z =? 128)
   || (x =? 226) && (y =? 128)
      && ((128 <=? z) && (z <=? 138) || (z =? 168) || (z =? 169) || (z =? 175))
   || (x =? 226) && (y =? 129) && (z =? 159)
   || (x =? 227) && (y =? 128) && (z =? 128)
   || (x =? 239) && (y =? 187) && (z =? 191))%nat.

(** String.prototype.trimStart *)
Fixpoint trimStart (s : string) : string :=
  match s with
  | String a r1 =>
      if ws1 a then trimStart r1 else
      match r1 with
      | String b r2 =>
          if ws2 a b then trimStart r2 else
          match r2 with
          | String c r3 => if ws3 a b c then trimStart r3 else s
          | EmptyString => s
          end
      | EmptyString => s
      end
  | EmptyString => s
  end.

(** One white-space character taken off the head of a string: the step
    [trimStart] repeats ([trimStart_strip1] below). *)
Definition strip1 (s : string) : option string :=
  match s with
  | String a r1 =>
      if ws1 a then Some r1 else
      match r1 with
      | String b r2 =>
          if ws2 a b then Some r2 else
          match r2 with
          | String c r3 => if ws3 a b c then Some r3 else None
          | EmptyString => None
          end
      | EmptyString => None
      end
  | EmptyString => None
  end.

Definition blank (s : string) : bool :=
  match trimStart s with EmptyString => true | _ => false end.

(** String.prototype.trimEnd: the longest suffix made of white space is
    dropped. *)
Fixpoint trimEnd (s : string) : string :=
  match s with
  | String a r => if blank s then EmptyString else String a (trimEnd r)
  | EmptyString => EmptyString
  end.

(** String.prototype.trim *)
Definition trim (s : string) : string := trimEnd (trimStart s).

(** [s.split(" ")]: cut at every U+0020; never the empty array. *)
Fixpoint split_space (s : string) : list string :=
  match s with
  | EmptyString => [EmptyString]
  | String a r =>
      if Ascii.eqb a " " then EmptyString :: split_space r
      else match split_space r with
           | t :: ts => String a t :: ts
           | [] => [String a EmptyString]
           end
  end.

(** [parts.join(sep)] *)
Definition join (sep : string) (parts : list string) : string :=
  String.concat sep parts.

Definition lower_ascii (a : ascii) : ascii :=
  let n := nat_of_ascii a in
  if ((65 <=? n) && (n <=? 90))%nat then ascii_of_nat (n + 32) else a.

(** String.prototype.toLowerCase on the ASCII range. The routers use it
    only to compare the first token with their command words, and for that
    the bytes above 127 can be kept: the only code points outside ASCII
    whose lower case contains an ASCII letter are U+0130 (to "i" followed by
    U+0307) and U+212A (to "k"), and neither turns a token into a command
    word. *)
Fixpoint toLowerCase (s : string) : string :=
  match s with
  | EmptyString => EmptyString
  | String a r => String (lower_ascii a) (toLowerCase r)
  end.

(** The decimal numeral of a natural number, as [`${n}`] prints it. *)
Definition dec (n : nat) : string := NilZero.string_of_uint (Nat.to_uint n).

(** *** Kinds of characters and of strings, for the facts below *)

(** A decimal digit. *)
Definition is_dec (a : ascii) : bool :=
  let n := nat_of_ascii a in ((48 <=? n) && (n <=? 57))%nat.

Fixpoint all_dec (s : string) : bool :=
  match s with
  | EmptyString => true
  | String a r => is_dec a && all_dec r
  end.

(** A printable ASCII character other than the space: it belongs to no
    white-space character. *)
Definition solid (a : ascii) : bool :=
  let n := nat_of_ascii a in ((33 <=? n) && (n <? 128))%nat.

(** No U+0020 in [s]. *)
Fixpoint no_space (s : string) : bool :=
  match s with
  | EmptyString => true
  | String a r => negb (Ascii.eqb a " ") && no_space r
  end.

End Str.

(** ** Numbers

    A JavaScript Number is a binary64 value; [SpecFloat] gives its
    arithmetic (round to nearest, ties to even). *)

Module Num.

Definition num : Type := spec_float.

#[global] Instance num_eq_dec : EqDecision num.
Proof. solve_decision. Defined.

Definition of_Z (z : Z) : num := binary_normalize 53 1024 z 0 false.
Definition of_nat (n : nat) : num := of_Z (Z.of_nat n).

Definition one : num := of_Z 1.
Definition NaN : num := S754_nan.

(** [x - y] and [x < y] *)
Definition sub (x y : num) : num := SFsub 53 1024 x y.
Definition ltb (x y : num) : bool := SFltb x y.

(** [!x]: true on +0, -0 and NaN. *)
Definition falsy (x : num) : bool :=
  match x with
  | S754_zero _ | S754_nan => true
  | _ => false
  end.

(** The mathematical value of [x] when it is an integer. *)
Definition as_integer (x : num) : option Z :=
  match x with
  | S754_zero _ => Some 0
  | S754_finite s m e =>
      if 0 <=? e then Some (cond_Zopp s (Z.pos m * 2 ^ e))
      else if Z.pos m mod 2 ^ (- e) =? 0
           then Some (cond_Zopp s (Z.pos m / 2 ^ (- e)))
           else None
  | _ => None
  end.

(** Number.isInteger *)
Definition isInteger (x : num) : bool :=
  match as_integer x with Some _ => true | None => false end.

Inductive integer_or_infinity := NegInfinity | Int (z : Z) | PosInfinity.

(** ToIntegerOrInfinity: NaN and the zeros give 0, finite values are
    truncated toward zero. *)
Definition ToIntegerOrInfinity (x : num) : integer_or_infinity :=
  match x with
  | S754_nan | S754_zero _ => Int 0
  | S754_infinity s => if s then NegInfinity else PosInfinity
  | S754_finite s m e =>
      Int (cond_Zopp s (if 0 <=? e then Z.pos m * 2 ^ e
                        else Z.pos m / 2 ^ (- e)))
  end.

(** The binary64 value nearest to [m * 10 ^ e], for [0 <= m]. A negative
    [e] is a division: the quotient is taken with more than 53 bits and a
    sticky last bit, so that [binary_normalize] rounds once. *)
Definition round_decimal (neg : bool) (m e : Z) : num :=
  if m =? 0 then S754_zero neg
  else if 0 <=? e then binary_normalize 53 1024 (cond_Zopp neg (m * 10 ^ e)) 0 false
  else
    let d := 10 ^ (- e) in
    let s := Z.max 0 (Z.log2 d + 64 - Z.log2 m) in
    let (q, r) := Z.div_eucl (m * 2 ^ s) d in
    binary_normalize 53 1024
      (cond_Zopp neg (2 * q + (if r =? 0 then 0 else 1))) (- s - 1) false.

Definition digit (base : Z) (a : ascii) : option Z :=
  let n := Z.of_nat (nat_of_ascii a) in
  let v := if (48 <=? n) && (n <=? 57) then Some (n - 48)
           else if (97 <=? n) && (n <=? 102) then Some (n - 87)
           else if (65 <=? n) && (n <=? 70) then Some (n - 55)
           else None in
  match v with
  | Some d => if d <? base then Some d else None
  | None => None
  end.

(** The longest run of digits at the head of [s]: its value on top of
    [acc], its length on top of [count], and what follows it. *)
Fixpoint digits (base acc count : Z) (s : string) : Z * Z * string :=
  match s with
  | String a r =>
      match digit base a with
      | Some d => digits base (acc * base + d) (count + 1) r
      | None => (acc, count, s)
      end
  | EmptyString => (acc, count, s)
  end.

Definition sign (s : string) : bool * string :=
  match s with
  | String "+" r => (false, r)
  | String "-" r => (true, r)
  | _ => (false, s)
  end.

(** ExponentPart, optional, up to the end of the literal. *)
Definition exponent (s : string) : option Z :=
  match s with
  | EmptyString => Some 0
  | String a r =>
      if Ascii.eqb a "e" || Ascii.eqb a "E" then
        let (neg, r') := sign r in
        match digits 10 0 0 r' with
        | (v, n, EmptyString) => if 0 <? n then Some (cond_Zopp neg v) else None
        | _ => None
        end
      else None
  end.

(** StrUnsignedDecimalLiteral *)
Definition unsigned_decimal (neg : bool) (s : string) : option num :=
  if String.eqb s "Infinity" then Some (S754_infinity neg) else
  let '(ip, ni, r1) := digits 10 0 0 s in
  let '(m, nf, r2) :=
    match r1 with
    | String "." r => digits 10 ip 0 r
    | _ => (ip, 0, r1)
    end in
  if ni + nf =? 0 then None else
  match exponent r2 with
  | Some e => Some (round_decimal neg m (e - nf))
  | None => None
  end.

(** NonDecimalIntegerLiteral: 0x, 0o, 0b, unsigned. *)
Definition non_decimal (s : string) : option num :=
  match s with
  | String "0" (String p r) =>
      let base :=
        if Ascii.eqb p "x" || Ascii.eqb p "X" then Some 16
        else if Ascii.eqb p "o" || Ascii.eqb p "O" then Some 8
        else if Ascii.eqb p "b" || Ascii.eqb p "B" then Some 2
        else None in
      match base with
      | Some b =>
          match digits b 0 0 r with
          | (v, n, EmptyString) => if 0 <? n then Some (of_Z v) else None
          | _ => None
          end
      | None => None
      end
  | _ => None
  end.

(** StringToNumber *)
Definition StringToNumber (s : string) : num :=
  let t := Str.trim s in
  match t with
  | EmptyString => S754_zero false
  | _ =>
      match non_decimal t with
      | Some x => x
      | None =>
          let (neg, r) := sign t in
          match unsigned_decimal neg r with
          | Some x => x
          | None => NaN
          end
      end
  end.

(** [Number(v)] for [v] a string or [undefined] (here [None]). *)
Definition Number (v : option string) : num :=
  match v with
  | Some s => StringToNumber s
  | None => NaN
  end.

(** [p] shifted left by [k] bits. *)
Definition shl (p : positive) (k : Z) : positive :=
  match k with
  | Z.pos n => Pos.iter xO p n
  | _ => p
  end.

(** The binary64 value of a positive integer of at most 53 bits. *)
Definition canon (p : positive) : num :=
  let d := Z.pos (digits2_pos p) in
  S754_finite false (shl p (53 - d)) (d - 53).

(** The value of a decimal numeral read from the left, on top of [acc]. *)
Fixpoint uint_value (acc : Z) (d : Decimal.uint) : Z :=
  match d with
  | Decimal.Nil => acc
  | Decimal.D0 d => uint_value (acc * 10 + 0) d
  | Decimal.D1 d => uint_value (acc * 10 + 1) d
  | Decimal.D2 d => uint_value (acc * 10 + 2) d
  | Decimal.D3 d => uint_value (acc * 10 + 3) d
  | Decimal.D4 d => uint_value (acc * 10 + 4) d
  | Decimal.D5 d => uint_value (acc * 10 + 5) d
  | Decimal.D6 d => uint_value (acc * 10 + 6) d
  | Decimal.D7 d => uint_value (acc * 10 + 7) d
  | Decimal.D8 d => uint_value (acc * 10 + 8) d
  | Decimal.D9 d => uint_value (acc * 10 + 9) d
  end.

(** *** Number::toString (radix 10)

    For a finite [x > 0] the digits are the shortest [s] (of [k] digits)
    with an exponent [t] such that [s * 10 ^ t] rounds to [x]; of two such
    [s] the one nearer to [x]. *)

(** [x] as a fraction [(numerator, denominator)], for [x] finite. *)
Definition fraction (m : positive) (e : Z) : Z * Z :=
  if 0 <=? e then (Z.pos m * 2 ^ e, 1) else (Z.pos m, 2 ^ (- e)).

(** [floor (log10 (a / b))], for [0 < a] and [0 < b]. *)
Fixpoint log10_up (fuel : nat) (a b l : Z) : Z :=
  match fuel with
  | O => l
  | S f => if a <? 10 * b then l else log10_up f a (10 * b) (l + 1)
  end.

Fixpoint log10_down (fuel : nat) (a b l : Z) : Z :=
  match fuel with
  | O => l
  | S f => if b <=? a then l else log10_down f (10 * a) b (l - 1)
  end.

Definition log10_floor (a b : Z) : Z :=
  if b <=? a then log10_up 400 a b 0 else log10_down 400 a b 0.

(** [| s * 10 ^ t - a / b |], scaled by a positive factor common to the
    candidates compared. *)
Definition distance (a b s t lo : Z) : Z :=
  Z.abs (s * 10 ^ (t - lo) * b - a * 10 ^ (- lo)).

Definition candidates (x : num) (a b k l : Z) : list (Z * Z) :=
  let try (t : Z) : list (Z * Z) :=
    let q := if 0 <=? t then a / (b * 10 ^ t) else a * 10 ^ (- t) / b in
    filter (fun c : Z * Z =>
              10 ^ (k - 1) <= fst c < 10 ^ k
              /\ round_decimal false (fst c) t = x)
           [(q, t); (q + 1, t)] in
  try (l - k + 1) ++ try (l - k + 2).

Definition nearest (a b : Z) (cs : list (Z * Z)) : option (Z * Z) :=
  let lo := Z.min 0 (foldr (fun c acc => Z.min (snd c) acc) 0 cs) in
  foldr (fun c best =>
           match best with
           | None => Some c
           | Some c' =>
               if distance a b (fst c) (snd c) lo <=? distance a b (fst c') (snd c') lo
               then Some c else best
           end) None cs.

Fixpoint shortest (fuel : nat) (x : num) (a b k l : Z) : Z * Z * Z :=
  match fuel with
  | O => (0, k, l)
  | S f =>
      match nearest a b (candidates x a b k l) with
      | Some (s, t) => (s, k, t + k)
      | None => shortest f x a b (k + 1) l
      end
  end.

Definition zeros (n : Z) : string :=
  string_of_list_ascii (repeat "0"%char (Z.to_nat n)).

Definition decZ (z : Z) : string := NilZero.string_of_uint (N.to_uint (Z.to_N z)).

Definition take_str (n : Z) (s : string) : string := String.substring 0 (Z.to_nat n) s.
Definition drop_str (n : Z) (s : string) : string :=
  String.substring (Z.to_nat n) (String.length s - Z.to_nat n) s.

Definition format (s k n : Z) : string :=
  let ds := decZ s in
  if (k <=? n) && (n <=? 21) then ds +:+ zeros (n - k)
  else if (0 <? n) && (n <=? 21) then take_str n ds +:+ "." +:+ drop_str n ds
  else if (-6 <? n) && (n <=? 0) then "0." +:+ zeros (- n) +:+ ds
  else
    let e := n - 1 in
    let es := (if e <? 0 then "-" else "+") +:+ decZ (Z.abs e) in
    if k =? 1 then ds +:+ "e" +:+ es
    else take_str 1 ds +:+ "." +:+ drop_str 1 ds +:+ "e" +:+ es.

Definition NumberToString (x : num) : string :=
  match x with
  | S754_nan => "NaN"
  | S754_zero _ => "0"
  | S754_infinity s => if s then "-Infinity" else "Infinity"
  | S754_finite sg m e =>
      let (a, b) := fraction m e in
      let '(s, k, n) := shortest 17 (S754_finite false m e) a b 1 (log10_floor a b) in
      (if sg then "-" else EmptyString) +:+ format s k n
  end.

End Num.

(** ** Arrays of strings indexed by Numbers *)

Module Arr.
Import Num.

(** The array index the property key [ToString(x)] denotes, if any: an
    integer from 0 to 2^32 - 2 (-0 prints as "0"). *)
Definition index (x : num) : option nat :=
  match as_integer x with
  | Some z => if (0 <=? z) && (z <? 2 ^ 32 - 1) then Some (Z.to_nat z) else None
  | None => None
  end.

(** [l[x]]; [None] is [undefined]. *)
Definition get (l : list string) (x : num) : option string :=
  match index x with
  | Some i => l !! i
  | None => None
  end.

(** [l[x] = v], for [x] a position of [l]. The router assigns only after
    [l[x]] was found, so the growth of an array assigned past its end is
    not modelled. *)
Definition set (l : list string) (x : num) (v : string) : list string :=
  match index x with
  | Some i => <[i := v]> l
  | None => l
  end.

(** [l.splice(start, 1)]: the removed items and what is left of [l]. *)
Definition splice1 (l : list string) (start : num) : list string * list string :=
  let len := Z.of_nat (length l) in
  let actualStart :=
    match ToIntegerOrInfinity start with
    | NegInfinity => 0
    | Int r => if r <? 0 then Z.max (len + r) 0 else Z.min r len
    | PosInfinity => len
    end in
  let actualDeleteCount := Z.min (Z.max 1 0) (len - actualStart) in
  let a := Z.to_nat actualStart in
  let c := Z.to_nat actualDeleteCount in
  (take c (drop a l), take a l ++ drop (a + c) l).

End Arr.

(** ** The task document *)

Record TaskDocument := { weekday : list string; weekend : list string }.

#[global] Instance TaskDocument_eq_dec : EqDecision TaskDocument.
Proof. solve_decision. Defined.

Definition default_doc : TaskDocument := {| weekday := []; weekend := [] |}.

Inductive list_name := Weekday | Weekend.

Definition name_str (n : list_name) : string :=
  match n with Weekday => "weekday" | Weekend => "weekend" end.

Definition other (n : list_name) : list_name :=
  match n with Weekday => Weekend | Weekend => Weekday end.

(** [["weekday", "weekend"].includes(v)], with the list it names. *)
Definition includes (v : option string) : option list_name :=
  match v with
  | Some s =>
      if String.eqb s "weekday" then Some Weekday
      else if String.eqb s "weekend" then Some Weekend
      else None
  | None => None
  end.

(** [db[list]] and [db[list] = l] *)
Definition get_list (n : list_name) (db : TaskDocument) : list string :=
  match n with Weekday => weekday db | Weekend => weekend db end.

Definition set_list (n : list_name) (l : list string) (db : TaskDocument) : TaskDocument :=
  match n with
  | Weekday => {| weekday := l; weekend := weekend db |}
  | Weekend => {| weekday := weekday db; weekend := l |}
  end.

(** [list.map((t, i) => `${i + 1}. ${t}`)], from position [i]. *)
Fixpoint numbered (i : nat) (l : list string) : list string :=
  match l with
  | [] => []
  | t :: r => (Str.dec (i + 1) +:+ ". " +:+ t) :: numbered (S i) r
  end.

(** formatList (part_000) and prettyList (index.js) are the same function. *)
Definition formatList (l : list string) : string :=
  match l with
  | [] => "_(empty)_"
  | _ => Str.join Str.nl (numbered 0 l)
  end.

Definition prettyList := formatList.

(** ** Values read from the persistence backend *)

Module Json.

#[warnings="-register-all"] Inductive json :=
| JNull
| JBool (b : bool)
| JNumber (n : Num.num)
| JString (s : string)
| JArray (l : list json)
| JObject (fields : list (string * json)).

(** The value of a key among the members of an object; a key given twice
    holds its last value, as after [JSON.parse]. *)
Fixpoint assoc (k : string) (fields : list (string * json)) : option json :=
  match fields with
  | [] => None
  | (k', v) :: r =>
      match assoc k r with
      | Some v' => Some v'
      | None => if String.eqb k k' then Some v else None
      end
  end.

(** ToBoolean *)
Definition truthy (v : json) : bool :=
  match v with
  | JNull => false
  | JBool b => b
  | JNumber n => negb (Num.falsy n)
  | JString s => negb (String.eqb s EmptyString)
  | JArray _ | JObject _ => true
  end.

(** [v.key]: [None] when reading a property of [null] throws; inside,
    [None] is [undefined]. *)
Definition prop (key : string) (v : json) : option (option json) :=
  match v with
  | JNull => None
  | JObject fields => Some (assoc key fields)
  | _ => Some None
  end.

(** A value as a handler meets it: [undefined], or a JSON value. *)
Inductive value :=
| Undefined
| Of (j : json).

Definition truthy_value (v : value) : bool :=
  match v with
  | Undefined => false
  | Of j => truthy j
  end.

(** [v.key] on a value, for the keys the code reads (none of them is
    [length] or an index): [None] when [v] is [undefined] or [null] and the
    read throws. *)
Definition get (key : string) (v : value) : option value :=
  match v with
  | Undefined => None
  | Of j =>
      match prop key j with
      | None => None
      | Some (Some x) => Some (Of x)
      | Some None => Some Undefined
      end
  end.

(** [v?.key] *)
Definition get_opt (key : string) (v : value) : value :=
  match get key v with
  | Some x => x
  | None => Undefined
  end.

(** String(v): an array is its elements joined by commas, [null] among
    them as the empty string. *)
Fixpoint ToString_json (j : json) : string :=
  match j with
  | JNull => "null"
  | JBool b => if b then "true" else "false"
  | JNumber n => Num.NumberToString n
  | JString s => s
  | JArray l =>
      Str.join "," (List.map (fun e => match e with
                                       | JNull => EmptyString
                                       | _ => ToString_json e
                                       end) l)
  | JObject _ => "[object Object]"
  end.

Definition ToString (v : value) : string :=
  match v with
  | Undefined => "undefined"
  | Of j => ToString_json j
  end.

(** The string a value is, if it is one. *)
Definition as_text (v : value) : option string :=
  match v with
  | Of (JString s) => Some s
  | _ => None
  end.

Definition encode (d : TaskDocument) : json :=
  JObject [("weekday", JArray (JString <$> weekday d));
           ("weekend", JArray (JString <$> weekend d))].

Definition as_string (v : json) : option string :=
  match v with JString s => Some s | _ => None end.

Definition as_strings (v : option json) : option (list string) :=
  match v with
  | Some (JArray l) => mapM as_string l
  | _ => None
  end.

(** The task document a value is, when it has the two fields and both
    are arrays of strings. *)
Definition decode (v : json) : option TaskDocument :=
  match v with
  | JObject fields =>
      match as_strings (assoc "weekday" fields), as_strings (assoc "weekend" fields) with
      | Some a, Some b => Some {| weekday := a; weekend := b |}
      | _, _ => None
      end
  | _ => None
  end.

End Json.

(** A string and a number are values. *)
Coercion Json.JString : string >-> Json.json.
Coercion Json.JNumber : Num.num >-> Json.json.
Coercion Json.Of : Json.json >-> Json.value.

(** ** Effects

    A handler runs against the persisted document and leaves a trace of
    what it asked of its collaborators; it finishes or throws. *)

Inductive event :=
| Fetch                          (* the document is read: GET <bin>/latest, db.read() *)
| Store (data : TaskDocument)    (* the document is written: PUT <bin>, db.write() *)
| Send (text : string)           (* sendMessage to the configured chat *)
| Log (line : string)            (* console.log, console.error: the fixed text of the line *)
| Respond (status : nat) (body : string).   (* the HTTP response of a route *)

#[global] Instance event_eq_dec : EqDecision event.
Proof. solve_decision. Defined.

Record world := { persisted : TaskDocument; trace : list event }.

Inductive result (A : Type) := Done (a : A) | Thrown.
Arguments Done {A} a.
Arguments Thrown {A}.

Definition io (A : Type) : Type := world -> world * result A.

Definition ret {A} (a : A) : io A := fun w => (w, Done a).

Definition bind {A B} (m : io A) (k : A -> io B) : io B :=
  fun w => match m w with
           | (w', Done a) => k a w'
           | (w', Thrown) => (w', Thrown)
           end.

Definition throw {A} : io A := fun w => (w, Thrown).

(** A read that throws when it has no result. *)
Definition reading {A} (o : option A) : io A :=
  match o with
  | Some a => ret a
  | None => throw
  end.

(** [try { m } catch (err) { h }] *)
Definition try_catch {A} (m : io A) (h : io A) : io A :=
  fun w => match m w with
           | (w', Done a) => (w', Done a)
           | (w', Thrown) => h w'
           end.

Definition emit (e : event) : io unit :=
  fun w => ({| persisted := persisted w; trace := trace w ++ [e] |}, Done tt).

Definition read_persisted : io TaskDocument := fun w => (w, Done (persisted w)).

Definition write_persisted (d : TaskDocument) : io unit :=
  fun w => ({| persisted := d; trace := trace w |}, Done tt).

Notation "'let*' x := m 'in' k" := (bind m (fun x => k))
  (at level 10, x name, m at level 100, k at level 200).
Notation "m ;; k" := (bind m (fun _ => k))
  (at level 100, k at level 200, right associativity).

(** Running a handler on a persisted document, from an empty trace. *)
Definition run {A} (m : io A) (d : TaskDocument) : world * result A :=
  m {| persisted := d; trace := [] |}.

Definition sent (w : world) : list string :=
  omap (fun e => match e with Send t => Some t | _ => None end) (trace w).

Definition stored (w : world) : list TaskDocument :=
  omap (fun e => match e with Store d => Some d | _ => None end) (trace w).

Definition fetched (w : world) : bool :=
  bool_decide (Fetch ∈ trace w).

(** ** Configuration and updates *)

(** Configuration read from the environment at startup. *)
Record config := { CHAT_ID : string }.

(** The update posted to the webhook, [req.body]: whatever JSON the
    request carried, or [undefined]. *)
Definition update : Type := Json.value.

(** [update?.message?.text], and [update.message.from.id]: [None] when the
    message names no sender and the read throws. *)
Definition message_text (u : update) : Json.value :=
  Json.get_opt "text" (Json.get_opt "message" u).

Definition from_id (u : update) : option Json.value :=
  match Json.get "from" (Json.get_opt "message" u) with
  | Some from => Json.get "id" from
  | None => None
  end.

(** [String(fromId) !== String(CHAT_ID)] *)
Definition unauthorized (cfg : config) (fromId : Json.value) : bool :=
  negb (String.eqb (Json.ToString fromId) (CHAT_ID cfg)).

(** ** The date of the digest

    [now] is [new Date()], in milliseconds since the epoch. Formatted with
    [{ timeZone: "Asia/Kolkata", weekday: "long" }] it gives the name of the
    day of [now] shifted by five hours and a half, the offset of that zone
    since 1945; 1970-01-01 was a Thursday. *)
Definition weekday_names : list string :=
  ["Sunday"; "Monday"; "Tuesday"; "Wednesday"; "Thursday"; "Friday"; "Saturday"].

Definition weekdayName (now : Z) : string :=
  let day := (now + 19800000) / 86400000 in
  default EmptyString (weekday_names !! Z.to_nat ((day + 4) mod 7)).

(** getListTypeByDay (part_000) and istDayType (index.js) *)
Definition getListTypeByDay (now : Z) : list_name :=
  let day := weekdayName now in
  if String.eqb day "Saturday" || String.eqb day "Sunday" then Weekend else Weekday.

Definition istDayType := getListTypeByDay.

(** ** The JSONBin variant (src/unnamed/part_000) *)

Module Cloud.
Import Str Num Json.

(** What [fetch] and [res.json()] do inside getData. *)
Inductive fetch_result :=
| FetchRejects
| JsonRejects
| Body (json : Json.json).

(** What [fetch] does inside saveData: the bin is overwritten, or the
    response is not ok and carries a text, or the call rejects. *)
Inductive put_result :=
| PutOk
| PutNotOk (errText : string)
| PutRejects.

Record net := { fetch_ok : bool; put : put_result }.

Definition fetch_latest (r : fetch_result) : io Json.json :=
  emit Fetch ;;
  match r with
  | Body json => ret json
  | FetchRejects | JsonRejects => throw
  end.

Definition getData (r : fetch_result) : io Json.json :=
  try_catch
    (let* json := fetch_latest r in
     match prop "record" json with
     | None => throw
     | Some (Some record) =>
         if truthy record then ret record else ret (encode default_doc)
     | Some None => ret (encode default_doc)
     end)
    (emit (Log "❌ Failed to fetch data:") ;; ret (encode default_doc)).

(** The record getData keeps: the one of the envelope, when the envelope
    can be read, has one and it is truthy. *)
Definition record_of (r : fetch_result) : option Json.json :=
  match r with
  | Body (JObject fields) =>
      match assoc "record" fields with
      | Some record => if truthy record then Some record else None
      | None => None
      end
  | _ => None
  end.

(** The bin answers with the persisted document under [record], unless
    the call fails. *)
Definition latest (n : net) (remote : TaskDocument) : fetch_result :=
  if fetch_ok n then Body (JObject [("record", encode remote)]) else FetchRejects.

(** [const db = await getData()], for a bin that holds a task document. *)
Definition getDocument (n : net) : io TaskDocument :=
  let* remote := read_persisted in
  let* v := getData (latest n remote) in
  match decode v with
  | Some db => ret db
  | None => throw
  end.

(** The PUT of saveData: [None] when [res.ok], else [res.text()]. *)
Definition http_put (n : net) (data : TaskDocument) : io (option string) :=
  emit (Store data) ;;
  match put n with
  | PutOk => write_persisted data ;; ret None
  | PutNotOk errText => ret (Some errText)
  | PutRejects => throw
  end.

Definition saveData (n : net) (data : TaskDocument) : io unit :=
  try_catch
    (let* res := http_put n data in
     match res with
     | Some errText => emit (Log ("❌ JSONBin save failed: " +:+ errText))
     | None => emit (Log "✅ Data saved to JSONBin.")
     end)
    (emit (Log "❌ Failed to save data:")).

(** Failures of the send are caught and logged inside sendTelegram; the
    message handed to the transport is what the trace records. *)
Definition sendTelegram (text : string) : io unit := emit (Send text).

Definition help_text : string :=
  "*To-Do Bot Commands*" +:+ nl +:+ nl +:+
  "/add <weekday|weekend> <task>" +:+ nl +:+
  "/view <weekday|weekend>" +:+ nl +:+
  "/edit <weekday|weekend> <index> <new task>" +:+ nl +:+
  "/remove <weekday|weekend> <index>" +:+ nl +:+
  "/lists — view both lists" +:+ nl.

Definition lists_text (db : TaskDocument) : string :=
  "*Weekday:*" +:+ nl +:+ formatList (weekday db) +:+ nl +:+ nl +:+
  "*Weekend:*" +:+ nl +:+ formatList (weekend db).

Definition view_text (list : list_name) (db : TaskDocument) : string :=
  "*" +:+ name_str list +:+ "*" +:+ nl +:+ formatList (get_list list db).

Definition added_text (list : list_name) (task : string) : string :=
  "✅ Added to *" +:+ name_str list +:+ "*: " +:+ task.

Definition edited_text (list : list_name) (idx : num) (old newText : string) : string :=
  "✏️ Edited *" +:+ name_str list +:+ "* " +:+ NumberToString idx +:+ ": " +:+
  dq +:+ old +:+ dq +:+ " → " +:+ dq +:+ newText +:+ dq.

Definition removed_text (list : list_name) (item : string) : string :=
  "🗑️ Removed from *" +:+ name_str list +:+ "*: " +:+ item.

Definition out_of_range : string := "❌ Index out of range.".
Definition usage_view : string := "Usage: /view <weekday|weekend>".
Definition usage_add : string := "Usage: /add <weekday|weekend> <task>".
Definition usage_edit : string := "Usage: /edit <weekday|weekend> <index> <new text>".
Definition usage_remove : string := "Usage: /remove <weekday|weekend> <index>".
Definition unknown : string := "Unknown command. Use /help for usage.".

(** The body of the switch, on the tokens and the loaded document. *)
Definition dispatch (n : net) (parts : list string) (db : TaskDocument) : io unit :=
  let cmd := toLowerCase (hd EmptyString parts) in
  if String.eqb cmd "/help" then sendTelegram help_text
  else if String.eqb cmd "/lists" then sendTelegram (lists_text db)
  else if String.eqb cmd "/view" then
    match includes (parts !! 1%nat) with
    | None => sendTelegram usage_view
    | Some list => sendTelegram (view_text list db)
    end
  else if String.eqb cmd "/add" then
    let task := trim (join " " (drop 2 parts)) in
    match includes (parts !! 1%nat) with
    | None => sendTelegram usage_add
    | Some list =>
        if String.eqb task EmptyString then sendTelegram usage_add
        else
          let db := set_list list (get_list list db ++ [task]) db in
          saveData n db ;;
          sendTelegram (added_text list task)
    end
  else if String.eqb cmd "/edit" then
    let idx := Number (parts !! 2%nat) in
    let newText := trim (join " " (drop 3 parts)) in
    match includes (parts !! 1%nat) with
    | None => sendTelegram usage_edit
    | Some list =>
        if falsy idx || String.eqb newText EmptyString then sendTelegram usage_edit
        else
          match Arr.get (get_list list db) (sub idx one) with
          | None => sendTelegram out_of_range
          | Some old =>
              if String.eqb old EmptyString then sendTelegram out_of_range
              else
                let db := set_list list (Arr.set (get_list list db) (sub idx one) newText) db in
                saveData n db ;;
                sendTelegram (edited_text list idx old newText)
          end
    end
  else if String.eqb cmd "/remove" then
    let idx := Number (parts !! 2%nat) in
    match includes (parts !! 1%nat) with
    | None => sendTelegram usage_remove
    | Some list =>
        if falsy idx then sendTelegram usage_remove
        else
          let (item, rest) := Arr.splice1 (get_list list db) (sub idx one) in
          let db := set_list list rest db in
          saveData n db ;;
          match item with
          | removed :: _ => sendTelegram (removed_text list removed)
          | [] => sendTelegram out_of_range
          end
    end
  else sendTelegram unknown.

(** [text] and [fromId] are what the update holds; [text.trim()] throws
    unless [text] is a string. *)
Definition handleCommand (cfg : config) (n : net) (text fromId : value) : io unit :=
  if unauthorized cfg fromId then ret tt
  else
    match text with
    | Of (JString text) =>
        let parts := split_space (trim text) in
        let* db := getDocument n in
        dispatch n parts db
    | _ => throw
    end.

Definition digest_text (listType : list_name) (list : list string) : string :=
  "🗓️ Good morning, Digi!" +:+ nl +:+ "Your *" +:+ name_str listType +:+ "* tasks:" +:+
  nl +:+ nl +:+ formatList list.

(** GET / *)
Definition daily (n : net) (now : Z) : io unit :=
  let* db := getDocument n in
  let listType := getListTypeByDay now in
  let list := get_list listType db in
  let msg :=
    match list with
    | _ :: _ => digest_text listType list
    | [] => "✅ You have no *" +:+ name_str listType +:+ "* tasks today!"
    end in
  sendTelegram msg ;;
  emit (Respond 200 "✅ Daily list sent to Telegram.").

(** The task scheduled at 10:00 Asia/Kolkata. *)
Definition cron (n : net) (now : Z) : io unit :=
  emit (Log "⏰ Running daily 10 AM reminder...") ;;
  let* db := getDocument n in
  let listType := getListTypeByDay now in
  let list := get_list listType db in
  let msg :=
    match list with
    | _ :: _ => digest_text listType list
    | [] => "✅ No *" +:+ name_str listType +:+ "* tasks today! Enjoy your day ☀️"
    end in
  sendTelegram msg.

(** POST /webhook *)
Definition webhook (cfg : config) (n : net) (update : update) : io unit :=
  try_catch
    (emit (Log "Incoming update:") ;;
     (if truthy_value (get_opt "text" (get_opt "message" update)) then
        let* message := reading (get "message" update) in
        let* text := reading (get "text" message) in
        let* from := reading (get "from" message) in
        let* fromId := reading (get "id" from) in
        handleCommand cfg n text fromId
      else ret tt) ;;
     emit (Respond 200 "ok"))
    (emit (Log "Webhook error:") ;; emit (Respond 500 "error")).

(** *** The router without its effects

    What [dispatch] decides on the tokens and the loaded document: the
    document it hands to saveData, if any, and the text it sends.
    [dispatch_outcome] below proves that [dispatch] performs exactly
    this. *)
Definition outcome (parts : list string) (db : TaskDocument) : option TaskDocument * string :=
  let cmd := toLowerCase (hd EmptyString parts) in
  let list := includes (parts !! 1%nat) in
  if String.eqb cmd "/help" then (None, help_text)
  else if String.eqb cmd "/lists" then (None, lists_text db)
  else if String.eqb cmd "/view" then
    match list with
    | None => (None, usage_view)
    | Some list => (None, view_text list db)
    end
  else if String.eqb cmd "/add" then
    let task := trim (join " " (drop 2 parts)) in
    match list with
    | None => (None, usage_add)
    | Some list =>
        if String.eqb task EmptyString then (None, usage_add)
        else (Some (set_list list (get_list list db ++ [task]) db), added_text list task)
    end
  else if String.eqb cmd "/edit" then
    let idx := Number (parts !! 2%nat) in
    let newText := trim (join " " (drop 3 parts)) in
    match list with
    | None => (None, usage_edit)
    | Some list =>
        if falsy idx || String.eqb newText EmptyString then (None, usage_edit)
        else
          match Arr.get (get_list list db) (sub idx one) with
          | None => (None, out_of_range)
          | Some old =>
              if String.eqb old EmptyString then (None, out_of_range)
              else (Some (set_list list (Arr.set (get_list list db) (sub idx one) newText) db),
                    edited_text list idx old newText)
          end
    end
  else if String.eqb cmd "/remove" then
    let idx := Number (parts !! 2%nat) in
    match list with
    | None => (None, usage_remove)
    | Some list =>
        if falsy idx then (None, usage_remove)
        else
          let (item, rest) := Arr.splice1 (get_list list db) (sub idx one) in
          (Some (set_list list rest db),
           match item with
           | removed :: _ => removed_text list removed
           | [] => out_of_range
           end)
    end
  else (None, unknown).

Definition perform (n : net) (o : option TaskDocument * string) : io unit :=
  match o with
  | (Some db, msg) => saveData n db ;; sendTelegram msg
  | (None, msg) => sendTelegram msg
  end.

(** The document the router works on: the persisted one, or the default
    one when the fetch fails. *)
Definition loaded (n : net) (remote : TaskDocument) : TaskDocument :=
  if fetch_ok n then remote else default_doc.

(** What getData leaves in the trace, what saveData logs, and the bin
    after a save of [data]. *)
Definition fetch_trace (n : net) : list event :=
  if fetch_ok n then [Fetch] else [Fetch; Log "❌ Failed to fetch data:"].

Definition save_line (n : net) : string :=
  match put n with
  | PutOk => "✅ Data saved to JSONBin."
  | PutNotOk errText => "❌ JSONBin save failed: " +:+ errText
  | PutRejects => "❌ Failed to save data:"
  end.

Definition saved (n : net) (data remote : TaskDocument) : TaskDocument :=
  match put n with PutOk => data | _ => remote end.

(** The world a command leaves behind, after [perform] on the loaded
    document. *)
Definition performed (n : net) (remote : TaskDocument)
    (o : option TaskDocument * string) : world :=
  match o with
  | (Some db, msg) =>
      {| persisted := saved n db remote;
         trace := fetch_trace n ++ [Store db; Log (save_line n); Send msg] |}
  | (None, msg) =>
      {| persisted := remote; trace := fetch_trace n ++ [Send msg] |}
  end.

(** A sequence of commands, each with what the backend does meanwhile. *)
Definition after (cfg : config) (d : TaskDocument) (c : net * string * num) : TaskDocument :=
  persisted (fst (run (handleCommand cfg c.1.1 c.1.2 c.2) d)).

Definition session (cfg : config) (calls : list (net * string * num))
    (d : TaskDocument) : TaskDocument :=
  foldl (after cfg) d calls.

End Cloud.

(** ** The lowdb variant (src/index.js) *)

Module Lowdb.
Import Str Num Json.

(** What the collaborators do during a call: whether [db.read()] and
    [db.write()] resolve, and whether the reply to sendMessage can be parsed
    as JSON. *)
Record disk := { read_ok : bool; write_ok : bool; reply_ok : bool }.

(** What [db.read()] leaves in [db.data] at startup: it rejects, or
    gives [null] when db.json does not exist, or the parsed content. *)
Inductive read_result :=
| ReadRejects
| Data (v : option Json.json).

(** initDB: the value of [db.data] once written back. *)
Definition initDB (r : read_result) (d : disk) : result Json.json :=
  match r with
  | ReadRejects => Thrown
  | Data v =>
      let data :=
        match v with
        | Some j => if truthy j then j else encode default_doc
        | None => encode default_doc
        end in
      if write_ok d then Done data else Thrown
  end.

(** [await db.read()]: [db.data] is the content of db.json. *)
Definition db_read (d : disk) : io TaskDocument :=
  emit Fetch ;;
  if read_ok d then read_persisted else throw.

(** [await db.write()] *)
Definition db_write (d : disk) (data : TaskDocument) : io unit :=
  emit (Store data) ;;
  if write_ok d then write_persisted data else throw.

(** A [fetch] that rejects is caught and logged inside sendTelegram, as in
    part_000, and the message handed to the transport is what the trace
    records. The reply is returned as [res.json()], not awaited inside the
    [try]: one that is not JSON rejects out of sendTelegram, once the
    message is out. *)
Definition sendTelegram (d : disk) (text : string) : io unit :=
  emit (Send text) ;;
  if reply_ok d then ret tt else throw.

Definition help_text : string :=
  "*Todo Bot Help*" +:+ nl +:+ nl +:+
  "/add <weekday|weekend> <task> - add a task" +:+ nl +:+
  "/view <weekday|weekend> - view tasks" +:+ nl +:+
  "/edit <weekday|weekend> <index> <new task> - edit" +:+ nl +:+
  "/remove <weekday|weekend> <index> - remove task" +:+ nl +:+
  "/lists - show both lists".

Definition lists_text (db : TaskDocument) : string :=
  "*Weekday:*" +:+ nl +:+ prettyList (weekday db) +:+ nl +:+ nl +:+
  "*Weekend:*" +:+ nl +:+ prettyList (weekend db).

Definition view_text (listName : list_name) (db : TaskDocument) : string :=
  "*" +:+ name_str listName +:+ "*" +:+ nl +:+ prettyList (get_list listName db).

Definition added_text (listName : list_name) (task : string) : string :=
  "Added to *" +:+ name_str listName +:+ "*: " +:+ task.

Definition edited_text (listName : list_name) (idx : num) (old newText : string) : string :=
  "Edited *" +:+ name_str listName +:+ "* " +:+ NumberToString idx +:+ ": " +:+
  dq +:+ old +:+ dq +:+ " → " +:+ dq +:+ newText +:+ dq.

Definition removed_text (listName : list_name) (item : string) : string :=
  "Removed from *" +:+ name_str listName +:+ "*: " +:+ item.

Definition out_of_range : string := "Index out of range.".
Definition usage_view : string := "Usage: /view <weekday|weekend>".
Definition usage_add : string := "Usage: /add <weekday|weekend> <task>".
Definition no_task : string := "Please provide a task text.".
Definition usage_edit : string := "Usage: /edit <weekday|weekend> <index> <new text>".
Definition usage_remove : string := "Usage: /remove <weekday|weekend> <index>".
Definition unknown : string := "Unknown command. Use /help for commands.".

(** [text] is what the update holds; [text.trim()] throws unless it is a
    string. *)
Definition handleCommand (d : disk) (text : value) : io unit :=
  match text with
  | Of (JString text) =>
      let parts := split_space (trim text) in
      let cmd := toLowerCase (hd EmptyString parts) in
      if String.eqb cmd "/help" then sendTelegram d help_text
      else if String.eqb cmd "/lists" then
        let* data := db_read d in
        sendTelegram d (lists_text data)
      else if String.eqb cmd "/view" then
        match includes (parts !! 1%nat) with
        | None => sendTelegram d usage_view
        | Some listName =>
            let* data := db_read d in
            sendTelegram d (view_text listName data)
        end
      else if String.eqb cmd "/add" then
        match includes (parts !! 1%nat) with
        | None => sendTelegram d usage_add
        | Some listName =>
            let task := trim (join " " (drop 2 parts)) in
            if String.eqb task EmptyString then sendTelegram d no_task
            else
              let* data := db_read d in
              let data := set_list listName (get_list listName data ++ [task]) data in
              db_write d data ;;
              sendTelegram d (added_text listName task)
        end
      else if String.eqb cmd "/edit" then
        let idx := Number (parts !! 2%nat) in
        let newText := trim (join " " (drop 3 parts)) in
        match includes (parts !! 1%nat) with
        | None => sendTelegram d usage_edit
        | Some listName =>
            if negb (isInteger idx) || ltb idx one || String.eqb newText EmptyString
            then sendTelegram d usage_edit
            else
              let* data := db_read d in
              match Arr.get (get_list listName data) (sub idx one) with
              | None => sendTelegram d out_of_range
              | Some old =>
                  if String.eqb old EmptyString then sendTelegram d out_of_range
                  else
                    let data :=
                      set_list listName
                        (Arr.set (get_list listName data) (sub idx one) newText) data in
                    db_write d data ;;
                    sendTelegram d (edited_text listName idx old newText)
              end
        end
      else if String.eqb cmd "/remove" then
        let idx := Number (parts !! 2%nat) in
        match includes (parts !! 1%nat) with
        | None => sendTelegram d usage_remove
        | Some listName =>
            if negb (isInteger idx) || ltb idx one then sendTelegram d usage_remove
            else
              let* data := db_read d in
              let (item, rest) := Arr.splice1 (get_list listName data) (sub idx one) in
              let data := set_list listName rest data in
              db_write d data ;;
              match item with
              | [] => sendTelegram d out_of_range
              | removed :: _ => sendTelegram d (removed_text listName removed)
              end
        end
      else sendTelegram d unknown
  | _ => throw
  end.

Definition digest_header (which : list_name) : string :=
  "🗓️ *Good morning!* Here is your *" +:+ name_str which +:+ "* list for today:" +:+
  nl +:+ nl.

(** GET / *)
Definition daily (d : disk) (now : Z) : io unit :=
  let* data := db_read d in
  let which := istDayType now in
  let list := get_list which data in
  sendTelegram d (digest_header which +:+ prettyList list) ;;
  emit (Respond 200 "Sent today's to-do list.").

(** POST /webhook *)
Definition webhook (cfg : config) (d : disk) (update : update) : io unit :=
  try_catch
    (let* guard :=
       if truthy_value update then
         let* message := reading (get "message" update) in
         if truthy_value message then reading (get "text" message) else ret message
       else ret update in
     if truthy_value guard then
       let* message := reading (get "message" update) in
       let* text := reading (get "text" message) in
       let* from := reading (get "from" message) in
       let* fromId := reading (get "id" from) in
       if unauthorized cfg fromId then emit (Respond 200 "ignored")
       else handleCommand d text ;; emit (Respond 200 "ok")
     else emit (Respond 200 "ok"))
    (emit (Log "webhook error") ;; emit (Respond 500 "error")).

(** *** The router without its effects

    What handleCommand decides on a line: a reply that needs no access to
    db.json, or, from the document read, the document to write back (if
    any) and the reply. [lowdb_handle_outcome] below proves that handleCommand
    performs exactly this. *)
Inductive decision :=
| Reply (msg : string)
| Access (k : TaskDocument -> option TaskDocument * string).

Definition outcome (text : string) : decision :=
  let parts := split_space (trim text) in
  let cmd := toLowerCase (hd EmptyString parts) in
  let listName := includes (parts !! 1%nat) in
  if String.eqb cmd "/help" then Reply help_text
  else if String.eqb cmd "/lists" then Access (fun data => (None, lists_text data))
  else if String.eqb cmd "/view" then
    match listName with
    | None => Reply usage_view
    | Some listName => Access (fun data => (None, view_text listName data))
    end
  else if String.eqb cmd "/add" then
    match listName with
    | None => Reply usage_add
    | Some listName =>
        let task := trim (join " " (drop 2 parts)) in
        if String.eqb task EmptyString then Reply no_task
        else Access (fun data =>
               (Some (set_list listName (get_list listName data ++ [task]) data),
                added_text listName task))
    end
  else if String.eqb cmd "/edit" then
    let idx := Number (parts !! 2%nat) in
    let newText := trim (join " " (drop 3 parts)) in
    match listName with
    | None => Reply usage_edit
    | Some listName =>
        if negb (isInteger idx) || ltb idx one || String.eqb newText EmptyString
        then Reply usage_edit
        else Access (fun data =>
               match Arr.get (get_list listName data) (sub idx one) with
               | None => (None, out_of_range)
               | Some old =>
                   if String.eqb old EmptyString then (None, out_of_range)
                   else (Some (set_list listName
                                 (Arr.set (get_list listName data) (sub idx one) newText)
                                 data),
                         edited_text listName idx old newText)
               end)
    end
  else if String.eqb cmd "/remove" then
    let idx := Number (parts !! 2%nat) in
    match listName with
    | None => Reply usage_remove
    | Some listName =>
        if negb (isInteger idx) || ltb idx one then Reply usage_remove
        else Access (fun data =>
               let (item, rest) := Arr.splice1 (get_list listName data) (sub idx one) in
               (Some (set_list listName rest data),
                match item with
                | [] => out_of_range
                | removed :: _ => removed_text listName removed
                end))
    end
  else Reply unknown.

Definition perform (d : disk) (o : decision) : io unit :=
  match o with
  | Reply msg => sendTelegram d msg
  | Access k =>
      let* data := db_read d in
      match k data with
      | (Some data', msg) => db_write d data' ;; sendTelegram d msg
      | (None, msg) => sendTelegram d msg
      end
  end.

(** How a run ends once its message is out. *)
Definition replied (d : disk) : result unit :=
  if reply_ok d then Done tt else Thrown.

(** The world a command leaves behind, and how it ends. *)
Definition performed (d : disk) (file : TaskDocument) (o : decision) : world * result unit :=
  match o with
  | Reply msg => ({| persisted := file; trace := [Send msg] |}, replied d)
  | Access k =>
      if read_ok d then
        match k file with
        | (Some data', msg) =>
            if write_ok d
            then ({| persisted := data'; trace := [Fetch; Store data'; Send msg] |}, replied d)
            else ({| persisted := file; trace := [Fetch; Store data'] |}, Thrown)
        | (None, msg) => ({| persisted := file; trace := [Fetch; Send msg] |}, replied d)
        end
      else ({| persisted := file; trace := [Fetch] |}, Thrown)
  end.

Definition after (d : TaskDocument) (c : disk * string) : TaskDocument :=
  persisted (fst (run (handleCommand c.1 c.2) d)).

Definition session (calls : list (disk * string)) (d : TaskDocument) : TaskDocument :=
  foldl after d calls.

End Lowdb.

(** ** The command line as the router reads it

    The local variables of handleCommand: [parts], [cmd], [list] (with the
    list it names, if any), [idx], [task] and [newText]. *)
Definition tokens (text : string) : list string := Str.split_space (Str.trim text).

Definition command (text : string) : string :=
  Str.toLowerCase (hd EmptyString (tokens text)).

Definition list_arg (text : string) : option list_name := includes (tokens text !! 1%nat).

Definition index_arg (text : string) : Num.num := Num.Number (tokens text !! 2%nat).

Definition task_arg (text : string) : string :=
  Str.trim (Str.join " " (drop 2 (tokens text))).

Definition text_arg (text : string) : string :=
  Str.trim (Str.join " " (drop 3 (tokens text))).

(** ** The vocabulary of the statements *)

(** The parsing as the specification words it: the line cut at every run
    of white space. *)
Definition spec_tokens (text : string) : list string := String.words text.

Definition has_space (s : string) : Prop := exists p r, s = p +:+ " " +:+ r.

(** A task text is blank when nothing is left of it after trimming. *)
Definition nonblank (t : string) : Prop := Str.trim t <> EmptyString.

Definition well_formed (d : TaskDocument) : Prop :=
  Forall nonblank (weekday d) /\ Forall nonblank (weekend d).

(** [l] with its entry at the 1-based position [i] replaced by [t]: the
    same length, [t] at [i], every other position as before. *)
Definition replaced_at (i : nat) (t : string) (l l' : list string) : Prop :=
  length l' = length l
  /\ l' !! (i - 1)%nat = Some t
  /\ forall j : nat, j <> (i - 1)%nat -> l' !! j = l !! j.

(** [l] with its entry [x] at the 1-based position [i] removed: one entry
    less, the entries before [i] in place, the later ones one position
    down. *)
Definition removed_at (i : nat) (x : string) (l l' : list string) : Prop :=
  l !! (i - 1)%nat = Some x
  /\ S (length l') = length l
  /\ (forall j : nat, (j < i - 1)%nat -> l' !! j = l !! j)
  /\ (forall j : nat, (i - 1 <= j)%nat -> l' !! j = l !! S j).

(** A message renders a list when it ends with the numbered lines (or the
    placeholder) of that list. *)
Definition renders (msg : string) (l : list string) : Prop :=
  exists header, msg = header +:+ formatList l.

(** The entry of a task at a 1-based position, as the lists show it. *)
Definition entry (position : nat) (t : string) : string :=
  Str.dec position +:+ ". " +:+ t.

(** What the lines before the last entry look like. *)
Definition lines_before (l : list string) : string :=
  match l with
  | [] => EmptyString
  | _ => formatList l +:+ Str.nl
  end.

(** ** Examples

    A configuration, its sender, and backends where every call succeeds. *)
Definition cfg42 : config := {| CHAT_ID := "42" |}.
Definition sender42 : Num.num := Num.of_Z 42.
Definition net_ok : Cloud.net := {| Cloud.fetch_ok := true; Cloud.put := Cloud.PutOk |}.
Definition disk_ok : Lowdb.disk :=
  {| Lowdb.read_ok := true; Lowdb.write_ok := true; Lowdb.reply_ok := true |}.

(** The update of a text message: [{message: {text, from: {id}}}]. *)
Definition text_update (text : string) (fromId : Num.num) : update :=
  Json.Of (Json.JObject
    [("message", Json.JObject [("text", Json.JString text);
                               ("from", Json.JObject [("id", Json.JNumber fromId)])])]).

(** ** What a run asked of its collaborators, and what it may change *)

(** The number of reads of the document (GET <bin>/latest, db.read()). *)
Definition fetches (w : world) : nat :=
  length (List.filter (fun e => match e with Fetch => true | _ => false end) (trace w)).

(** The HTTP responses of a route. *)
Definition responses (w : world) : list (nat * string) :=
  omap (fun e => match e with Respond status body => Some (status, body) | _ => None end)
       (trace w).

(** The command words under which the routers write. *)
Definition mutating (cmd : string) : bool :=
  String.eqb cmd "/add" || String.eqb cmd "/edit" || String.eqb cmd "/remove".

(** What a command word may make of a list: /add puts a text that is not
    blank at its end, /edit puts one at a position the list has, /remove
    takes the entry at a position the list has, or none. *)
Inductive list_step : string -> list string -> list string -> Prop :=
| step_add (l : list string) (t : string) :
    nonblank t -> list_step "/add" l (l ++ [t])
| step_edit (l : list string) (i : nat) (t : string) :
    (i < length l)%nat -> nonblank t -> list_step "/edit" l (<[i := t]> l)
| step_remove (l : list string) (i : nat) :
    (i < length l)%nat -> list_step "/remove" l (delete i l)
| step_nothing (l : list string) : list_step "/remove" l l.

(** The calls of a session that can change the document: a command of the
    authorized sender under a word that writes, with a backend that takes
    the write. *)
Definition cloud_effective (cfg : config) (c : Cloud.net * string * Num.num) : bool :=
  negb (unauthorized cfg c.2) && mutating (command c.1.2)
  && match Cloud.put c.1.1 with Cloud.PutOk => true | _ => false end.

Definition lowdb_effective (c : Lowdb.disk * string) : bool :=
  mutating (command c.2) && Lowdb.read_ok c.1 && Lowdb.write_ok c.1.

(** A string of printable ASCII characters, none of them a space: a word
    as a user types it between two spaces. *)
Fixpoint all_solid (s : string) : bool :=
  match s with
  | EmptyString => true
  | String a r => Str.solid a && all_solid r
  end.

Definition word (t : string) : Prop := t <> EmptyString /\ all_solid t = true.

(** ** Startup

    [process.env]: a variable is set to a string, or it is not set. *)
Definition env : Type := string -> option string.

(** [!process.env.KEY]: the variable is not set, or is the empty string. *)
Definition unset (e : env) (key : string) : bool :=
  match e key with
  | Some v => String.eqb v EmptyString
  | None => true
  end.

(** How the module starts: [process.exit(code)] after a line on the error
    output; a rejection at the top level of the module, which Node reports
    before it exits with code 1; or the server goes on with the
    configuration read. *)
Inductive started :=
| Exits (code : nat) (line : string)
| Rejects
| Serves (cfg : config).

(** The exit code of a start that ends the process. *)
Definition exit_code (s : started) : option nat :=
  match s with
  | Exits code _ => Some code
  | Rejects => Some 1%nat
  | Serves _ => None
  end.

(** The start of part_000: the check of the environment. *)
Definition cloud_start (e : env) : started :=
  if unset e "TELE_TOKEN" || unset e "CHAT_ID" || unset e "JSONBIN_URL" || unset e "JSONBIN_KEY"
  then Exits 1 "❌ Missing environment variables!"
  else Serves {| CHAT_ID := default EmptyString (e "CHAT_ID") |}.

(** The start of index.js: the check of the environment, then
    [await initDB()] at the top level of the module, on what [db.read()]
    finds and what [db.write()] does. *)
Definition lowdb_start (e : env) (r : Lowdb.read_result) (d : Lowdb.disk) : started :=
  if unset e "TELE_TOKEN" || unset e "CHAT_ID"
  then Exits 1 "Please set TELE_TOKEN and CHAT_ID in environment variables."
  else
    match Lowdb.initDB r d with
    | Thrown => Rejects
    | Done _ => Serves {| CHAT_ID := default EmptyString (e "CHAT_ID") |}
    end.

(** * Facts *)

(** ** Strings *)

Module StrFacts.
Import Str.

Lemma append_nil_l (t : string) : EmptyString +:+ t = t.
Proof. reflexivity. Qed.

Lemma append_cons (a : ascii) (s t : string) : String a s +:+ t = String a (s +:+ t).
Proof. reflexivity. Qed.

Lemma append_nil_r (s : string) : s +:+ EmptyString = s.
Proof. induction s as [|a s IH]; [done | by rewrite append_cons, IH]. Qed.

Lemma append_assoc (s t u : string) : (s +:+ t) +:+ u = s +:+ t +:+ u.
Proof. induction s as [|a s IH]; [done | by rewrite !append_cons, IH]. Qed.

Lemma length_append (s t : string) :
  String.length (s +:+ t) = (String.length s + String.length t)%nat.
Proof. induction s as [|a s IH]; [done | rewrite append_cons; simpl; by rewrite IH]. Qed.

Lemma trimStart_strip1 (s : string) :
  trimStart s = match strip1 s with Some r => trimStart r | None => s end.
Proof.
  destruct s as [|a [|b [|c r3]]]; simpl; try done.
  - by destruct (ws1 a).
  - destruct (ws1 a); [done|]. by destruct (ws2 a b).
  - destruct (ws1 a); [done|]. destruct (ws2 a b); [done|]. by destruct (ws3 a b c).
Qed.

Lemma strip1_shorter (s r : string) :
  strip1 s = Some r -> (String.length r < String.length s)%nat.
Proof.
  destruct s as [|a [|b [|c r3]]]; simpl; try done.
  - destruct (ws1 a); intros; simplify_eq; simpl; lia.
  - destruct (ws1 a); [intros; simplify_eq; simpl; lia|].
    destruct (ws2 a b); intros; simplify_eq; simpl; lia.
  - destruct (ws1 a); [intros; simplify_eq; simpl; lia|].
    destruct (ws2 a b); [intros; simplify_eq; simpl; lia|].
    destruct (ws3 a b c); intros; simplify_eq; simpl; lia.
Qed.

(** What is stripped lies at the head: it is stripped as well from any
    longer string. *)
Lemma strip1_app (s r w : string) :
  strip1 s = Some r -> strip1 (s +:+ w) = Some (r +:+ w).
Proof.
  destruct s as [|a [|b [|c r3]]]; simpl; try done.
  - destruct (ws1 a); intros; by simplify_eq.
  - destruct (ws1 a); [intros; by simplify_eq|].
    destruct (ws2 a b); intros; by simplify_eq.
  - destruct (ws1 a); [intros; by simplify_eq|].
    destruct (ws2 a b); [intros; by simplify_eq|].
    destruct (ws3 a b c); intros; by simplify_eq.
Qed.

(** Induction on the length of a string. *)
Lemma length_ind (P : string -> Prop) :
  (forall s, (forall r, (String.length r < String.length s)%nat -> P r) -> P s) ->
  forall s, P s.
Proof.
  intros step.
  assert (forall n s, (String.length s < n)%nat -> P s) as H.
  { induction n as [|n IH]; intros s Hs; [lia|].
    apply step. intros r Hr. apply IH. lia. }
  intros s. apply (H (S (String.length s))). lia.
Qed.

Lemma trimStart_length (s : string) :
  (String.length (trimStart s) <= String.length s)%nat.
Proof.
  induction s as [s IH] using length_ind.
  rewrite trimStart_strip1. destruct (strip1 s) as [r|] eqn:E; [|done].
  apply strip1_shorter in E. specialize (IH r E). lia.
Qed.

Lemma trimStart_fixed (s : string) : trimStart s = s -> strip1 s = None \/ s = EmptyString.
Proof.
  intros H. destruct (strip1 s) as [r|] eqn:E; [|by left].
  rewrite trimStart_strip1, E in H.
  pose proof (trimStart_length r). apply strip1_shorter in E.
  rewrite H in *. lia.
Qed.

Lemma trimStart_idemp (s : string) : trimStart (trimStart s) = trimStart s.
Proof.
  induction s as [s IH] using length_ind.
  rewrite (trimStart_strip1 s). destruct (strip1 s) as [r|] eqn:E.
  - apply IH. by apply strip1_shorter.
  - by rewrite trimStart_strip1, E.
Qed.

Lemma blank_app (p w : string) : blank p = true -> trimStart (p +:+ w) = trimStart w.
Proof.
  induction p as [p IH] using length_ind. unfold blank. intros Hp.
  rewrite (trimStart_strip1 p) in Hp.
  destruct (strip1 p) as [r|] eqn:E.
  - rewrite trimStart_strip1, (strip1_app _ _ w E).
    apply IH; [by apply strip1_shorter|]. done.
  - by destruct p.
Qed.

(** [trimEnd] drops a blank suffix. *)
Lemma trimEnd_suffix (s : string) :
  exists w, s = trimEnd s +:+ w /\ blank w = true.
Proof.
  induction s as [|a r [w [Hr Hw]]].
  - by exists EmptyString.
  - cbn [trimEnd]. destruct (blank (String a r)) eqn:Hb.
    + by exists (String a r).
    + exists w. split; [|done]. by rewrite append_cons, <- Hr.
Qed.

Lemma trimEnd_idemp (s : string) : trimEnd (trimEnd s) = trimEnd s.
Proof.
  induction s as [|a r IH]; [done|].
  cbn [trimEnd]. destruct (blank (String a r)) eqn:Hb; [done|].
  cbn [trimEnd]. destruct (blank (String a (trimEnd r))) eqn:Hb'.
  - destruct (trimEnd_suffix r) as [w [Hr Hw]].
    pose proof (blank_app _ w Hb') as H. rewrite append_cons, <- Hr in H.
    unfold blank in Hb, Hw. rewrite H in Hb. by rewrite Hb in Hw.
  - by rewrite IH.
Qed.

Lemma trimStart_trimEnd (q : string) :
  trimStart q = q -> trimStart (trimEnd q) = trimEnd q.
Proof.
  intros Hq. rewrite trimStart_strip1.
  destruct (strip1 (trimEnd q)) as [r|] eqn:E; [|done].
  destruct (trimEnd_suffix q) as [w [Hw _]].
  apply (strip1_app _ _ w) in E. rewrite <- Hw in E.
  destruct (trimStart_fixed q Hq) as [H|H]; [congruence|].
  subst q. done.
Qed.

Theorem trim_idemp (s : string) : trim (trim s) = trim s.
Proof.
  unfold trim.
  rewrite (trimStart_trimEnd _ (trimStart_idemp s)).
  apply trimEnd_idemp.
Qed.

(** A trimmed text that is not empty is not blank. *)
Lemma trim_nonblank (s : string) : trim s <> EmptyString -> nonblank (trim s).
Proof. unfold nonblank. by rewrite trim_idemp. Qed.

Lemma nonblank_nonempty (t : string) : nonblank t -> t <> EmptyString.
Proof. intros H ->. by apply H. Qed.

(** *** split and join *)

Lemma split_space_nonempty (s : string) : split_space s <> [].
Proof.
  induction s as [|a r IH]; simpl; [done|].
  destruct (Ascii.eqb a " "); [done|]. by destruct (split_space r).
Qed.

Lemma join_cons (sep t : string) (ts : list string) :
  ts <> [] -> join sep (t :: ts) = t +:+ sep +:+ join sep ts.
Proof. by destruct ts. Qed.

(** Joining the tokens with single spaces gives the line back. *)
Lemma join_split_space (s : string) : join " " (split_space s) = s.
Proof.
  induction s as [|a r IH]; simpl; [done|].
  destruct (Ascii.eqb_spec a " ") as [->|Hne].
  - rewrite join_cons by apply split_space_nonempty.
    by rewrite append_nil_l, append_cons, append_nil_l, IH.
  - pose proof (split_space_nonempty r) as Hn.
    destruct (split_space r) as [|t ts]; [done|].
    destruct ts as [|t' ts].
    + simpl in *. by rewrite IH.
    + rewrite join_cons by done. rewrite join_cons in IH by done.
      by rewrite append_cons, IH.
Qed.

Lemma split_space_tokens (s : string) : Forall (fun t => ~ has_space t) (split_space s).
Proof.
  induction s as [|a r IH]; simpl.
  - constructor; [|done]. intros (p & q & H). by destruct p.
  - destruct (Ascii.eqb_spec a " ") as [->|Hne].
    + constructor; [|done]. intros (p & q & H). by destruct p.
    + pose proof (split_space_nonempty r) as Hn.
      destruct (split_space r) as [|t ts]; [done|].
      inversion_clear IH as [|?? Ht Hts]. constructor; [|done].
      intros (p & q & H). destruct p as [|b p].
      * rewrite append_nil_l, append_cons in H. by simplify_eq.
      * rewrite append_cons in H. simplify_eq. apply Ht. by exists p, q.
Qed.

End StrFacts.

(** ** Numbers: the integers below 2^53 are computed with exactly *)

Module NumFacts.
Import Num.

Lemma iter_pos_iter {A} (f : A -> A) (p : positive) (x : A) :
  SpecFloat.iter_pos f p x = Pos.iter f x p.
Proof.
  revert x. induction p as [p IH|p IH|]; intros x; simpl; [|by rewrite !IH|done].
  rewrite !IH. by rewrite <- !Pos.iter_swap.
Qed.

Lemma Zpos_shl (p : positive) (k : Z) : 0 <= k -> Z.pos (shl p k) = Z.pos p * 2 ^ k.
Proof.
  intros Hk. destruct k as [|n|n]; [simpl; lia| |lia]. clear Hk.
  unfold shl. induction n as [|n IH] using Pos.peano_ind.
  - simpl. lia.
  - rewrite Pos.iter_succ, Pos2Z.inj_xO, IH, Pos2Z.inj_succ, Z.pow_succ_r by lia. lia.
Qed.

Lemma shl_shl (p : positive) (a b : Z) :
  0 <= a -> 0 <= b -> shl (shl p a) b = shl p (a + b).
Proof.
  intros Ha Hb. apply Pos2Z.inj.
  rewrite !Zpos_shl, Z.pow_add_r by lia. lia.
Qed.

Lemma digits2_size (p : positive) : digits2_pos p = Pos.size p.
Proof. induction p as [p IH|p IH|]; simpl; by rewrite ?IH. Qed.

Lemma digits2_bounds (p : positive) :
  2 ^ (Z.pos (digits2_pos p) - 1) <= Z.pos p < 2 ^ Z.pos (digits2_pos p).
Proof.
  induction p as [p IH|p IH|]; [| |simpl; lia]; cbn [digits2_pos];
    rewrite Pos2Z.inj_succ;
    replace (Z.succ (Z.pos (digits2_pos p)) - 1) with (Z.succ (Z.pos (digits2_pos p) - 1)) by lia;
    rewrite !Z.pow_succ_r by lia.
  - destruct IH. split; [etrans; [apply Z.mul_le_mono_nonneg_l; [lia|eassumption]|]|]; lia.
  - destruct IH. split; [etrans; [apply Z.mul_le_mono_nonneg_l; [lia|eassumption]|]|]; lia.
Qed.

Lemma digits2_le (p : positive) (n : Z) : Z.pos p < 2 ^ n -> Z.pos (digits2_pos p) <= n.
Proof.
  intros H. destruct (Z.le_gt_cases (Z.pos (digits2_pos p)) n) as [|Hgt]; [done|].
  pose proof (digits2_bounds p) as [Hlo _].
  assert (0 <= n) by (destruct n; [lia|lia|by rewrite Z.pow_neg_r in H by lia]).
  assert (2 ^ n <= 2 ^ (Z.pos (digits2_pos p) - 1)) by (apply Z.pow_le_mono_r; lia).
  lia.
Qed.

Lemma digits2_shl (p : positive) (k : Z) :
  0 <= k -> Z.pos (digits2_pos (shl p k)) = Z.pos (digits2_pos p) + k.
Proof.
  intros Hk. destruct k as [|n|n]; [simpl; lia| |lia]. clear Hk.
  unfold shl. induction n as [|n IH] using Pos.peano_ind.
  - simpl. lia.
  - rewrite Pos.iter_succ. simpl digits2_pos. rewrite Pos2Z.inj_succ, IH. lia.
Qed.

(** Shifting right the bits that a left shift brought in loses nothing. *)
Lemma shr_shl (q : positive) (n : positive) :
  Pos.iter shr_1 {| shr_m := Z.pos (Pos.iter xO q n); shr_r := false; shr_s := false |} n
  = {| shr_m := Z.pos q; shr_r := false; shr_s := false |}.
Proof.
  induction n as [|n IH] using Pos.peano_ind; [done|].
  rewrite (Pos.iter_succ n _ xO), (Pos.iter_succ n _ shr_1), <- Pos.iter_swap.
  cbn [shr_1 orb]. apply IH.
Qed.

Lemma shr_fexp_shl (q : positive) (k e : Z) :
  Z.pos (digits2_pos q) = 53 -> 0 <= k -> -1074 <= e + k ->
  shr_fexp 53 1024 (Z.pos (shl q k)) e loc_Exact
  = ({| shr_m := Z.pos q; shr_r := false; shr_s := false |}, e + k).
Proof.
  intros Hq Hk He. unfold shr_fexp, Zdigits2. rewrite digits2_shl, Hq by done.
  unfold fexp, emin.
  replace (Z.max (53 + k + e - 53) (3 - 1024 - 53) - e) with k by lia.
  destruct k as [|n|n]; [|  |lia].
  - simpl. by rewrite Z.add_0_r.
  - unfold shr, shr_record_of_loc, shl. by rewrite iter_pos_iter, shr_shl.
Qed.

Lemma binary_round_aux_shl (s : bool) (q : positive) (k e : Z) :
  Z.pos (digits2_pos q) = 53 -> 0 <= k -> -1074 <= e + k <= 971 ->
  binary_round_aux 53 1024 s (Z.pos (shl q k)) e loc_Exact = S754_finite s q (e + k).
Proof.
  intros Hq Hk He. unfold binary_round_aux.
  rewrite shr_fexp_shl by (done || lia).
  cbn [shr_m loc_of_shr_record round_nearest_even].
  pose proof (shr_fexp_shl q 0 (e + k) Hq) as H0. cbn [shl] in H0.
  rewrite H0 by lia. cbn [shr_m]. rewrite Z.add_0_r.
  replace (e + k <=? 1024 - 53) with true by (symmetry; apply Z.leb_le; lia).
  done.
Qed.

Lemma shl_align_le (m : positive) (e e' : Z) :
  e' <= e -> shl_align m e e' = (shl m (e - e'), if e' =? e then e else e').
Proof.
  intros H. unfold shl_align, shl.
  destruct (e' - e) as [|n|n] eqn:E; [| lia |].
  - replace (e - e') with 0 by lia.
    by replace (e' =? e) with true by (symmetry; apply Z.eqb_eq; lia).
  - replace (e - e') with (Z.pos n) by lia.
    by replace (e' =? e) with false by (symmetry; apply Z.eqb_neq; lia).
Qed.

Lemma shl_align_ge (m : positive) (e e' : Z) : e <= e' -> shl_align m e e' = (m, e).
Proof. intros H. unfold shl_align. destruct (e' - e) eqn:E; [done|done|lia]. Qed.

Lemma of_Z_pos (p : positive) : Z.pos p < 2 ^ 53 -> of_Z (Z.pos p) = canon p.
Proof.
  intros Hp. apply digits2_le in Hp.
  unfold of_Z, binary_normalize, binary_round, canon.
  set (d := Z.pos (digits2_pos p)) in *.
  assert (1 <= d) by (subst d; lia).
  unfold fexp, emin. replace (Z.max (d + 0 - 53) (3 - 1024 - 53)) with (d - 53) by lia.
  rewrite shl_align_le by lia. rewrite Z.sub_0_l, Z.opp_sub_distr, Z.add_comm.
  replace (-53 + d) with (d - 53) by lia.
  replace (53 + - d) with (53 - d) by lia.
  assert (Z.pos (digits2_pos (shl p (53 - d))) = 53) as Hq
    by (rewrite digits2_shl by lia; subst d; lia).
  pose proof (binary_round_aux_shl false _ 0 (if d - 53 =? 0 then 0 else d - 53) Hq) as H0.
  cbn [shl] in H0. rewrite H0 by (destruct (d - 53 =? 0) eqn:E; lia).
  f_equal. destruct (Z.eqb_spec (d - 53) 0); lia.
Qed.

Lemma one_canon : one = S754_finite false (shl 1 52) (-52).
Proof. reflexivity. Qed.

Lemma sub_canon_one (p : positive) :
  Z.pos p < 2 ^ 53 -> sub (canon p) one = of_Z (Z.pos p - 1).
Proof.
  intros Hp. pose proof (digits2_le _ _ Hp) as Hd.
  rewrite one_canon. unfold sub, canon, SFsub.
  set (d := Z.pos (digits2_pos p)) in *.
  assert (1 <= d) by (subst d; lia).
  replace (Z.min (d - 53) (-52)) with (-52) by lia.
  rewrite (shl_align_le _ (d - 53)) by lia.
  rewrite (shl_align_ge _ (-52)) by lia.
  cbn [fst cond_Zopp]. rewrite shl_shl by lia.
  replace (53 - d + (d - 53 - -52)) with 52 by lia.
  destruct (Pos.eq_dec p 1%positive) as [->|Hne]; [done|].
  assert (Z.pos (shl p 52) - Z.pos (shl 1 52) = Z.pos (shl (Pos.pred p) 52)) as ->.
  { rewrite !Zpos_shl, Pos2Z.inj_pred by lia. lia. }
  replace (Z.pos p - 1) with (Z.pos (Pos.pred p)) by (rewrite Pos2Z.inj_pred; lia).
  assert (Z.pos (Pos.pred p) < 2 ^ 53) as Hp' by (rewrite Pos2Z.inj_pred; lia).
  rewrite (of_Z_pos _ Hp'). unfold canon.
  pose proof (digits2_le _ _ Hp') as Hd'.
  set (q := Pos.pred p) in *. set (d' := Z.pos (digits2_pos q)) in *.
  assert (1 <= d') by (subst d'; lia).
  unfold binary_normalize, binary_round.
  rewrite digits2_shl by lia. fold d'.
  unfold fexp, emin. replace (Z.max (d' + 52 + -52 - 53) (3 - 1024 - 53)) with (d' - 53) by lia.
  rewrite shl_align_ge by lia.
  replace (shl q 52) with (shl (shl q (53 - d')) (d' - 1))
    by (rewrite shl_shl by lia; f_equal; lia).
  rewrite binary_round_aux_shl.
  - f_equal. lia.
  - rewrite digits2_shl by lia. subst d'. lia.
  - lia.
  - lia.
Qed.

Lemma as_integer_canon (p : positive) :
  Z.pos p < 2 ^ 53 -> as_integer (canon p) = Some (Z.pos p).
Proof.
  intros Hp. apply digits2_le in Hp. unfold as_integer, canon.
  set (d := Z.pos (digits2_pos p)) in *.
  rewrite Zpos_shl by lia. cbn [cond_Zopp].
  destruct (Z.leb_spec 0 (d - 53)).
  - replace (53 - d) with 0 by lia. replace (d - 53) with 0 by lia. f_equal. lia.
  - replace (- (d - 53)) with (53 - d) by lia.
    rewrite Z.mod_mul, Z.eqb_refl, Z.div_mul by lia. done.
Qed.

Lemma as_integer_of_Z (z : Z) : 0 <= z < 2 ^ 53 -> as_integer (of_Z z) = Some z.
Proof.
  intros [H0 H1]. destruct z as [|p|p]; [done| |lia].
  rewrite of_Z_pos by done. by apply as_integer_canon.
Qed.

Lemma sub_of_Z_one (z : Z) : 1 <= z < 2 ^ 53 -> sub (of_Z z) one = of_Z (z - 1).
Proof.
  intros [H0 H1]. destruct z as [|p|p]; [lia| |lia].
  rewrite of_Z_pos by done. by apply sub_canon_one.
Qed.

Lemma falsy_of_Z (z : Z) : 1 <= z < 2 ^ 53 -> falsy (of_Z z) = false.
Proof.
  intros [H0 H1]. destruct z as [|p|p]; [lia| |lia]. by rewrite of_Z_pos.
Qed.

Lemma isInteger_of_Z (z : Z) : 0 <= z < 2 ^ 53 -> isInteger (of_Z z) = true.
Proof. intros H. unfold isInteger. by rewrite as_integer_of_Z. Qed.

Lemma ltb_of_Z_one (z : Z) : 1 <= z < 2 ^ 53 -> ltb (of_Z z) one = false.
Proof.
  intros [H0 H1]. destruct z as [|p|p]; [lia| |lia].
  rewrite of_Z_pos, one_canon by done. unfold canon, ltb, SFltb, SFcompare.
  pose proof (digits2_le _ _ H1).
  set (d := Z.pos (digits2_pos p)) in *.
  assert (1 <= d) by (subst d; lia).
  destruct (Z.compare_spec (d - 53) (-52)) as [E|E|E]; [|lia|done].
  replace (53 - d) with 52 by lia.
  assert (p = 1%positive) as ->.
  { pose proof (digits2_bounds p) as [_ Hb]. fold d in Hb.
    replace d with 1 in Hb by lia. lia. }
  done.
Qed.

Lemma ToIntegerOrInfinity_of_Z (z : Z) :
  0 <= z < 2 ^ 53 -> ToIntegerOrInfinity (of_Z z) = Int z.
Proof.
  intros H. pose proof (as_integer_of_Z z H) as Hi.
  unfold as_integer, ToIntegerOrInfinity in *.
  destruct (of_Z z) as [| | |s m e]; try done; [by simplify_eq|].
  destruct (0 <=? e); [by simplify_eq|].
  destruct (Z.pos m mod 2 ^ (- e) =? 0); by simplify_eq.
Qed.

End NumFacts.

(** ** The storage client and the rendering *)

Module EffectFacts.
Import Json Cloud.

Lemma mapM_as_string (l : list string) : mapM as_string (JString <$> l) = Some l.
Proof. induction l as [|t l IH]; [done|]. cbn. rewrite IH. done. Qed.

Lemma decode_encode (d : TaskDocument) : decode (encode d) = Some d.
Proof.
  destruct d as [a b]. unfold decode, encode.
  cbn [assoc String.eqb Ascii.eqb Bool.eqb weekday weekend].
  simpl. by rewrite !mapM_as_string.
Qed.

Lemma getData_latest (n : net) (remote : TaskDocument) (w : world) :
  getData (latest n remote) w
  = ({| persisted := persisted w; trace := trace w ++ fetch_trace n |},
     Done (encode (loaded n remote))).
Proof.
  unfold getData, latest, fetch_trace, loaded, try_catch, bind, fetch_latest, emit, ret, throw.
  destruct (fetch_ok n); cbn; [done|]. by rewrite <- app_assoc.
Qed.

Lemma getDocument_run (n : net) (w : world) :
  getDocument n w
  = ({| persisted := persisted w; trace := trace w ++ fetch_trace n |},
     Done (loaded n (persisted w))).
Proof.
  unfold getDocument, bind, read_persisted. rewrite getData_latest.
  by rewrite decode_encode.
Qed.

Lemma saveData_run (n : net) (data : TaskDocument) (w : world) :
  saveData n data w
  = ({| persisted := saved n data (persisted w);
        trace := trace w ++ [Store data; Log (save_line n)] |}, Done tt).
Proof.
  unfold saveData, http_put, saved, save_line, try_catch, bind, emit, ret, throw, write_persisted.
  destruct (put n); cbn; by rewrite <- app_assoc.
Qed.

End EffectFacts.

Module RenderFacts.
Import Str StrFacts.

Lemma numbered_snoc (i : nat) (l : list string) (t : string) :
  numbered i (l ++ [t]) = numbered i l ++ [entry (i + length l + 1) t].
Proof.
  revert i. induction l as [|x l IH]; intros i; simpl.
  - by rewrite Nat.add_0_r.
  - rewrite IH. by replace (S i + length l + 1)%nat with (i + S (length l) + 1)%nat by lia.
Qed.

Lemma join_snoc (sep : string) (xs : list string) (y : string) :
  xs <> [] -> join sep (xs ++ [y]) = join sep xs +:+ sep +:+ y.
Proof.
  induction xs as [|x xs IH]; [done|]. intros _.
  destruct xs as [|x' xs]; [done|].
  change ((x :: x' :: xs) ++ [y]) with (x :: ((x' :: xs) ++ [y])).
  rewrite join_cons by done. rewrite IH by done.
  rewrite (join_cons _ x) by done. by rewrite !append_assoc.
Qed.

(** The rendering of a list with one more task at its end: the lines of
    the list, then the new task as the last entry. *)
Lemma formatList_snoc (l : list string) (t : string) :
  formatList (l ++ [t]) = lines_before l +:+ entry (S (length l)) t.
Proof.
  unfold formatList, lines_before. destruct l as [|x l]; [done|].
  change ((x :: l) ++ [t]) with (x :: (l ++ [t])).
  change (numbered 0 (x :: l ++ [t])) with (numbered 0 ((x :: l) ++ [t])).
  rewrite numbered_snoc, join_snoc by done.
  rewrite append_assoc. by replace (0 + length (x :: l) + 1)%nat with (S (length (x :: l))) by lia.
Qed.

End RenderFacts.

Module CloudFacts.
Import Str Num Cloud EffectFacts.

Ltac eqb_literals := cbn [String.eqb Ascii.eqb Bool.eqb andb].

Lemma dispatch_outcome (n : net) (parts : list string) (db : TaskDocument) :
  dispatch n parts db = perform n (outcome parts db).
Proof.
  unfold dispatch, outcome, perform.
  repeat (match goal with
          | |- context [if ?b then _ else _] => destruct b
          | |- context [match ?o with Some _ => _ | None => _ end] => destruct o
          | |- context [let (_, _) := ?p in _] => destruct p
          | |- context [match ?l with [] => _ | _ :: _ => _ end] => destruct l
          end; try reflexivity).
Qed.

Lemma cloud_perform_run (n : net) (o : option TaskDocument * string) (remote : TaskDocument) :
  perform n o {| persisted := remote; trace := fetch_trace n |}
  = (performed n remote o, Done tt).
Proof.
  destruct o as [[db|] msg]; unfold perform, performed, sendTelegram, emit, bind; [|done].
  rewrite saveData_run. cbn [persisted trace]. by rewrite <- !app_assoc.
Qed.

(** A command of the authorized sender: the document is fetched, and the
    decision taken on it is performed. *)
Lemma cloud_handle_run (cfg : config) (n : net) (text : string) (fromId : Json.value)
    (remote : TaskDocument) :
  unauthorized cfg fromId = false ->
  run (handleCommand cfg n text fromId) remote
  = (performed n remote (outcome (tokens text) (loaded n remote)), Done tt).
Proof.
  intros Hauth. unfold run, handleCommand. rewrite Hauth.
  unfold bind at 1. rewrite getDocument_run. cbn [persisted trace app].
  rewrite dispatch_outcome. apply cloud_perform_run.
Qed.

Lemma cloud_handle_unauthorized (cfg : config) (n : net) (text fromId : Json.value)
    (remote : TaskDocument) :
  unauthorized cfg fromId = true ->
  run (handleCommand cfg n text fromId) remote
  = ({| persisted := remote; trace := [] |}, Done tt).
Proof. intros Hauth. unfold run, handleCommand. by rewrite Hauth. Qed.

(** A value is a string, or [text.trim()] throws. *)
Lemma as_text_cases (v : Json.value) :
  (exists s : string, v = s) \/ Json.as_text v = None.
Proof. destruct v as [|[]]; eauto. Qed.

Lemma cloud_handle_not_text (cfg : config) (n : net) (text fromId : Json.value)
    (remote : TaskDocument) :
  unauthorized cfg fromId = false -> Json.as_text text = None ->
  run (handleCommand cfg n text fromId) remote
  = ({| persisted := remote; trace := [] |}, Thrown).
Proof.
  intros Hauth Htext. unfold run, handleCommand. rewrite Hauth.
  by destruct text as [|[]].
Qed.

(** A handler started on a world that has a trace already: the trace it
    leaves is the one it found followed by the one of its run from an empty
    trace, and the rest is as in that run. *)
Lemma cloud_handle_any (cfg : config) (n : net) (text fromId : Json.value) (w : world) :
  let r := run (handleCommand cfg n text fromId) (persisted w) in
  handleCommand cfg n text fromId w
  = ({| persisted := persisted r.1; trace := trace w ++ trace r.1 |}, r.2).
Proof.
  intros r. subst r. destruct (unauthorized cfg fromId) eqn:Hauth.
  { rewrite cloud_handle_unauthorized by done. unfold handleCommand. rewrite Hauth.
    cbn. rewrite app_nil_r. by destruct w. }
  destruct (as_text_cases text) as [[s ->]|Htext]; cycle 1.
  { rewrite cloud_handle_not_text by done. unfold handleCommand. rewrite Hauth.
    destruct text as [|[]]; try discriminate; cbn; rewrite app_nil_r; by destruct w. }
  rewrite cloud_handle_run by done. unfold handleCommand. rewrite Hauth.
  unfold bind at 1. rewrite getDocument_run, dispatch_outcome. cbn [fst snd].
  change (split_space (trim s)) with (tokens s).
  destruct (outcome (tokens s) (loaded n (persisted w))) as [[db|] msg];
    unfold perform, performed, sendTelegram, emit, bind.
  - rewrite saveData_run. cbn [persisted trace]. by rewrite <- !app_assoc.
  - cbn [persisted trace]. by rewrite <- !app_assoc.
Qed.

(** The JSONBin router throws only on a text that is not a string. *)
Lemma cloud_handle_result (cfg : config) (n : net) (text fromId : Json.value)
    (remote : TaskDocument) :
  (run (handleCommand cfg n text fromId) remote).2
  = if negb (unauthorized cfg fromId) && negb (bool_decide (is_Some (Json.as_text text)))
    then Thrown else Done tt.
Proof.
  destruct (unauthorized cfg fromId) eqn:Hauth.
  { by rewrite cloud_handle_unauthorized. }
  destruct (as_text_cases text) as [[s ->]|Htext].
  - by rewrite cloud_handle_run.
  - rewrite cloud_handle_not_text, Htext by done. done.
Qed.

Lemma cloud_handle_done (cfg : config) (n : net) (text : string) (fromId : Json.value)
    (remote : TaskDocument) :
  (run (handleCommand cfg n text fromId) remote).2 = Done tt.
Proof. rewrite cloud_handle_result. cbn. by rewrite andb_false_r. Qed.

Section Performed.
Variables (n : net) (remote : TaskDocument) (msg : string).

Lemma cloud_sent_reply : sent (performed n remote (None, msg)) = [msg].
Proof. unfold performed, fetch_trace. by destruct (fetch_ok n). Qed.

Lemma cloud_stored_reply : stored (performed n remote (None, msg)) = [].
Proof. unfold performed, fetch_trace. by destruct (fetch_ok n). Qed.

Lemma cloud_persisted_reply : persisted (performed n remote (None, msg)) = remote.
Proof. done. Qed.

Lemma cloud_sent_save (db : TaskDocument) : sent (performed n remote (Some db, msg)) = [msg].
Proof. unfold performed, fetch_trace. by destruct (fetch_ok n). Qed.

Lemma cloud_stored_save (db : TaskDocument) : stored (performed n remote (Some db, msg)) = [db].
Proof. unfold performed, fetch_trace. by destruct (fetch_ok n). Qed.

Lemma cloud_persisted_save (db : TaskDocument) :
  persisted (performed n remote (Some db, msg)) = saved n db remote.
Proof. done. Qed.
End Performed.

End CloudFacts.

Module LowdbFacts.
Import Str Num Lowdb.

Lemma lowdb_perform_run (d : disk) (o : decision) (file : TaskDocument) :
  run (perform d o) file = performed d file o.
Proof.
  unfold run, perform, performed, replied.
  unfold db_read, db_write, sendTelegram, emit, read_persisted, write_persisted, throw, ret.
  destruct o as [msg|k]; unfold bind; cbn [persisted trace app].
  { by destruct (reply_ok d). }
  destruct (read_ok d); [|done]. cbn [persisted trace].
  destruct (k file) as [[data'|] msg].
  - destruct (write_ok d); [|done]. cbn [persisted trace app]. by destruct (reply_ok d).
  - cbn [persisted trace app]. by destruct (reply_ok d).
Qed.

(** handleCommand performs the decision taken on the line. *)
Lemma lowdb_handle_outcome (d : disk) (text : string) (w : world) :
  handleCommand d text w = perform d (outcome text) w.
Proof.
  unfold handleCommand, outcome, perform.
  repeat (match goal with
          | |- context [if ?b then _ else _] => destruct b
          | |- context [match ?o with Some _ => _ | None => _ end] => destruct o
          end; try reflexivity).

  - unfold bind. destruct (db_read d w) as [w' [data|]]; [|done].
    repeat (match goal with
            | |- context [if ?b then _ else _] => destruct b
            | |- context [match ?o with Some _ => _ | None => _ end] => destruct o
            end; try reflexivity).
  - unfold bind. destruct (db_read d w) as [w' [data|]]; [|done].
    destruct (Arr.splice1 _ _) as [[|removed item] rest]; reflexivity.
Qed.

Lemma lowdb_handle_run (d : disk) (text : string) (file : TaskDocument) :
  run (handleCommand d text) file = performed d file (outcome text).
Proof. unfold run at 1. rewrite lowdb_handle_outcome. apply lowdb_perform_run. Qed.

(** A command that reads db.json and writes it back. *)
Lemma lowdb_performed_write (d : disk) (file data' : TaskDocument) (msg : string)
    (k : TaskDocument -> option TaskDocument * string) :
  read_ok d = true -> k file = (Some data', msg) ->
  performed d file (Access k)
  = if write_ok d
    then ({| persisted := data'; trace := [Fetch; Store data'; Send msg] |}, replied d)
    else ({| persisted := file; trace := [Fetch; Store data'] |}, Thrown).
Proof. intros Hr Hk. unfold performed. by rewrite Hr, Hk. Qed.

Lemma lowdb_performed_read (d : disk) (file : TaskDocument) (msg : string)
    (k : TaskDocument -> option TaskDocument * string) :
  read_ok d = true -> k file = (None, msg) ->
  performed d file (Access k)
  = ({| persisted := file; trace := [Fetch; Send msg] |}, replied d).
Proof. intros Hr Hk. unfold performed. by rewrite Hr, Hk. Qed.

Lemma lowdb_handle_not_text (d : disk) (text : Json.value) (w : world) :
  Json.as_text text = None -> handleCommand d text w = (w, Thrown).
Proof. by destruct text as [|[]]. Qed.

(** As for the JSONBin router: a trace found is kept in front. *)
Lemma lowdb_handle_any (d : disk) (text : Json.value) (w : world) :
  let r := run (handleCommand d text) (persisted w) in
  handleCommand d text w
  = ({| persisted := persisted r.1; trace := trace w ++ trace r.1 |}, r.2).
Proof.
  intros r. subst r. destruct (CloudFacts.as_text_cases text) as [[s ->]|Htext]; cycle 1.
  { unfold run. rewrite !lowdb_handle_not_text by done. cbn. rewrite app_nil_r. by destruct w. }
  rewrite lowdb_handle_run, lowdb_handle_outcome.
  unfold perform, performed, replied.
  unfold db_read, db_write, sendTelegram.
  unfold emit, read_persisted, write_persisted, throw, ret, bind.
  destruct (outcome s) as [msg|k]; cbn [persisted trace].
  { by destruct (reply_ok d). }
  destruct (read_ok d); [|done]. cbn [persisted trace].
  destruct (k (persisted w)) as [[data'|] msg]; cbn [persisted trace fst snd].
  - destruct (write_ok d); cbn [persisted trace fst snd]; [|by rewrite <- !app_assoc].
    destruct (reply_ok d); cbn [persisted trace fst snd]; by rewrite <- !app_assoc.
  - destruct (reply_ok d); cbn [persisted trace fst snd]; by rewrite <- !app_assoc.
Qed.

End LowdbFacts.

(** ** The webhooks around the routers *)

Module WebhookFacts.
Import Json CloudFacts LowdbFacts.

(** An update with a text: the reads of the handler find the message and
    the text that the guard saw. *)
Lemma update_text (u : update) :
  truthy_value (message_text u) = true ->
  exists m, get "message" u = Some m /\ get_opt "message" u = m
            /\ get "text" m = Some (message_text u)
            /\ truthy_value u = true /\ truthy_value m = true.
Proof.
  unfold message_text, get_opt.
  destruct u as [|[| | | | |fields]]; try done. cbn [get prop].
  destruct (assoc "message" fields) as [[| | | | |fields']|]; try done. cbn [get prop].
  intros H. exists (Of (JObject fields')). repeat split.
  cbn [get prop]. by destruct (assoc "text" fields').
Qed.

(** The monad laws the proofs below use. *)
Lemma bind_ret {A B} (a : A) (k : A -> io B) : bind (ret a) k = k a.
Proof. reflexivity. Qed.
Lemma bind_throw {A B} (k : A -> io B) : bind throw k = throw.
Proof. reflexivity. Qed.
Lemma cloud_webhook_run (cfg : config) (n : Cloud.net) (u : update) (remote : TaskDocument) :
  run (Cloud.webhook cfg n u) remote
  = if truthy_value (message_text u) then
      match from_id u with
      | Some fromId =>
          let r := run (Cloud.handleCommand cfg n (message_text u) fromId) remote in
          ({| persisted := persisted r.1;
              trace := Log "Incoming update:" :: trace r.1 ++
                       match r.2 with
                       | Done _ => [Respond 200 "ok"]
                       | Thrown => [Log "Webhook error:"; Respond 500 "error"]
                       end |}, Done tt)
      | None =>
          ({| persisted := remote;
              trace := [Log "Incoming update:"; Log "Webhook error:"; Respond 500 "error"] |},
           Done tt)
      end
    else ({| persisted := remote; trace := [Log "Incoming update:"; Respond 200 "ok"] |},
          Done tt).
Proof.
  unfold run at 1. unfold Cloud.webhook, try_catch.
  unfold bind at 1. unfold emit at 1. cbn [persisted trace app].
  fold (message_text u).
  destruct (truthy_value (message_text u)) eqn:Htext; [|done].
  destruct (update_text u Htext) as (m & Hm & Hm' & Ht & _).
  unfold from_id. rewrite Hm', Hm. cbn [reading]. rewrite bind_ret, Ht. cbn [reading].
  rewrite bind_ret.
  destruct (get "from" m) as [from|]; cbn [reading]; [|done].
  rewrite bind_ret.
  destruct (get "id" from) as [fromId|]; cbn [reading]; [|done].
  rewrite bind_ret.
  unfold bind at 1. rewrite cloud_handle_any. cbn [persisted trace fst snd app].
  destruct (run (Cloud.handleCommand cfg n (message_text u) fromId) remote) as [w' [[]|]];
    cbn [fst snd]; unfold emit; cbn [persisted trace]; [done|].
  unfold bind. cbn [persisted trace]. by rewrite <- app_assoc.
Qed.

Lemma lowdb_webhook_run (cfg : config) (d : Lowdb.disk) (u : update) (file : TaskDocument) :
  run (Lowdb.webhook cfg d u) file
  = if truthy_value (message_text u) then
      match from_id u with
      | Some fromId =>
          if unauthorized cfg fromId
          then ({| persisted := file; trace := [Respond 200 "ignored"] |}, Done tt)
          else
            let r := run (Lowdb.handleCommand d (message_text u)) file in
            ({| persisted := persisted r.1;
                trace := trace r.1 ++ match r.2 with
                                      | Done _ => [Respond 200 "ok"]
                                      | Thrown => [Log "webhook error"; Respond 500 "error"]
                                      end |}, Done tt)
      | None =>
          ({| persisted := file; trace := [Log "webhook error"; Respond 500 "error"] |},
           Done tt)
      end
    else ({| persisted := file; trace := [Respond 200 "ok"] |}, Done tt).
Proof.
  unfold run at 1. unfold Lowdb.webhook, try_catch.
  destruct (truthy_value (message_text u)) eqn:Htext.
  - destruct (update_text u Htext) as (m & Hm & Hm' & Ht & Hu & Htm).
    unfold from_id. rewrite Hm', Hu, Hm. cbn [reading]. rewrite bind_ret, Htm, Ht.
    cbn [reading]. rewrite !bind_ret, Htext, Ht. cbn [reading]. rewrite bind_ret.
    destruct (get "from" m) as [from|]; cbn [reading]; [|done].
    rewrite bind_ret.
    destruct (get "id" from) as [fromId|]; cbn [reading]; [|done].
    rewrite bind_ret.
    destruct (unauthorized cfg fromId); [done|].
    unfold bind. rewrite lowdb_handle_any. cbn [persisted trace fst snd app].
    destruct (run (Lowdb.handleCommand d (message_text u)) file) as [w' [[]|]];
      cbn [fst snd]; [done|].
    unfold emit. cbn [persisted trace]. by rewrite <- app_assoc.
  - revert Htext. unfold message_text, get_opt.
    destruct u as [|j]; [done|].
    destruct (truthy_value (Of j)) eqn:Hu; [|by rewrite bind_ret, Hu].
    destruct (get "message" (Of j)) as [m|] eqn:Hm; cbn [reading].
    + rewrite bind_ret. destruct (truthy_value m) eqn:Htm.
      * destruct (get "text" m) as [t|] eqn:Ht; cbn [reading].
        -- intros Htf. by rewrite bind_ret, Htf.
        -- destruct m as [|[]]; cbn in Ht; try done.
           destruct (assoc "text" fields); done.
      * intros _. by rewrite bind_ret, Htm.
    + destruct j; cbn in Hm; try done. destruct (assoc "message" fields); done.
Qed.

Lemma from_id_cases (u : update) :
  from_id u = None \/ exists fromId, from_id u = Some fromId.
Proof. destruct (from_id u); eauto. Qed.

End WebhookFacts.

(** ** Arrays at the positions users name *)

Module ArrFacts.
Import Num NumFacts Arr.

Section Position.
(** A 1-based position [i] within an array of fewer than 2^32 items. *)
Variables (l : list string) (i : nat).
Hypothesis Hi : (1 <= i)%nat.
Hypothesis Hlen : Z.of_nat (length l) < 2 ^ 32.

Lemma index_pred : (i <= length l)%nat -> index (sub (of_nat i) one) = Some (i - 1)%nat.
Proof.
  intros Hle. unfold of_nat, index. rewrite sub_of_Z_one by lia.
  rewrite as_integer_of_Z by lia.
  replace ((0 <=? Z.of_nat i - 1) && (Z.of_nat i - 1 <? 2 ^ 32 - 1)) with true
    by (symmetry; apply andb_true_iff; split; [apply Z.leb_le|apply Z.ltb_lt]; lia).
  f_equal. lia.
Qed.

Lemma get_pred : (i <= length l)%nat -> get l (sub (of_nat i) one) = l !! (i - 1)%nat.
Proof. intros Hle. unfold get. by rewrite index_pred. Qed.

Lemma set_pred (v : string) :
  (i <= length l)%nat -> set l (sub (of_nat i) one) v = <[(i - 1)%nat := v]> l.
Proof. intros Hle. unfold set. by rewrite index_pred. Qed.

Lemma splice1_pred (x : string) :
  l !! (i - 1)%nat = Some x ->
  splice1 l (sub (of_nat i) one) = ([x], delete (i - 1)%nat l).
Proof.
  intros Hx. pose proof (lookup_lt_Some _ _ _ Hx) as Hlt.
  unfold splice1, of_nat. rewrite sub_of_Z_one by lia.
  rewrite ToIntegerOrInfinity_of_Z by lia.
  replace (Z.of_nat i - 1 <? 0) with false by (symmetry; apply Z.ltb_ge; lia).
  replace (Z.min (Z.of_nat i - 1) (Z.of_nat (length l))) with (Z.of_nat (i - 1)) by lia.
  replace (Z.min (Z.max 1 0) (Z.of_nat (length l) - Z.of_nat (i - 1))) with 1 by lia.
  rewrite Nat2Z.id. change (Z.to_nat 1) with 1%nat.
  rewrite (drop_S _ _ _ Hx). rewrite delete_take_drop.
  by replace (i - 1 + 1)%nat with (S (i - 1)) by lia.
Qed.

(** Past the end of the array nothing is found and nothing removed. *)
Lemma get_beyond :
  (length l < i)%nat -> Z.of_nat i < 2 ^ 53 -> get l (sub (of_nat i) one) = None.
Proof.
  intros Hlt Hb. unfold get, index, of_nat. rewrite sub_of_Z_one by lia.
  rewrite as_integer_of_Z by lia.
  destruct ((0 <=? Z.of_nat i - 1) && (Z.of_nat i - 1 <? 2 ^ 32 - 1)); [|done].
  apply lookup_ge_None. lia.
Qed.

Lemma splice1_beyond :
  (length l < i)%nat -> Z.of_nat i < 2 ^ 53 -> splice1 l (sub (of_nat i) one) = ([], l).
Proof.
  intros Hlt Hb. unfold splice1, of_nat. rewrite sub_of_Z_one by lia.
  rewrite ToIntegerOrInfinity_of_Z by lia.
  replace (Z.of_nat i - 1 <? 0) with false by (symmetry; apply Z.ltb_ge; lia).
  replace (Z.min (Z.of_nat i - 1) (Z.of_nat (length l))) with (Z.of_nat (length l)) by lia.
  replace (Z.min (Z.max 1 0) (Z.of_nat (length l) - Z.of_nat (length l))) with 0 by lia.
  rewrite Nat2Z.id. change (Z.to_nat 0) with 0%nat.
  rewrite take_0, Nat.add_0_r, take_ge, drop_ge by lia. by rewrite app_nil_r.
Qed.

End Position.

Lemma replaced_at_insert (l : list string) (i : nat) (t : string) :
  (1 <= i <= length l)%nat -> replaced_at i t l (<[(i - 1)%nat := t]> l).
Proof.
  intros Hi. unfold replaced_at. rewrite length_insert. split; [done|]. split.
  - apply list_lookup_insert_eq. lia.
  - intros j Hj. by apply list_lookup_insert_ne.
Qed.

Lemma removed_at_delete (l : list string) (i : nat) (x : string) :
  l !! (i - 1)%nat = Some x -> removed_at i x l (delete (i - 1)%nat l).
Proof.
  intros Hx. pose proof (lookup_lt_Some _ _ _ Hx) as Hlt.
  unfold removed_at. split; [done|]. split; [|split].
  - rewrite length_delete by eauto. lia.
  - intros j Hj. by apply list_lookup_delete_lt.
  - intros j Hj. by apply list_lookup_delete_ge.
Qed.

(** Nothing that [splice1] keeps is new. *)
Lemma splice1_Forall (P : string -> Prop) (l : list string) (start : num) :
  Forall P l -> Forall P (splice1 l start).2.
Proof.
  intros H. unfold splice1. cbn [snd].
  apply Forall_app. split; [by apply Forall_take | by apply Forall_drop].
Qed.

Lemma set_Forall (P : string -> Prop) (l : list string) (x : num) (v : string) :
  Forall P l -> P v -> Forall P (set l x v).
Proof.
  intros Hl Hv. unfold set. destruct (index x); [|done]. by apply Forall_insert.
Qed.

End ArrFacts.

(** ** What the router decides on well-formed lines *)

Module OutcomeFacts.
Import Str StrFacts Num NumFacts ArrFacts CloudFacts.

Lemma eqb_nonempty (s : string) : s <> EmptyString -> String.eqb s EmptyString = false.
Proof. intros H. by apply String.eqb_neq. Qed.

Section Line.
Variables (text : string) (list : list_name) (db : TaskDocument).
Hypothesis Hlist : list_arg text = Some list.

Lemma cloud_view :
  command text = "/view" ->
  Cloud.outcome (tokens text) db = (None, Cloud.view_text list db).
Proof.
  intros Hcmd. unfold Cloud.outcome, command, list_arg in *.
  rewrite Hcmd, Hlist. by eqb_literals.
Qed.

Lemma lowdb_view :
  command text = "/view" ->
  Lowdb.outcome text = Lowdb.Access (fun data => (None, Lowdb.view_text list data)).
Proof.
  intros Hcmd. unfold Lowdb.outcome, command, list_arg, tokens in *.
  rewrite Hcmd, Hlist. by eqb_literals.
Qed.

Lemma cloud_add :
  command text = "/add" -> task_arg text <> EmptyString ->
  Cloud.outcome (tokens text) db
  = (Some (set_list list (get_list list db ++ [task_arg text]) db),
     Cloud.added_text list (task_arg text)).
Proof.
  intros Hcmd Htask. unfold Cloud.outcome, command, list_arg, task_arg in *.
  rewrite Hcmd, Hlist. eqb_literals. by rewrite eqb_nonempty.
Qed.

Lemma lowdb_add :
  command text = "/add" -> task_arg text <> EmptyString ->
  Lowdb.outcome text
  = Lowdb.Access (fun data =>
      (Some (set_list list (get_list list data ++ [task_arg text]) data),
       Lowdb.added_text list (task_arg text))).
Proof.
  intros Hcmd Htask. unfold Lowdb.outcome, command, list_arg, task_arg, tokens in *.
  rewrite Hcmd, Hlist. eqb_literals. by rewrite eqb_nonempty.
Qed.

Section Position.
Variables (i : nat) (x : string).
Hypothesis Hidx : index_arg text = of_nat i.
Hypothesis Hi : (1 <= i)%nat.
Hypothesis Hlen : Z.of_nat (length (get_list list db)) < 2 ^ 32.
Hypothesis Hx : get_list list db !! (i - 1)%nat = Some x.

Lemma position_in_range : (i <= length (get_list list db))%nat.
Proof using Hi Hx. pose proof (lookup_lt_Some _ _ _ Hx). lia. Qed.

Lemma integer_index :
  falsy (of_nat i) = false /\ isInteger (of_nat i) = true /\ ltb (of_nat i) one = false.
Proof using Hi Hlen Hx.
  pose proof position_in_range. unfold of_nat.
  rewrite falsy_of_Z, isInteger_of_Z, ltb_of_Z_one by lia. done.
Qed.

Lemma cloud_edit :
  command text = "/edit" -> text_arg text <> EmptyString -> x <> EmptyString ->
  Cloud.outcome (tokens text) db
  = (Some (set_list list (<[(i - 1)%nat := text_arg text]> (get_list list db)) db),
     Cloud.edited_text list (of_nat i) x (text_arg text)).
Proof using All.
  intros Hcmd Htext Hne. pose proof position_in_range as Hr.
  destruct integer_index as (Hf & _ & _).
  unfold Cloud.outcome, command, list_arg, text_arg, index_arg in *.
  rewrite Hcmd, Hlist, Hidx. eqb_literals.
  rewrite Hf, eqb_nonempty by done. cbn [orb].
  rewrite get_pred, Hx, eqb_nonempty, set_pred by done. done.
Qed.

Lemma lowdb_edit :
  command text = "/edit" -> text_arg text <> EmptyString -> x <> EmptyString ->
  exists k, Lowdb.outcome text = Lowdb.Access k
    /\ k db = (Some (set_list list (<[(i - 1)%nat := text_arg text]> (get_list list db)) db),
               Lowdb.edited_text list (of_nat i) x (text_arg text)).
Proof using All.
  intros Hcmd Htext Hne. pose proof position_in_range as Hr.
  destruct integer_index as (_ & Hint & Hlt).
  unfold Lowdb.outcome, command, list_arg, text_arg, index_arg, tokens in *.
  rewrite Hcmd, Hlist, Hidx. eqb_literals.
  rewrite Hint, Hlt, eqb_nonempty by done. cbn [negb orb].
  eexists. split; [reflexivity|]. cbn beta.
  rewrite get_pred, Hx, eqb_nonempty, set_pred by done. done.
Qed.

(** An entry that is the empty string is taken for a missing one. *)
Lemma cloud_edit_empty :
  command text = "/edit" -> text_arg text <> EmptyString -> x = EmptyString ->
  Cloud.outcome (tokens text) db = (None, Cloud.out_of_range).
Proof using All.
  intros Hcmd Htext Hempty. pose proof position_in_range as Hr.
  destruct integer_index as (Hf & _ & _).
  unfold Cloud.outcome, command, list_arg, text_arg, index_arg in *.
  rewrite Hcmd, Hlist, Hidx. eqb_literals.
  rewrite Hf, eqb_nonempty by done. cbn [orb].
  by rewrite get_pred, Hx, Hempty by done.
Qed.

Lemma lowdb_edit_empty :
  command text = "/edit" -> text_arg text <> EmptyString -> x = EmptyString ->
  exists k, Lowdb.outcome text = Lowdb.Access k /\ k db = (None, Lowdb.out_of_range).
Proof using All.
  intros Hcmd Htext Hempty. pose proof position_in_range as Hr.
  destruct integer_index as (_ & Hint & Hlt).
  unfold Lowdb.outcome, command, list_arg, text_arg, index_arg, tokens in *.
  rewrite Hcmd, Hlist, Hidx. eqb_literals.
  rewrite Hint, Hlt, eqb_nonempty by done. cbn [negb orb].
  eexists. split; [reflexivity|]. cbn beta.
  by rewrite get_pred, Hx, Hempty by done.
Qed.

Lemma cloud_remove :
  command text = "/remove" ->
  Cloud.outcome (tokens text) db
  = (Some (set_list list (delete (i - 1)%nat (get_list list db)) db),
     Cloud.removed_text list x).
Proof using All.
  intros Hcmd. destruct integer_index as (Hf & _ & _).
  unfold Cloud.outcome, command, list_arg, index_arg in *.
  rewrite Hcmd, Hlist, Hidx. eqb_literals.
  rewrite Hf. by rewrite (splice1_pred _ _ Hi Hlen x Hx).
Qed.

Lemma lowdb_remove :
  command text = "/remove" ->
  exists k, Lowdb.outcome text = Lowdb.Access k
    /\ k db = (Some (set_list list (delete (i - 1)%nat (get_list list db)) db),
               Lowdb.removed_text list x).
Proof using All.
  intros Hcmd. destruct integer_index as (_ & Hint & Hlt).
  unfold Lowdb.outcome, command, list_arg, index_arg, tokens in *.
  rewrite Hcmd, Hlist, Hidx. eqb_literals.
  rewrite Hint, Hlt. cbn [negb orb].
  eexists. split; [reflexivity|]. cbn beta.
  by rewrite (splice1_pred _ _ Hi Hlen x Hx).
Qed.

End Position.
End Line.

Lemma get_set_list (name : list_name) (l : list string) (db : TaskDocument) :
  get_list name (set_list name l db) = l.
Proof. by destruct name. Qed.

Lemma get_set_other (name : list_name) (l : list string) (db : TaskDocument) :
  get_list (other name) (set_list name l db) = get_list (other name) db.
Proof. by destruct name. Qed.

End OutcomeFacts.

Import Str Num.
Import StrFacts NumFacts EffectFacts RenderFacts CloudFacts LowdbFacts WebhookFacts ArrFacts
  OutcomeFacts.

(** ** Decimal numerals as index tokens *)

Module NumeralFacts.
Import Str Num StrFacts.

Lemma uint_value_of_uint_acc (d : Decimal.uint) (acc : nat) :
  Z.of_nat (Nat.of_uint_acc d acc) = uint_value (Z.of_nat acc) d.
Proof.
  revert acc. induction d as [|d IH|d IH|d IH|d IH|d IH|d IH|d IH|d IH|d IH|d IH];
    intros acc; cbn [Nat.of_uint_acc uint_value]; [done|..];
    rewrite IH; f_equal; rewrite Nat.tail_mul_spec; lia.
Qed.

Lemma uint_value_to_uint (i : nat) : uint_value 0 (Nat.to_uint i) = Z.of_nat i.
Proof.
  change 0 with (Z.of_nat 0). rewrite <- uint_value_of_uint_acc.
  change (Nat.of_uint_acc (Nat.to_uint i) 0) with (Nat.of_uint (Nat.to_uint i)).
  by rewrite Unsigned.of_to.
Qed.

Lemma digits_string_of_uint (d : Decimal.uint) (acc count : Z) :
  digits 10 acc count (NilEmpty.string_of_uint d)
  = (uint_value acc d, count + Z.of_nat (Decimal.nb_digits d), EmptyString).
Proof.
  revert acc count.
  induction d as [|d IH|d IH|d IH|d IH|d IH|d IH|d IH|d IH|d IH|d IH]; intros acc count;
    cbn [NilEmpty.string_of_uint digits uint_value Decimal.nb_digits];
    [by rewrite Z.add_0_r|..];
    (match goal with |- context [digit 10 ?a] =>
       let v := eval vm_compute in (digit 10 a) in change (digit 10 a) with v end;
     cbv beta iota; rewrite IH; do 2 f_equal; lia).
Qed.

Lemma all_dec_string_of_uint (d : Decimal.uint) : all_dec (NilEmpty.string_of_uint d) = true.
Proof. induction d; cbn [NilEmpty.string_of_uint all_dec]; by rewrite ?IHd. Qed.

Lemma all_dec_dec (i : nat) : all_dec (dec i) = true /\ dec i <> EmptyString.
Proof.
  unfold dec, NilZero.string_of_uint.
  destruct (Nat.to_uint i) eqn:E; try done;
    (split; [rewrite <- E at 1 | done]); try done.
  all: rewrite <- (all_dec_string_of_uint (Nat.to_uint i)), E; done.
Qed.

Lemma is_dec_solid (a : ascii) : is_dec a = true -> solid a = true.
Proof.
  unfold is_dec, solid. intros [H1 H2]%andb_true_iff.
  apply Nat.leb_le in H1, H2. apply andb_true_iff. split; [apply Nat.leb_le|apply Nat.ltb_lt]; lia.
Qed.

Lemma ws1_range (a : ascii) : ws1 a = true -> (nat_of_ascii a <= 32)%nat.
Proof.
  unfold ws1. intros [[_ H]%andb_true_iff|H]%orb_true_iff.
  - apply Nat.leb_le in H. lia.
  - apply Nat.eqb_eq in H. lia.
Qed.

Lemma ws2_range (a b : ascii) :
  ws2 a b = true -> (nat_of_ascii a = 194 /\ nat_of_ascii b = 160)%nat.
Proof. unfold ws2. intros [H1 H2]%andb_true_iff. by apply Nat.eqb_eq in H1, H2. Qed.

Lemma ws3_range (a b c : ascii) :
  ws3 a b c = true -> (225 <= nat_of_ascii a /\ 128 <= nat_of_ascii c)%nat.
Proof.
  unfold ws3. cbv zeta. intros H.
  repeat first [rewrite orb_true_iff in H | rewrite andb_true_iff in H
               | rewrite Nat.eqb_eq in H | rewrite Nat.leb_le in H].
  lia.
Qed.

Section Solid.
Variable a : ascii.
Hypothesis Ha : solid a = true.

Lemma solid_range : (33 <= nat_of_ascii a < 128)%nat.
Proof using Ha.
  unfold solid in Ha. apply andb_true_iff in Ha as [H1 H2].
  apply Nat.leb_le in H1. apply Nat.ltb_lt in H2. lia.
Qed.

Lemma solid_ws1 : ws1 a = false.
Proof using Ha.
  pose proof solid_range. destruct (ws1 a) eqn:E; [|done]. apply ws1_range in E. lia.
Qed.

Lemma solid_ws2_l (b : ascii) : ws2 a b = false.
Proof using Ha.
  pose proof solid_range. destruct (ws2 a b) eqn:E; [|done]. apply ws2_range in E. lia.
Qed.

Lemma solid_ws2_r (b : ascii) : ws2 b a = false.
Proof using Ha.
  pose proof solid_range. destruct (ws2 b a) eqn:E; [|done]. apply ws2_range in E. lia.
Qed.

Lemma solid_ws3_l (b c : ascii) : ws3 a b c = false.
Proof using Ha.
  pose proof solid_range. destruct (ws3 a b c) eqn:E; [|done]. apply ws3_range in E. lia.
Qed.

Lemma solid_ws3_r (b c : ascii) : ws3 b c a = false.
Proof using Ha.
  pose proof solid_range. destruct (ws3 b c a) eqn:E; [|done]. apply ws3_range in E. lia.
Qed.

(** A line that starts with a solid character has nothing to trim at
    its start, and one that ends with a solid character nothing at its
    end. *)
Lemma trimStart_solid (r : string) : trimStart (String a r) = String a r.
Proof using Ha.
  rewrite trimStart_strip1. unfold strip1. rewrite solid_ws1.
  destruct r as [|b [|c r]]; [done|by rewrite solid_ws2_l|by rewrite solid_ws2_l, solid_ws3_l].
Qed.

Lemma strip1_snoc_solid (q r : string) :
  strip1 (q +:+ String a EmptyString) = Some r ->
  exists q', r = q' +:+ String a EmptyString /\ (String.length q' < String.length q)%nat.
Proof using Ha.
  destruct q as [|x [|y [|z q]]]; rewrite ?append_cons, ?append_nil_l; unfold strip1.
  - by rewrite solid_ws1.
  - destruct (ws1 x).
    + intros [= <-]. exists EmptyString. split; [done|]. simpl. lia.
    + by rewrite solid_ws2_r.
  - destruct (ws1 x).
    + intros [= <-]. exists (String y EmptyString). split; [done|]. simpl. lia.
    + destruct (ws2 x y).
      * intros [= <-]. exists EmptyString. split; [done|]. simpl. lia.
      * by rewrite solid_ws3_r.
  - destruct (ws1 x).
    + intros [= <-]. exists (String y (String z q)). split; [done|]. simpl. lia.
    + destruct (ws2 x y).
      * intros [= <-]. exists (String z q). split; [done|]. simpl. lia.
      * destruct (ws3 x y z); [|done].
        intros [= <-]. exists q. split; [done|]. simpl. lia.
Qed.

Lemma blank_snoc_solid (q : string) : blank (q +:+ String a EmptyString) = false.
Proof using Ha.
  induction q as [q IH] using length_ind. unfold blank. rewrite trimStart_strip1.
  destruct (strip1 (q +:+ String a EmptyString)) as [r|] eqn:E.
  - apply strip1_snoc_solid in E as (q' & -> & Hlt). by apply IH.
  - by destruct q.
Qed.

Lemma trimEnd_snoc_solid (q : string) :
  trimEnd (q +:+ String a EmptyString) = q +:+ String a EmptyString.
Proof using Ha.
  induction q as [|x q IH].
  - rewrite append_nil_l. cbn [trimEnd].
    pose proof (blank_snoc_solid EmptyString) as H. rewrite append_nil_l in H. by rewrite H.
  - rewrite append_cons. cbn [trimEnd].
    pose proof (blank_snoc_solid (String x q)) as H. rewrite append_cons in H.
    by rewrite H, IH.
Qed.

End Solid.

Lemma trim_solid (a z : ascii) (q : string) :
  solid a = true -> solid z = true ->
  trim (String a q +:+ String z EmptyString) = String a q +:+ String z EmptyString.
Proof.
  intros Ha Hz. unfold trim. rewrite append_cons, (trimStart_solid a Ha), <- append_cons.
  by apply trimEnd_snoc_solid.
Qed.

(** A numeral ends with a digit. *)
Lemma all_dec_last (s : string) :
  all_dec s = true -> s <> EmptyString ->
  exists q z, s = q +:+ String z EmptyString /\ is_dec z = true.
Proof.
  induction s as [|a s IH]; [done|]. cbn [all_dec]. intros [Ha Hs]%andb_true_iff _.
  destruct s as [|b s].
  - by exists EmptyString, a.
  - destruct (IH Hs) as (q & z & Hq & Hz); [done|].
    exists (String a q), z. by rewrite append_cons, <- Hq.
Qed.

Lemma all_dec_no_space (s : string) : all_dec s = true -> no_space s = true.
Proof.
  induction s as [|a s IH]; [done|]. cbn [all_dec no_space]. intros [Ha Hs]%andb_true_iff.
  rewrite IH by done.
  destruct (Ascii.eqb_spec a " ") as [->|]; [discriminate|done].
Qed.

(** *** Joining and splitting *)

Lemma split_space_no_space (t : string) : no_space t = true -> split_space t = [t].
Proof.
  induction t as [|a t IH]; [done|]. cbn [no_space split_space].
  intros [Ha Ht]%andb_true_iff. apply negb_true_iff in Ha. by rewrite Ha, IH.
Qed.

Lemma split_space_app (t s : string) :
  no_space t = true -> split_space (t +:+ " " +:+ s) = t :: split_space s.
Proof.
  induction t as [|a t IH]; [done|]. rewrite append_cons. cbn [no_space split_space].
  intros [Ha Ht]%andb_true_iff. apply negb_true_iff in Ha. by rewrite Ha, IH.
Qed.

Lemma split_space_join (ts : list string) :
  ts <> [] -> Forall (fun t => no_space t = true) ts -> split_space (join " " ts) = ts.
Proof.
  induction ts as [|t ts IH]; [done|]. intros _ Hts. inversion_clear Hts as [|?? Ht Hts'].
  destruct ts as [|t' ts]; [by apply split_space_no_space|].
  rewrite join_cons by done. rewrite split_space_app by done. by rewrite IH.
Qed.

Lemma digits_dec (i : nat) :
  exists n, 0 < n /\ digits 10 0 0 (dec i) = (Z.of_nat i, n, EmptyString).
Proof.
  unfold dec, NilZero.string_of_uint. pose proof (uint_value_to_uint i) as Hv.
  destruct (Nat.to_uint i) as [|d|d|d|d|d|d|d|d|d|d] eqn:E;
    [exists 1; split; [lia|]; cbn in Hv; by rewrite <- Hv | ..];
    rewrite digits_string_of_uint, Hv; eexists; (split; [|reflexivity]);
    cbn [Decimal.nb_digits]; lia.
Qed.

(** What the parser makes of a digit at the head of a literal. *)
Lemma head_digit (a : ascii) (r : string) :
  is_dec a = true -> all_dec r = true ->
  non_decimal (String a r) = None
  /\ sign (String a r) = (false, String a r)
  /\ String.eqb (String a r) "Infinity" = false.
Proof.
  intros Ha Hr.
  assert (non_decimal (String a r) = None) as Hnd.
  { destruct r as [|p r]; [by destruct a as [[] [] [] [] [] [] [] []]|].
    cbn [all_dec] in Hr. apply andb_true_iff in Hr as [Hp _].
    assert (Ascii.eqb p "x" || Ascii.eqb p "X" = false
            /\ Ascii.eqb p "o" || Ascii.eqb p "O" = false
            /\ Ascii.eqb p "b" || Ascii.eqb p "B" = false) as (Hx & Ho & Hb)
      by (by destruct p as [[] [] [] [] [] [] [] []]).
    destruct a as [[] [] [] [] [] [] [] []]; try reflexivity.
    unfold non_decimal. by rewrite Hx, Ho, Hb. }
  split; [done|]. by destruct a as [[] [] [] [] [] [] [] []].
Qed.

(** The decimal numeral of [i] is read back as the number [i]. *)
Lemma StringToNumber_dec (i : nat) : StringToNumber (dec i) = of_nat i.
Proof.
  destruct (all_dec_dec i) as [Hall Hne].
  destruct (all_dec_last _ Hall Hne) as (q & z & Hq & Hz).
  destruct (digits_dec i) as (n & Hn & Hd).
  assert (exists a r, dec i = String a r /\ is_dec a = true /\ all_dec r = true)
    as (a & r & Hs & Ha & Hr).
  { destruct (dec i) as [|a r]; [done|]. cbn [all_dec] in Hall.
    apply andb_true_iff in Hall as [? ?]. by exists a, r. }
  assert (trim (dec i) = dec i) as Htrim.
  { destruct q as [|x q].
    - rewrite Hq, append_nil_l. unfold trim.
      rewrite (trimStart_solid z (is_dec_solid _ Hz)).
      pose proof (trimEnd_snoc_solid z (is_dec_solid _ Hz) EmptyString) as H.
      by rewrite append_nil_l in H.
    - rewrite Hq. apply trim_solid; [|by apply is_dec_solid].
      rewrite Hs in Hq. rewrite append_cons in Hq. simplify_eq. by apply is_dec_solid. }
  unfold StringToNumber. rewrite Htrim. rewrite Hs in *.
  destruct (head_digit a r Ha Hr) as (-> & -> & Hinf).
  unfold unsigned_decimal. rewrite Hinf, Hd. cbn [exponent].
  replace (n + 0 =? 0) with false by (symmetry; apply Z.eqb_neq; lia).
  unfold round_decimal, of_nat, of_Z.
  destruct (Z.eqb_spec (Z.of_nat i) 0) as [->|_]; [done|].
  change (0 <=? 0 - 0) with true. cbv iota. change (10 ^ (0 - 0)) with 1.
  by rewrite Z.mul_1_r.
Qed.

Lemma Number_dec (i : nat) : Number (Some (dec i)) = of_nat i.
Proof. apply StringToNumber_dec. Qed.

(** *** Lines made of tokens *)

(** A line made of tokens without spaces, with nothing to trim, is cut
    back into these tokens. *)
Lemma tokens_join (ts : list string) :
  ts <> [] -> Forall (fun t => no_space t = true) ts ->
  trim (join " " ts) = join " " ts -> tokens (join " " ts) = ts.
Proof. intros Hne Hts Htrim. unfold tokens. rewrite Htrim. by apply split_space_join. Qed.

(** A line made of a command word, a list name, the numeral of [i] and
    further tokens, with nothing to trim: the router reads the list, the
    index [i] and, as text, the further tokens joined again. *)
Lemma command_line (word : string) (name : list_name) (i : nat) (rest : list string) :
  no_space word = true -> Forall (fun t => no_space t = true) rest ->
  let text := join " " (word :: name_str name :: dec i :: rest) in
  trim text = text ->
  tokens text = word :: name_str name :: dec i :: rest
  /\ command text = toLowerCase word
  /\ list_arg text = Some name
  /\ index_arg text = of_nat i
  /\ text_arg text = trim (join " " rest).
Proof.
  intros Hw Hrest text Htrim.
  assert (tokens text = word :: name_str name :: dec i :: rest) as Ht.
  { apply tokens_join; [done| |done].
    repeat constructor; [done|by destruct name| |done].
    apply all_dec_no_space, all_dec_dec. }
  split; [done|]. unfold command, list_arg, index_arg, text_arg. rewrite Ht.
  cbn [hd lookup list_lookup drop].
  split; [done|]. split; [by destruct name|]. split; [apply Number_dec|done].
Qed.

(** The line of a command word, a list name and a numeral, as in
    "/remove weekday 2". *)
Lemma numeral_line (word : string) (name : list_name) (i : nat) :
  (exists a q, word = String a q /\ solid a = true) -> no_space word = true ->
  let text := word +:+ " " +:+ name_str name +:+ " " +:+ dec i in
  command text = toLowerCase word
  /\ list_arg text = Some name
  /\ index_arg text = of_nat i.
Proof.
  intros (a & q & -> & Ha) Hw text.
  destruct (all_dec_dec i) as [Hall Hne].
  destruct (all_dec_last _ Hall Hne) as (q' & z & Hq & Hz).
  destruct (command_line (String a q) name i [] Hw) as (_ & H1 & H2 & H3 & _); [done| |done].
  change (join " " [String a q; name_str name; dec i]) with text. unfold text.
  rewrite Hq, append_cons, <- !append_assoc, <- append_cons.
  rewrite !append_cons. rewrite <- append_cons.
  apply trim_solid; [done|by apply is_dec_solid].
Qed.

End NumeralFacts.

(** * The claims *)

Ltac evaluate := vm_compute; reflexivity.

(** ** Invalid indexes *)

(** X28. In the lowdb variant an index that is not an integer, or is
    below 1, is a usage error: nothing is read, nothing is written. *)
Lemma lowdb_invalid_index_is_usage (d : Lowdb.disk) (text : string) (list : list_name)
    (file : TaskDocument) :
  list_arg text = Some list ->
  isInteger (index_arg text) = false \/ ltb (index_arg text) one = true ->
  (command text = "/edit" ->
   run (Lowdb.handleCommand d text) file
   = ({| persisted := file;
         trace := [Send "Usage: /edit <weekday|weekend> <index> <new text>"] |},
      Lowdb.replied d))
  /\ (command text = "/remove" ->
      run (Lowdb.handleCommand d text) file
      = ({| persisted := file; trace := [Send "Usage: /remove <weekday|weekend> <index>"] |},
         Lowdb.replied d)).
Proof.
  intros Hlist Hbad.
  assert (negb (isInteger (index_arg text)) || ltb (index_arg text) one = true) as Hguard
    by (destruct Hbad as [-> | ->]; [done | apply orb_true_r]).
  split; intros Hcmd; rewrite lowdb_handle_run;
    unfold Lowdb.outcome, command, list_arg, index_arg, tokens in *;
    rewrite Hcmd, Hlist; eqb_literals; rewrite Hguard; done.
Qed.

(** X29. In the JSONBin variant the guard is [!idx]: zero and NaN are
    usage errors, and nothing is written. *)
Lemma cloud_falsy_index_is_usage (cfg : config) (n : Cloud.net) (text : string)
    (fromId : num) (list : list_name) (remote : TaskDocument) :
  unauthorized cfg fromId = false ->
  list_arg text = Some list -> falsy (index_arg text) = true ->
  (command text = "/edit" ->
   run (Cloud.handleCommand cfg n text fromId) remote
   = (Cloud.performed n remote (None, "Usage: /edit <weekday|weekend> <index> <new text>"),
      Done tt))
  /\ (command text = "/remove" ->
      run (Cloud.handleCommand cfg n text fromId) remote
      = (Cloud.performed n remote (None, "Usage: /remove <weekday|weekend> <index>"), Done tt)).
Proof.
  intros Hauth Hlist Hbad.
  split; intros Hcmd; rewrite cloud_handle_run by done;
    unfold Cloud.outcome, command, list_arg, index_arg in *;
    rewrite Hcmd, Hlist; eqb_literals; rewrite Hbad; done.
Qed.

(** An integer index past the end of the list is out of range in both
    variants, and the list stays as it is. *)
Lemma index_beyond_length_is_out_of_range (cfg : config) (n : Cloud.net) (d : Lowdb.disk)
    (text : string) (fromId : num) (list : list_name) (i : nat) (remote : TaskDocument) :
  unauthorized cfg fromId = false ->
  list_arg text = Some list -> index_arg text = of_nat i ->
  (length (get_list list remote) < i)%nat -> Z.of_nat i < 2 ^ 53 ->
  Cloud.fetch_ok n = true -> Lowdb.read_ok d = true -> Lowdb.write_ok d = true ->
  (command text = "/edit" -> text_arg text <> EmptyString ->
   (let w := (run (Cloud.handleCommand cfg n text fromId) remote).1 in
    persisted w = remote /\ sent w = ["❌ Index out of range."])
   /\ (let w := (run (Lowdb.handleCommand d text) remote).1 in
       persisted w = remote /\ sent w = ["Index out of range."]))
  /\ (command text = "/remove" ->
      (let w := (run (Cloud.handleCommand cfg n text fromId) remote).1 in
       persisted w = remote /\ sent w = ["❌ Index out of range."])
      /\ (let w := (run (Lowdb.handleCommand d text) remote).1 in
          persisted w = remote /\ sent w = ["Index out of range."])).
Proof.
  intros Hauth Hlist Hidx Hlt Hb Hfetch Hread Hwrite.
  assert (1 <= i)%nat as Hi by lia.
  assert (falsy (of_nat i) = false /\ isInteger (of_nat i) = true /\ ltb (of_nat i) one = false)
    as (Hf & Hint & Hone)
    by (unfold of_nat; rewrite falsy_of_Z, isInteger_of_Z, ltb_of_Z_one by lia; done).
  assert (set_list list (get_list list remote) remote = remote) as Hsame
    by (by destruct list, remote).
  split.
  - intros Hcmd Htext. split; intros w; subst w.
    + rewrite cloud_handle_run by done. unfold Cloud.loaded. rewrite Hfetch.
      unfold Cloud.outcome, command, list_arg, index_arg, text_arg in *.
      rewrite Hcmd, Hlist, Hidx. eqb_literals. rewrite Hf, eqb_nonempty by done. cbn [orb].
      rewrite get_beyond by done. cbn [fst]. by rewrite cloud_sent_reply.
    + rewrite lowdb_handle_run.
      unfold Lowdb.outcome, command, list_arg, index_arg, text_arg, tokens in *.
      rewrite Hcmd, Hlist, Hidx. eqb_literals.
      rewrite Hint, Hone, eqb_nonempty by done. cbn [negb orb].
      erewrite lowdb_performed_read; [done|done|]. cbn beta. by rewrite get_beyond.
  - intros Hcmd. split; intros w; subst w.
    + rewrite cloud_handle_run by done. unfold Cloud.loaded. rewrite Hfetch.
      unfold Cloud.outcome, command, list_arg, index_arg in *.
      rewrite Hcmd, Hlist, Hidx. eqb_literals. rewrite Hf.
      rewrite splice1_beyond, Hsame by done. cbn [fst].
      rewrite cloud_persisted_save, cloud_sent_save.
      unfold Cloud.saved. by destruct (Cloud.put n).
    + rewrite lowdb_handle_run.
      unfold Lowdb.outcome, command, list_arg, index_arg, tokens in *.
      rewrite Hcmd, Hlist, Hidx. eqb_literals. rewrite Hint, Hone. cbn [negb orb].
      erewrite lowdb_performed_write; [|done|]; cycle 1.
      { cbn beta. rewrite splice1_beyond, Hsame by done. reflexivity. }
      by rewrite Hwrite.
Qed.

(** C1 fails in the JSONBin variant (src/unnamed/part_000): its guard on
    the index is [!idx], which only catches 0 and NaN. A negative index is
    an integer below 1, and yet /remove hands it to [splice], which counts
    it from the end and removes an entry; an index that is not an integer
    is truncated by [splice], which removes an entry as well; and /edit
    answers such an index with the out-of-range message, not with the usage
    message. The lowdb variant rejects all of them
    ([lowdb_invalid_index_is_usage]). *)
Theorem C1_cloud_accepts_invalid_index :
  let remote := {| weekday := ["a"; "b"; "c"]; weekend := [] |} in
  let handle text := (run (Cloud.handleCommand cfg42 net_ok text sender42) remote).1 in
  (ltb (index_arg "/remove weekday -1") one = true
   /\ weekday (persisted (handle "/remove weekday -1")) = ["a"; "c"]
   /\ sent (handle "/remove weekday -1")
      = ["🗑️ Removed from *" +:+ name_str Weekday +:+ "*: " +:+ "b"])
  /\ (isInteger (index_arg "/remove weekday 1.5") = false
      /\ weekday (persisted (handle "/remove weekday 1.5")) = ["b"; "c"]
      /\ sent (handle "/remove weekday 1.5")
         = ["🗑️ Removed from *" +:+ name_str Weekday +:+ "*: " +:+ "a"])
  /\ (isInteger (index_arg "/edit weekday 1.5 x") = false
      /\ sent (handle "/edit weekday 1.5 x") = ["❌ Index out of range."])
  /\ (let handle' text := (run (Lowdb.handleCommand disk_ok text) remote).1 in
      persisted (handle' "/remove weekday -1") = remote
      /\ sent (handle' "/remove weekday -1") = ["Usage: /remove <weekday|weekend> <index>"]
      /\ sent (handle' "/remove weekday 1.5") = ["Usage: /remove <weekday|weekend> <index>"]
      /\ sent (handle' "/edit weekday 1.5 x")
         = ["Usage: /edit <weekday|weekend> <index> <new text>"]).
Proof. repeat split; evaluate. Qed.

(** ** Adding, editing, removing *)

(** C2. For a valid list and a task text that is not empty once trimmed,
    /add appends the text to the end of the named list; once the document
    is saved and read back, /view of the same list shows the text as the
    last numbered entry, after the lines of the entries that were there.
    In both variants. *)
Theorem C2_add_then_view
    (cfg : config) (fromId : num) (add view : string) (list : list_name)
    (n1 n2 : Cloud.net) (d1 d2 : Lowdb.disk) (remote : TaskDocument) :
  unauthorized cfg fromId = false ->
  command add = "/add" -> list_arg add = Some list -> task_arg add <> EmptyString ->
  command view = "/view" -> list_arg view = Some list ->
  Cloud.put n1 = Cloud.PutOk -> Cloud.fetch_ok n2 = true ->
  Lowdb.read_ok d1 = true -> Lowdb.write_ok d1 = true -> Lowdb.read_ok d2 = true ->
  let t := task_arg add in
  (let l := get_list list (Cloud.loaded n1 remote) in
   let w1 := (run (Cloud.handleCommand cfg n1 add fromId) remote).1 in
   let w2 := (run (Cloud.handleCommand cfg n2 view fromId) (persisted w1)).1 in
   get_list list (persisted w1) = l ++ [t]
   /\ sent w1 = ["✅ Added to *" +:+ name_str list +:+ "*: " +:+ t]
   /\ sent w2 = ["*" +:+ name_str list +:+ "*" +:+ nl +:+
                 lines_before l +:+ entry (S (length l)) t])
  /\
  (let l := get_list list remote in
   let w1 := (run (Lowdb.handleCommand d1 add) remote).1 in
   let w2 := (run (Lowdb.handleCommand d2 view) (persisted w1)).1 in
   get_list list (persisted w1) = l ++ [t]
   /\ sent w1 = ["Added to *" +:+ name_str list +:+ "*: " +:+ t]
   /\ sent w2 = ["*" +:+ name_str list +:+ "*" +:+ nl +:+
                 lines_before l +:+ entry (S (length l)) t]).
Proof.
  intros Hauth Hadd Hlist Htask Hview Hlist' Hput Hfetch Hr1 Hw1 Hr2 t. split.
  - intros l w1 w2. subst w1 w2.
    rewrite !cloud_handle_run by done. cbn [fst].
    rewrite (cloud_add add list _ Hlist Hadd Htask).
    rewrite cloud_persisted_save, cloud_sent_save.
    unfold Cloud.saved. rewrite Hput.
    rewrite (cloud_view view list _ Hlist' Hview), cloud_sent_reply.
    unfold Cloud.view_text, Cloud.loaded at 3. rewrite Hfetch.
    rewrite !get_set_list, formatList_snoc. done.
  - intros l w1 w2. subst w1 w2.
    rewrite !lowdb_handle_run.
    rewrite (lowdb_add add list Hlist Hadd Htask), (lowdb_view view list Hlist' Hview).
    rewrite (lowdb_performed_write d1 remote _ _ _ Hr1 eq_refl), Hw1. cbn [fst persisted].
    rewrite (lowdb_performed_read d2 _ _ _ Hr2 eq_refl). cbn [fst].
    unfold Lowdb.view_text, prettyList.
    rewrite !get_set_list, formatList_snoc. done.
Qed.

Lemma C2_add_then_view_witness :
  let add := "/add weekday  Buy   milk " in
  let view := "/VIEW weekday" in
  let remote := {| weekday := ["Call mum"]; weekend := [] |} in
  let t := task_arg add in
  (let l := get_list Weekday (Cloud.loaded net_ok remote) in
   let w1 := (run (Cloud.handleCommand cfg42 net_ok add sender42) remote).1 in
   let w2 := (run (Cloud.handleCommand cfg42 net_ok view sender42) (persisted w1)).1 in
   get_list Weekday (persisted w1) = l ++ [t]
   /\ sent w1 = ["✅ Added to *" +:+ name_str Weekday +:+ "*: " +:+ t]
   /\ sent w2 = ["*" +:+ name_str Weekday +:+ "*" +:+ nl +:+
                 lines_before l +:+ entry (S (length l)) t])
  /\
  (let l := get_list Weekday remote in
   let w1 := (run (Lowdb.handleCommand disk_ok add) remote).1 in
   let w2 := (run (Lowdb.handleCommand disk_ok view) (persisted w1)).1 in
   get_list Weekday (persisted w1) = l ++ [t]
   /\ sent w1 = ["Added to *" +:+ name_str Weekday +:+ "*: " +:+ t]
   /\ sent w2 = ["*" +:+ name_str Weekday +:+ "*" +:+ nl +:+
                 lines_before l +:+ entry (S (length l)) t]).
Proof.
  apply (C2_add_then_view cfg42 sender42 "/add weekday  Buy   milk " "/VIEW weekday" Weekday
           net_ok net_ok disk_ok disk_ok {| weekday := ["Call mum"]; weekend := [] |});
    solve [evaluate | discriminate].
Defined.



(** Everywhere else /edit does what C3 says. For a list whose 1-based
    position [i] holds a text that is not empty, and a new text that is not
    empty once trimmed, /edit hands to the storage a document in which
    exactly position [i] of that list became the new text: the other
    positions and the length are as before, and so is the other list. In
    both variants. *)
Lemma edit_replaces_nonempty_entry
    (cfg : config) (fromId : num) (text : string) (list : list_name) (i : nat)
    (old : string) (n : Cloud.net) (d : Lowdb.disk) (remote : TaskDocument) :
  unauthorized cfg fromId = false ->
  command text = "/edit" -> list_arg text = Some list ->
  index_arg text = of_nat i -> text_arg text <> EmptyString ->
  (1 <= i)%nat -> get_list list remote !! (i - 1)%nat = Some old -> old <> EmptyString ->
  Z.of_nat (length (get_list list remote)) < 2 ^ 32 ->
  Cloud.fetch_ok n = true -> Lowdb.read_ok d = true ->
  (let w := (run (Cloud.handleCommand cfg n text fromId) remote).1 in
   exists db',
     stored w = [db']
     /\ replaced_at i (text_arg text) (get_list list remote) (get_list list db')
     /\ get_list (other list) db' = get_list (other list) remote
     /\ persisted w = Cloud.saved n db' remote
     /\ sent w = [Cloud.edited_text list (of_nat i) old (text_arg text)])
  /\
  (let w := (run (Lowdb.handleCommand d text) remote).1 in
   exists db',
     stored w = [db']
     /\ replaced_at i (text_arg text) (get_list list remote) (get_list list db')
     /\ get_list (other list) db' = get_list (other list) remote
     /\ (Lowdb.write_ok d = true ->
         persisted w = db'
         /\ sent w = [Lowdb.edited_text list (of_nat i) old (text_arg text)])).
Proof.
  intros Hauth Hcmd Hlist Hidx Htext Hi Hold Hne Hlen Hfetch Hread.
  pose proof (position_in_range list remote i old Hi Hold) as Hr.
  split; intros w; subst w;
    exists (set_list list (<[(i - 1)%nat := text_arg text]> (get_list list remote)) remote).
  - rewrite cloud_handle_run by done. cbn [fst].
    unfold Cloud.loaded. rewrite Hfetch.
    rewrite (cloud_edit text list remote Hlist i old Hidx Hi Hlen Hold Hcmd Htext Hne).
    rewrite cloud_stored_save, cloud_sent_save, get_set_list, get_set_other.
    split; [done|]. split; [by apply replaced_at_insert|]. done.
  - rewrite lowdb_handle_run.
    destruct (lowdb_edit text list remote Hlist i old Hidx Hi Hlen Hold Hcmd Htext Hne)
      as (k & -> & Hk).
    rewrite (lowdb_performed_write d remote _ _ _ Hread Hk).
    rewrite get_set_list, get_set_other.
    destruct (Lowdb.write_ok d); cbn [fst];
      (split; [done|]; split; [by apply replaced_at_insert|]; done).
Qed.

Example edit_replaces_nonempty_entry_example :
  let text := "/Edit weekend 2  Buy oat milk" in
  let remote := {| weekday := ["x"]; weekend := ["a"; "b"; "c"] |} in
  (let w := (run (Cloud.handleCommand cfg42 net_ok text sender42) remote).1 in
   exists db',
     stored w = [db']
     /\ replaced_at 2 (text_arg text) (get_list Weekend remote) (get_list Weekend db')
     /\ get_list (other Weekend) db' = get_list (other Weekend) remote
     /\ persisted w = Cloud.saved net_ok db' remote
     /\ sent w = [Cloud.edited_text Weekend (of_nat 2) "b" (text_arg text)])
  /\
  (let w := (run (Lowdb.handleCommand disk_ok text) remote).1 in
   exists db',
     stored w = [db']
     /\ replaced_at 2 (text_arg text) (get_list Weekend remote) (get_list Weekend db')
     /\ get_list (other Weekend) db' = get_list (other Weekend) remote
     /\ (Lowdb.write_ok disk_ok = true ->
         persisted w = db'
         /\ sent w = [Lowdb.edited_text Weekend (of_nat 2) "b" (text_arg text)])).
Proof.
  apply (edit_replaces_nonempty_entry cfg42 sender42 "/Edit weekend 2  Buy oat milk" Weekend 2 "b"
           net_ok disk_ok {| weekday := ["x"]; weekend := ["a"; "b"; "c"] |});
    solve [evaluate | discriminate | vm_compute; lia].
Qed.

(** C4. For a list with an entry at the 1-based position [i], /remove
    hands to the storage a document in which exactly that entry is gone
    from the list: one entry less, the entries before [i] in place, the
    later ones one position down; the reply is the router's line followed
    by the text removed. In both variants. *)
Theorem C4_remove_deletes_entry
    (cfg : config) (fromId : num) (text : string) (list : list_name) (i : nat)
    (x : string) (n : Cloud.net) (d : Lowdb.disk) (remote : TaskDocument) :
  unauthorized cfg fromId = false ->
  command text = "/remove" -> list_arg text = Some list -> index_arg text = of_nat i ->
  (1 <= i)%nat -> get_list list remote !! (i - 1)%nat = Some x ->
  Z.of_nat (length (get_list list remote)) < 2 ^ 32 ->
  Cloud.fetch_ok n = true -> Lowdb.read_ok d = true ->
  (let w := (run (Cloud.handleCommand cfg n text fromId) remote).1 in
   exists db',
     stored w = [db']
     /\ removed_at i x (get_list list remote) (get_list list db')
     /\ get_list (other list) db' = get_list (other list) remote
     /\ persisted w = Cloud.saved n db' remote
     /\ sent w = ["🗑️ Removed from *" +:+ name_str list +:+ "*: " +:+ x])
  /\
  (let w := (run (Lowdb.handleCommand d text) remote).1 in
   exists db',
     stored w = [db']
     /\ removed_at i x (get_list list remote) (get_list list db')
     /\ get_list (other list) db' = get_list (other list) remote
     /\ (Lowdb.write_ok d = true ->
         persisted w = db' /\ sent w = ["Removed from *" +:+ name_str list +:+ "*: " +:+ x])).
Proof.
  intros Hauth Hcmd Hlist Hidx Hi Hx Hlen Hfetch Hread.
  split; intros w; subst w;
    exists (set_list list (delete (i - 1)%nat (get_list list remote)) remote).
  - rewrite cloud_handle_run by done. cbn [fst].
    unfold Cloud.loaded. rewrite Hfetch.
    rewrite (cloud_remove text list remote Hlist i x Hidx Hi Hlen Hx Hcmd).
    rewrite cloud_stored_save, cloud_sent_save, get_set_list, get_set_other.
    split; [done|]. split; [by apply removed_at_delete|]. done.
  - rewrite lowdb_handle_run.
    destruct (lowdb_remove text list remote Hlist i x Hidx Hi Hlen Hx Hcmd) as (k & -> & Hk).
    rewrite (lowdb_performed_write d remote _ _ _ Hread Hk).
    rewrite get_set_list, get_set_other.
    destruct (Lowdb.write_ok d); cbn [fst];
      (split; [done|]; split; [by apply removed_at_delete|]; done).
Qed.

Lemma C4_remove_deletes_entry_witness :
  let text := "/remove weekday 2" in
  let remote := {| weekday := ["a"; "b"; "c"]; weekend := ["z"] |} in
  (let w := (run (Cloud.handleCommand cfg42 net_ok text sender42) remote).1 in
   exists db',
     stored w = [db']
     /\ removed_at 2 "b" (get_list Weekday remote) (get_list Weekday db')
     /\ get_list (other Weekday) db' = get_list (other Weekday) remote
     /\ persisted w = Cloud.saved net_ok db' remote
     /\ sent w = ["🗑️ Removed from *" +:+ name_str Weekday +:+ "*: " +:+ "b"])
  /\
  (let w := (run (Lowdb.handleCommand disk_ok text) remote).1 in
   exists db',
     stored w = [db']
     /\ removed_at 2 "b" (get_list Weekday remote) (get_list Weekday db')
     /\ get_list (other Weekday) db' = get_list (other Weekday) remote
     /\ (Lowdb.write_ok disk_ok = true ->
         persisted w = db'
         /\ sent w = ["Removed from *" +:+ name_str Weekday +:+ "*: " +:+ "b"])).
Proof.
  apply (C4_remove_deletes_entry cfg42 sender42 "/remove weekday 2" Weekday 2 "b"
           net_ok disk_ok {| weekday := ["a"; "b"; "c"]; weekend := ["z"] |});
    solve [evaluate | discriminate | vm_compute; lia].
Defined.

(** ** Authorization *)

(** C5. An update whose sender is not the configured identity gets no
    message and changes no document, and the check comes first: the
    JSONBin handleCommand returns with an empty trace whatever the text,
    and neither webhook fetches the document, stores one or sends
    anything. *)
Theorem C5_unauthorized_is_dropped
    (cfg : config) (u : update) (text fromId : Json.value) (n : Cloud.net) (d : Lowdb.disk)
    (remote : TaskDocument) :
  from_id u = Some fromId -> unauthorized cfg fromId = true ->
  run (Cloud.handleCommand cfg n text fromId) remote
  = ({| persisted := remote; trace := [] |}, Done tt)
  /\ (let w := (run (Cloud.webhook cfg n u) remote).1 in
      persisted w = remote /\ sent w = [] /\ stored w = [] /\ fetched w = false)
  /\ (let w := (run (Lowdb.webhook cfg d u) remote).1 in
      persisted w = remote /\ sent w = [] /\ stored w = [] /\ fetched w = false).
Proof.
  intros Hfrom Hauth. split; [by apply cloud_handle_unauthorized|]. split; intros w; subst w.
  - rewrite cloud_webhook_run, Hfrom. cbv zeta.
    rewrite cloud_handle_unauthorized by done.
    by destruct (Json.truthy_value (message_text u)).
  - rewrite lowdb_webhook_run, Hfrom, Hauth.
    by destruct (Json.truthy_value (message_text u)).
Qed.

Lemma C5_unauthorized_is_dropped_witness :
  let u := text_update "/add weekday spam" (of_Z 43) in
  let remote := {| weekday := ["a"]; weekend := [] |} in
  run (Cloud.handleCommand cfg42 net_ok "/add weekday spam" (of_Z 43)) remote
  = ({| persisted := remote; trace := [] |}, Done tt)
  /\ (let w := (run (Cloud.webhook cfg42 net_ok u) remote).1 in
      persisted w = remote /\ sent w = [] /\ stored w = [] /\ fetched w = false)
  /\ (let w := (run (Lowdb.webhook cfg42 disk_ok u) remote).1 in
      persisted w = remote /\ sent w = [] /\ stored w = [] /\ fetched w = false).
Proof.
  apply (C5_unauthorized_is_dropped cfg42 (text_update "/add weekday spam" (of_Z 43))
           "/add weekday spam" (of_Z 43) net_ok disk_ok {| weekday := ["a"]; weekend := [] |});
    evaluate.
Defined.

(** ** Storage failures *)



(** X30. The lowdb variant has no such storage client: a [db.write()]
    that rejects ends handleCommand before the confirmation is sent, and the
    webhook answers 500. *)
Lemma lowdb_write_failure_propagates (cfg : config) (d : Lowdb.disk) (u : update)
    (text : string) (fromId : Json.value) (k : TaskDocument -> option TaskDocument * string)
    (file data' : TaskDocument) (msg : string) :
  message_text u = Json.Of (Json.JString text) -> text <> EmptyString ->
  from_id u = Some fromId -> unauthorized cfg fromId = false ->
  Lowdb.read_ok d = true -> Lowdb.write_ok d = false ->
  Lowdb.outcome text = Lowdb.Access k -> k file = (Some data', msg) ->
  run (Lowdb.handleCommand d text) file
  = ({| persisted := file; trace := [Fetch; Store data'] |}, Thrown)
  /\ run (Lowdb.webhook cfg d u) file
     = ({| persisted := file;
           trace := [Fetch; Store data'; Log "webhook error"; Respond 500 "error"] |},
        Done tt).
Proof.
  intros Htext Hne Hfrom Hauth Hread Hwrite Hout Hk.
  assert (run (Lowdb.handleCommand d text) file
          = ({| persisted := file; trace := [Fetch; Store data'] |}, Thrown)) as Hrun
    by (by rewrite lowdb_handle_run, Hout, (lowdb_performed_write d file _ _ _ Hread Hk), Hwrite).
  split; [done|].
  rewrite lowdb_webhook_run, Htext, Hfrom, Hauth. cbv zeta. rewrite Hrun.
  cbn [Json.truthy_value Json.truthy]. by rewrite eqb_nonempty.
Qed.

(** ** Loading *)

(** C7, as stated, fails on a record that is malformed but truthy: getData
    returns it as it is. Here the record is [{}]: it has neither field, it
    is no task document, and it is what getData returns. *)
Lemma C7_counterexample :
  let r := Cloud.Body (Json.JObject [("record", Json.JObject [])]) in
  Json.decode (Json.JObject []) = None
  /\ Json.assoc "weekday" [] = None
  /\ Json.JObject [] <> Json.encode default_doc
  /\ run (Cloud.getData r) default_doc
     = ({| persisted := default_doc; trace := [Fetch] |}, Done (Json.JObject [])).
Proof. repeat split; try evaluate. discriminate. Qed.

(** C7 (amended). getData never fails outward: when the fetch or the
    parsing of the body throws, and when the body has no [record] or a falsy
    one, it returns the default document; a truthy record is returned as it
    is, whatever its shape. initDB puts the default document in place when
    db.json does not exist. *)
Theorem C7_load_falls_back_to_default (r : Cloud.fetch_result) (w : world) (d : Lowdb.disk) :
  (exists log,
     Cloud.getData r w
     = ({| persisted := persisted w; trace := trace w ++ Fetch :: log |},
        Done (default (Json.encode default_doc) (Cloud.record_of r))))
  /\ Cloud.getData Cloud.FetchRejects w
     = ({| persisted := persisted w;
           trace := trace w ++ [Fetch; Log "❌ Failed to fetch data:"] |},
        Done (Json.encode default_doc))
  /\ Cloud.getData Cloud.JsonRejects w
     = ({| persisted := persisted w;
           trace := trace w ++ [Fetch; Log "❌ Failed to fetch data:"] |},
        Done (Json.encode default_doc))
  /\ Json.decode (Json.encode default_doc) = Some default_doc
  /\ Lowdb.initDB (Lowdb.Data None) d
     = if Lowdb.write_ok d then Done (Json.encode default_doc) else Thrown.
Proof.
  split; [|split; [|split; [|split]]].
  - unfold Cloud.getData, Cloud.fetch_latest, Cloud.record_of, try_catch, bind, emit, ret, throw.
    destruct r as [| |[|b|x|s|l|fields]]; cbn [persisted trace Json.prop default];
      try (exists [Log "❌ Failed to fetch data:"]; rewrite <- app_assoc; reflexivity);
      try (exists []; reflexivity).
    destruct (Json.assoc "record" fields) as [record|]; [|exists []; reflexivity].
    destruct (Json.truthy record); exists []; reflexivity.
  - unfold Cloud.getData, Cloud.fetch_latest, try_catch, bind, emit, ret, throw.
    cbn [persisted trace]. by rewrite <- app_assoc.
  - unfold Cloud.getData, Cloud.fetch_latest, try_catch, bind, emit, ret, throw.
    cbn [persisted trace]. by rewrite <- app_assoc.
  - apply decode_encode.
  - reflexivity.
Qed.

(** ** The daily digest *)

Lemma weekdayName_in_names (now : Z) : weekdayName now ∈ weekday_names.
Proof.
  unfold weekdayName.
  assert (0 <= ((now + 19800000) / 86400000 + 4) mod 7 < 7) as H by (apply Z.mod_pos_bound; lia).
  destruct (weekday_names !! Z.to_nat (((now + 19800000) / 86400000 + 4) mod 7)) as [x|] eqn:E.
  - apply list_elem_of_lookup. eauto.
  - apply lookup_ge_None in E. cbn [length weekday_names] in E. lia.
Qed.

(** 2025-11-01 12:26:40 UTC is a Saturday evening in Kolkata, and two days
    later it is Monday there. *)
Example weekdayName_saturday : weekdayName 1762000000000 = "Saturday".
Proof. reflexivity. Qed.

Example weekdayName_monday : weekdayName (1762000000000 + 2 * 86400000) = "Monday".
Proof. reflexivity. Qed.

(** C8, as stated, fails in the lowdb variant: on an empty list its digest
    is the usual header followed by the rendering of the list, which is the
    placeholder. *)
Lemma C8_counterexample :
  let now := 1762000000000 in
  let selected := get_list (istDayType now) default_doc in
  selected = []
  /\ exists msg, sent (run (Lowdb.daily disk_ok now) default_doc).1 = [msg]
                 /\ renders msg selected
                 /\ msg = ("🗓️ *Good morning!* Here is your *" +:+ name_str Weekend +:+
                            "* list for today:" +:+ nl +:+ nl) +:+ "_(empty)_".
Proof.
  split; [reflexivity|]. eexists. split; [reflexivity|]. split; [|reflexivity].
  by exists (Lowdb.digest_header Weekend).
Qed.

(** C8 (amended). In both variants the digest selects the weekend list
    exactly when the weekday name in Asia/Kolkata is Saturday or Sunday, and
    the weekday list otherwise. On an empty selected list the JSONBin
    variant sends a message of its own saying that there are no tasks (one
    text for GET /, another for the scheduled task) and on any other list
    the greeting followed by the rendering; the lowdb variant always sends
    its header followed by the rendering, which for an empty list is the
    placeholder. *)
Theorem C8_digest_selection (now : Z) (n : Cloud.net) (d : Lowdb.disk) (remote : TaskDocument) :
  let which := getListTypeByDay now in
  (which = Weekend <-> weekdayName now = "Saturday" \/ weekdayName now = "Sunday")
  /\ (which = Weekday <-> ~ (weekdayName now = "Saturday" \/ weekdayName now = "Sunday"))
  /\ istDayType now = which
  /\ sent (run (Cloud.daily n now) remote).1
     = [match get_list which (Cloud.loaded n remote) with
        | [] => "✅ You have no *" +:+ name_str which +:+ "* tasks today!"
        | l => "🗓️ Good morning, Digi!" +:+ nl +:+ "Your *" +:+ name_str which +:+
               "* tasks:" +:+ nl +:+ nl +:+ formatList l
        end]
  /\ sent (run (Cloud.cron n now) remote).1
     = [match get_list which (Cloud.loaded n remote) with
        | [] => "✅ No *" +:+ name_str which +:+ "* tasks today! Enjoy your day ☀️"
        | l => "🗓️ Good morning, Digi!" +:+ nl +:+ "Your *" +:+ name_str which +:+
               "* tasks:" +:+ nl +:+ nl +:+ formatList l
        end]
  /\ sent (run (Lowdb.daily d now) remote).1
     = if Lowdb.read_ok d
       then [("🗓️ *Good morning!* Here is your *" +:+ name_str which +:+
               "* list for today:" +:+ nl +:+ nl) +:+ prettyList (get_list which remote)]
       else [].
Proof.
  intros which. split; [|split; [|split; [done|split; [|split]]]].
  - unfold which, getListTypeByDay.
    destruct (String.eqb_spec (weekdayName now) "Saturday") as [->|H1]; [by intuition|].
    destruct (String.eqb_spec (weekdayName now) "Sunday") as [->|H2]; cbn [orb]; [by intuition|].
    split; [done|]. by intros [|].
  - unfold which, getListTypeByDay.
    destruct (String.eqb_spec (weekdayName now) "Saturday") as [->|H1]; [by intuition|].
    destruct (String.eqb_spec (weekdayName now) "Sunday") as [->|H2]; cbn [orb]; [by intuition|].
    split; [|done]. by intros _ [|].
  - unfold run, Cloud.daily, bind. rewrite getDocument_run. cbn [persisted trace app].
    fold which. unfold Cloud.fetch_trace.
    destruct (Cloud.fetch_ok n), (get_list which (Cloud.loaded n remote)); reflexivity.
  - unfold run, Cloud.cron, bind, emit at 1. rewrite getDocument_run. cbn [persisted trace app].
    fold which. unfold Cloud.fetch_trace.
    destruct (Cloud.fetch_ok n), (get_list which (Cloud.loaded n remote)); reflexivity.
  - unfold run, Lowdb.daily, Lowdb.db_read, Lowdb.sendTelegram, emit, read_persisted, throw.
    unfold bind. cbn [persisted trace app]. fold which.
    destruct (Lowdb.read_ok d); [destruct (Lowdb.reply_ok d)|]; reflexivity.
Qed.

(** ** Parsing *)

(** C9, as stated, fails: the line is cut at every single space, not at
    runs of white space. With two spaces after the command the list name is
    the third token and /view answers with its usage message; with a tab
    nothing is cut at all and the command is unknown. *)
Lemma C9_counterexample :
  let two_spaces := "/view  weekday" in
  let tab := "/view" +:+ bytes [9%nat] +:+ "weekday" in
  let remote := {| weekday := ["a"]; weekend := [] |} in
  spec_tokens two_spaces = ["/view"; "weekday"]
  /\ tokens two_spaces = ["/view"; EmptyString; "weekday"]
  /\ sent (run (Cloud.handleCommand cfg42 net_ok two_spaces sender42) remote).1
     = ["Usage: /view <weekday|weekend>"]
  /\ sent (run (Lowdb.handleCommand disk_ok two_spaces) remote).1
     = ["Usage: /view <weekday|weekend>"]
  /\ spec_tokens tab = ["/view"; "weekday"]
  /\ tokens tab = [tab]
  /\ sent (run (Cloud.handleCommand cfg42 net_ok tab sender42) remote).1
     = ["Unknown command. Use /help for usage."]
  /\ sent (run (Lowdb.handleCommand disk_ok tab) remote).1
     = ["Unknown command. Use /help for commands."].
Proof. repeat split; evaluate. Qed.

(** What the routers read of the tokens: the first one in lower case, and
    the others. *)
Lemma cloud_dispatch_first_token (n : Cloud.net) (a a' : string) (rest : list string)
    (db : TaskDocument) :
  toLowerCase a = toLowerCase a' ->
  Cloud.dispatch n (a :: rest) db = Cloud.dispatch n (a' :: rest) db.
Proof. intros H. unfold Cloud.dispatch. cbn [hd]. by rewrite H. Qed.

Lemma lowdb_handle_first_token (d : Lowdb.disk) (text text' : string) :
  command text = command text' -> tail (tokens text) = tail (tokens text') ->
  Lowdb.handleCommand d text = Lowdb.handleCommand d text'.
Proof.
  unfold command, tokens, Lowdb.handleCommand.
  pose proof (split_space_nonempty (trim text)).
  pose proof (split_space_nonempty (trim text')).
  destruct (split_space (trim text)) as [|a r], (split_space (trim text')) as [|a' r']; try done.
  cbn [hd tail]. intros Ha ->. by rewrite Ha.
Qed.

(** C9 (amended). The trimmed line is cut at every single space: there is
    always a first token, no token holds a space, and the tokens joined by
    single spaces are the trimmed line again (so the task text, the tokens
    from the third on joined by spaces and trimmed, is the rest of the line
    as it was typed). The first token selects the operation whatever its
    case: two lines whose first tokens agree in lower case and whose other
    tokens are the same are handled alike. *)
Theorem C9_tokens_and_operation
    (cfg : config) (n : Cloud.net) (d : Lowdb.disk) (fromId : num)
    (text text' : string) (remote : TaskDocument) :
  command text = command text' -> tail (tokens text) = tail (tokens text') ->
  (tokens text <> []
   /\ Forall (fun t => ~ has_space t) (tokens text)
   /\ join " " (tokens text) = trim text
   /\ task_arg text = trim (join " " (drop 1 (tail (tokens text))))
   /\ text_arg text = trim (join " " (drop 2 (tail (tokens text)))))
  /\ run (Cloud.handleCommand cfg n text fromId) remote
     = run (Cloud.handleCommand cfg n text' fromId) remote
  /\ run (Lowdb.handleCommand d text) remote = run (Lowdb.handleCommand d text') remote.
Proof.
  intros Hcmd Htail. split; [|split].
  - unfold tokens, task_arg, text_arg.
    pose proof (split_space_nonempty (trim text)) as Hne.
    split; [done|]. split; [apply split_space_tokens|]. split; [apply join_split_space|].
    unfold tokens. by destruct (split_space (trim text)).
  - unfold run, Cloud.handleCommand. destruct (unauthorized cfg fromId); [done|].
    unfold bind. rewrite getDocument_run. cbn [persisted trace app].
    unfold command, tokens in *.
    pose proof (split_space_nonempty (trim text)).
    pose proof (split_space_nonempty (trim text')).
    destruct (split_space (trim text)) as [|a r], (split_space (trim text')) as [|a' r'];
      try done.
    cbn [hd tail] in *. subst r'. by rewrite (cloud_dispatch_first_token n a a').
  - by rewrite (lowdb_handle_first_token d text text').
Qed.

Lemma C9_tokens_and_operation_witness :
  let text := "/ADD weekday  Buy   milk " in
  let text' := "/add weekday  Buy   milk" in
  let remote := {| weekday := ["a"]; weekend := [] |} in
  (tokens text <> []
   /\ Forall (fun t => ~ has_space t) (tokens text)
   /\ join " " (tokens text) = trim text
   /\ task_arg text = trim (join " " (drop 1 (tail (tokens text))))
   /\ text_arg text = trim (join " " (drop 2 (tail (tokens text)))))
  /\ run (Cloud.handleCommand cfg42 net_ok text sender42) remote
     = run (Cloud.handleCommand cfg42 net_ok text' sender42) remote
  /\ run (Lowdb.handleCommand disk_ok text) remote
     = run (Lowdb.handleCommand disk_ok text') remote.
Proof.
  apply (C9_tokens_and_operation cfg42 net_ok disk_ok sender42
           "/ADD weekday  Buy   milk " "/add weekday  Buy   milk"
           {| weekday := ["a"]; weekend := [] |}); evaluate.
Defined.

(** ** The invariant of the lists *)

Lemma well_formed_default : well_formed default_doc.
Proof. split; constructor. Qed.

Lemma well_formed_set_list (name : list_name) (l : list string) (db : TaskDocument) :
  well_formed db -> Forall nonblank l -> well_formed (set_list name l db).
Proof. intros [H1 H2] Hl. destruct name; split; done. Qed.

Lemma well_formed_get_list (name : list_name) (db : TaskDocument) :
  well_formed db -> Forall nonblank (get_list name db).
Proof. intros [H1 H2]. by destruct name. Qed.

(** Whatever the JSONBin router decides to save is well formed, if what it
    loaded was. *)
Lemma cloud_outcome_well_formed (parts : list string) (db db' : TaskDocument) (msg : string) :
  well_formed db -> Cloud.outcome parts db = (Some db', msg) -> well_formed db'.
Proof.
  intros Hdb. unfold Cloud.outcome.
  repeat (match goal with
          | |- context [if ?b then _ else _] => destruct b eqn:?
          | |- context [match ?o with Some _ => _ | None => _ end] => destruct o eqn:?
          | |- context [let (_, _) := ?p in _] => destruct p eqn:?
          end; try done);
    intros; simplify_eq; apply well_formed_set_list; try done.
  - apply Forall_app. split; [by apply well_formed_get_list|].
    constructor; [|done]. apply trim_nonblank. by apply String.eqb_neq.
  - apply set_Forall; [by apply well_formed_get_list|].
    apply trim_nonblank.
    match goal with H : _ || _ = false |- _ => apply orb_false_iff in H as [_ H] end.
    by apply String.eqb_neq.
  - match goal with H : Arr.splice1 ?xs ?s = _ |- _ =>
      pose proof (splice1_Forall nonblank xs s) as HF; rewrite H in HF end.
    apply HF. by apply well_formed_get_list.
Qed.

Lemma lowdb_outcome_well_formed (text : string) (k : TaskDocument -> option TaskDocument * string)
    (db db' : TaskDocument) (msg : string) :
  well_formed db -> Lowdb.outcome text = Lowdb.Access k -> k db = (Some db', msg) ->
  well_formed db'.
Proof.
  intros Hdb. unfold Lowdb.outcome.
  repeat (match goal with
          | |- context [if ?b then _ else _] => destruct b eqn:?
          | |- context [match ?o with Some _ => _ | None => _ end] => destruct o eqn:?
          end; try done);
    intros; simplify_eq.
  - apply well_formed_set_list; [done|].
    apply Forall_app. split; [by apply well_formed_get_list|].
    constructor; [|done]. apply trim_nonblank. by apply String.eqb_neq.
  - repeat match goal with
           | H : context [match ?o with Some _ => _ | None => _ end] |- _ => destruct o eqn:?
           | H : context [if ?b then _ else _] |- _ => destruct b eqn:?
           end; simplify_eq.
    apply well_formed_set_list; [done|].
    apply set_Forall; [by apply well_formed_get_list|].
    apply trim_nonblank.
    match goal with H : _ || _ = false |- _ => apply orb_false_iff in H as [_ H] end.
    by apply String.eqb_neq.
  - apply well_formed_set_list; [done|]. apply Forall_app.
    split; [apply Forall_take | apply Forall_drop]; by apply well_formed_get_list.
Qed.

Lemma cloud_after_well_formed (cfg : config) (d : TaskDocument) (c : Cloud.net * string * num) :
  well_formed d -> well_formed (Cloud.after cfg d c).
Proof.
  intros Hd. destruct c as [[n text] fromId]. unfold Cloud.after. cbn [fst snd].
  destruct (unauthorized cfg fromId) eqn:Hauth.
  - by rewrite cloud_handle_unauthorized.
  - rewrite cloud_handle_run by done. cbn [fst].
    assert (well_formed (Cloud.loaded n d)) as Hl
      by (unfold Cloud.loaded; destruct (Cloud.fetch_ok n); [done|apply well_formed_default]).
    destruct (Cloud.outcome (tokens text) (Cloud.loaded n d)) as [[db'|] msg] eqn:E; [|done].
    cbn [Cloud.performed persisted]. unfold Cloud.saved.
    destruct (Cloud.put n); try done. by eapply cloud_outcome_well_formed.
Qed.

Lemma lowdb_after_well_formed (d : TaskDocument) (c : Lowdb.disk * string) :
  well_formed d -> well_formed (Lowdb.after d c).
Proof.
  intros Hd. destruct c as [disk text]. unfold Lowdb.after. cbn [fst snd].
  rewrite lowdb_handle_run. unfold Lowdb.performed.
  destruct (Lowdb.outcome text) as [msg|k] eqn:E; [done|].
  destruct (Lowdb.read_ok disk); [|done].
  destruct (k d) as [[db'|] msg] eqn:Ek; [|done].
  destruct (Lowdb.write_ok disk); [|done]. by eapply lowdb_outcome_well_formed.
Qed.

(** C10. From the default document, whatever the commands, whoever sends
    them and whatever the backend does meanwhile, every element of both
    lists is a text that is not empty once trimmed; in particular no element
    is the empty string. In both variants. *)
Theorem C10_lists_hold_nonblank_texts
    (cfg : config) (calls : list (Cloud.net * string * num)) (calls' : list (Lowdb.disk * string)) :
  (well_formed (Cloud.session cfg calls default_doc)
   /\ forall name, EmptyString ∉ get_list name (Cloud.session cfg calls default_doc))
  /\ (well_formed (Lowdb.session calls' default_doc)
      /\ forall name, EmptyString ∉ get_list name (Lowdb.session calls' default_doc)).
Proof.
  assert (forall d, well_formed d -> forall name, EmptyString ∉ get_list name d) as Hempty.
  { intros d Hd name Hin. apply (well_formed_get_list name) in Hd.
    rewrite Forall_forall in Hd. by apply (nonblank_nonempty _ (Hd _ Hin)). }
  assert (forall d, well_formed d -> well_formed (Cloud.session cfg calls d)) as Hc.
  { unfold Cloud.session. induction calls as [|c calls IH]; intros d Hd; [done|].
    cbn [foldl]. by apply IH, cloud_after_well_formed. }
  assert (forall d, well_formed d -> well_formed (Lowdb.session calls' d)) as Hl.
  { unfold Lowdb.session. induction calls' as [|c cs IH]; intros d Hd; [done|].
    cbn [foldl]. by apply IH, lowdb_after_well_formed. }
  pose proof well_formed_default. split; split; auto.
Qed.

(** The document on which /edit fails is one no session of the routers
    leads to: from the default document, after any commands, /edit replaces
    the entry at every position the list has, whatever it holds. *)
Lemma edit_replaces_entry_after_any_session
    (cfg : config) (calls : list (Cloud.net * string * num)) (calls' : list (Lowdb.disk * string))
    (fromId : num) (text : string) (list : list_name) (i : nat)
    (n : Cloud.net) (d : Lowdb.disk) :
  unauthorized cfg fromId = false ->
  command text = "/edit" -> list_arg text = Some list ->
  index_arg text = of_nat i -> text_arg text <> EmptyString ->
  Cloud.fetch_ok n = true -> Lowdb.read_ok d = true ->
  (let remote := Cloud.session cfg calls default_doc in
   (1 <= i <= length (get_list list remote))%nat ->
   Z.of_nat (length (get_list list remote)) < 2 ^ 32 ->
   exists db',
     stored (run (Cloud.handleCommand cfg n text fromId) remote).1 = [db']
     /\ replaced_at i (text_arg text) (get_list list remote) (get_list list db')
     /\ get_list (other list) db' = get_list (other list) remote)
  /\ (let remote := Lowdb.session calls' default_doc in
      (1 <= i <= length (get_list list remote))%nat ->
      Z.of_nat (length (get_list list remote)) < 2 ^ 32 ->
      exists db',
        stored (run (Lowdb.handleCommand d text) remote).1 = [db']
        /\ replaced_at i (text_arg text) (get_list list remote) (get_list list db')
        /\ get_list (other list) db' = get_list (other list) remote).
Proof.
  intros Hauth Hcmd Hlist Hidx Htext Hfetch Hread.
  assert (forall remote, well_formed remote ->
            (1 <= i <= length (get_list list remote))%nat ->
            exists old, get_list list remote !! (i - 1)%nat = Some old /\ old <> EmptyString)
    as Hold.
  { intros remote Hwf Hi.
    destruct (lookup_lt_is_Some_2 (get_list list remote) (i - 1)%nat) as [old Hold]; [lia|].
    exists old. split; [done|]. apply nonblank_nonempty.
    apply (well_formed_get_list list) in Hwf. rewrite Forall_forall in Hwf.
    apply Hwf. by eapply list_elem_of_lookup_2. }
  assert (forall ds, well_formed ds -> well_formed (Cloud.session cfg calls ds)) as Hc.
  { unfold Cloud.session. induction calls as [|c cs IH]; intros ds Hd; [done|].
    cbn [foldl]. by apply IH, cloud_after_well_formed. }
  assert (forall ds, well_formed ds -> well_formed (Lowdb.session calls' ds)) as Hl.
  { unfold Lowdb.session. induction calls' as [|c cs IH]; intros ds Hd; [done|].
    cbn [foldl]. by apply IH, lowdb_after_well_formed. }
  split; intros remote Hi Hlen.
  - destruct (Hold remote (Hc _ well_formed_default) Hi) as (old & Hlook & Hne).
    destruct (edit_replaces_nonempty_entry cfg fromId text list i old n d remote)
      as [(db' & ? & ? & ? & _) _]; try done; [lia|]. by exists db'.
  - destruct (Hold remote (Hl _ well_formed_default) Hi) as (old & Hlook & Hne).
    destruct (edit_replaces_nonempty_entry cfg fromId text list i old n d remote)
      as [_ (db' & ? & ? & ? & _)]; try done; [lia|]. by exists db'.
Qed.

(** * Further properties

    Properties of the code that the claims above do not state. *)

Import NumeralFacts.

(** ** What a message may do to the document *)

Module ChangeFacts.
Import Str StrFacts Num Arr CloudFacts.

(** [splice(start, 1)] takes at most one item, at a position of the array,
    whatever [start] is. *)
Lemma splice1_cases (l : list string) (start : num) :
  splice1 l start = ([], l)
  \/ exists (i : nat) (x : string), l !! i = Some x /\ splice1 l start = ([x], delete i l).
Proof.
  unfold splice1.
  set (len := Z.of_nat (length l)).
  set (a := match ToIntegerOrInfinity start with
            | NegInfinity => 0
            | Int r => if r <? 0 then Z.max (len + r) 0 else Z.min r len
            | PosInfinity => len
            end).
  assert (0 <= a <= len) as Ha.
  { subst a. destruct (ToIntegerOrInfinity start) as [|r|]; [lia| |lia].
    destruct (Z.ltb_spec r 0); lia. }
  destruct (decide (a = len)) as [->|Hne].
  - left. replace (Z.min (Z.max 1 0) (len - len)) with 0 by lia.
    subst len. rewrite Nat2Z.id. change (Z.to_nat 0) with 0%nat.
    rewrite take_0, Nat.add_0_r, take_ge, drop_ge by lia. by rewrite app_nil_r.
  - right. replace (Z.min (Z.max 1 0) (len - a)) with 1 by lia.
    change (Z.to_nat 1) with 1%nat.
    destruct (lookup_lt_is_Some_2 l (Z.to_nat a)) as [x Hx]; [subst len; lia|].
    exists (Z.to_nat a), x. split; [done|].
    rewrite (drop_S _ _ _ Hx), delete_take_drop.
    by replace (Z.to_nat a + 1)%nat with (S (Z.to_nat a)) by lia.
Qed.

(** What [l[x] = v] does once [l[x]] was found. *)
Lemma set_found (l : list string) (x : num) (old v : string) :
  get l x = Some old -> exists i : nat, (i < length l)%nat /\ set l x v = <[i := v]> l.
Proof.
  unfold get, set. destruct (index x) as [i|]; [|done].
  intros H. exists i. split; [by eapply lookup_lt_Some|done].
Qed.

Lemma set_list_get_list (name : list_name) (db : TaskDocument) :
  set_list name (get_list name db) db = db.
Proof. by destruct name, db. Qed.

Ltac router_cases :=
  repeat (match goal with
          | |- context [if ?b then _ else _] => destruct b eqn:?
          | |- context [match ?o with Some _ => _ | None => _ end] => destruct o eqn:?
          | |- context [let (_, _) := ?p in _] => destruct p eqn:?
          end; try done).

(** What the JSONBin router decides to save: the loaded document with one
    change, of the kind of its command word, to the list it names. *)
Lemma cloud_outcome_change (parts : list string) (db db' : TaskDocument) (msg : string) :
  Cloud.outcome parts db = (Some db', msg) ->
  exists name l',
    includes (parts !! 1%nat) = Some name
    /\ db' = set_list name l' db
    /\ list_step (toLowerCase (hd EmptyString parts)) (get_list name db) l'.
Proof.
  unfold Cloud.outcome. router_cases; intros; simplify_eq.
  - eexists _, _. split; [done|]. split; [done|].
    match goal with H : String.eqb _ "/add" = true |- _ => apply String.eqb_eq in H as -> end.
    constructor. apply trim_nonblank. by apply String.eqb_neq.
  - match goal with H : get _ _ = Some _ |- _ =>
      destruct (set_found _ _ _ (trim (join " " (drop 3 parts))) H) as (i & Hi & ->) end.
    eexists _, _. split; [done|]. split; [done|].
    match goal with H : String.eqb _ "/edit" = true |- _ => apply String.eqb_eq in H as -> end.
    constructor; [done|]. apply trim_nonblank.
    match goal with H : _ || _ = false |- _ => apply orb_false_iff in H as [_ H] end.
    by apply String.eqb_neq.
  - eexists _, _. split; [done|]. split; [done|].
    match goal with H : String.eqb _ "/remove" = true |- _ => apply String.eqb_eq in H as -> end.
    match goal with H : splice1 ?xs ?s = _ |- _ =>
      destruct (splice1_cases xs s) as [E|(i & x & Hx & E)]; rewrite E in H; simplify_eq end.
    + constructor.
    + constructor. by eapply lookup_lt_Some.
Qed.

Lemma cloud_outcome_readonly (parts : list string) (db : TaskDocument) :
  mutating (toLowerCase (hd EmptyString parts)) = false -> (Cloud.outcome parts db).1 = None.
Proof.
  unfold mutating, Cloud.outcome. rewrite !orb_false_iff. intros [[-> ->] ->].
  router_cases.
Qed.

(** The continuation of a decision that reads db.json, applied to the
    document read. *)
Ltac access Hk Hdb :=
  lazymatch type of Hk with
  | Lowdb.Reply _ = _ => discriminate Hk
  | Lowdb.Access ?f = Lowdb.Access ?k =>
      let E := fresh in
      assert (k = f) as E
        by (symmetry;
            exact (f_equal (fun o => match o with Lowdb.Access g => g | _ => f end) Hk));
      subst k; clear Hk; lazy beta in Hdb
  end.

(** The same for the lowdb router, on the document it read. *)
Lemma lowdb_outcome_change (text : string) (k : TaskDocument -> option TaskDocument * string)
    (db db' : TaskDocument) (msg : string) :
  Lowdb.outcome text = Lowdb.Access k -> k db = (Some db', msg) ->
  exists name l',
    list_arg text = Some name
    /\ db' = set_list name l' db
    /\ list_step (command text) (get_list name db) l'.
Proof.
  unfold Lowdb.outcome, list_arg, command, tokens.
  router_cases; intros Hk Hdb; access Hk Hdb; try done.
  - injection Hdb as <- <-.
    eexists _, _. split; [done|]. split; [done|].
    match goal with H : String.eqb _ "/add" = true |- _ => apply String.eqb_eq in H as -> end.
    constructor. apply trim_nonblank. by apply String.eqb_neq.
  - destruct (get _ _) as [old|] eqn:Hold; [|done].
    destruct (String.eqb old EmptyString); [done|]. injection Hdb as <- <-.
    destruct (set_found _ _ _ (trim (join " " (drop 3 (split_space (trim text))))) Hold)
      as (i & Hi & ->).
    eexists _, _. split; [done|]. split; [done|].
    match goal with H : String.eqb _ "/edit" = true |- _ => apply String.eqb_eq in H as -> end.
    constructor; [done|]. apply trim_nonblank.
    match goal with H : _ || _ = false |- _ => apply orb_false_iff in H as [_ H] end.
    by apply String.eqb_neq.
  - match goal with H : String.eqb _ "/remove" = true |- _ => apply String.eqb_eq in H as -> end.
    match type of Hdb with context [splice1 ?xs ?s] =>
      destruct (splice1_cases xs s) as [E|(i & x & Hx & E)]; rewrite E in Hdb end;
      injection Hdb as <- <-; eexists _, _; (split; [done|]); (split; [done|]).
    + constructor.
    + constructor. by eapply lookup_lt_Some.
Qed.

Lemma lowdb_outcome_readonly (text : string) (k : TaskDocument -> option TaskDocument * string)
    (db : TaskDocument) :
  mutating (command text) = false -> Lowdb.outcome text = Lowdb.Access k -> (k db).1 = None.
Proof.
  unfold mutating, Lowdb.outcome, command, tokens. rewrite !orb_false_iff. intros [[-> ->] ->].
  router_cases; intros Hk; (discriminate Hk || (injection Hk as <-; done)).
Qed.

End ChangeFacts.
Import ChangeFacts.

Module RunFacts.

Lemma list_step_length (cmd : string) (l l' : list string) :
  list_step cmd l l' ->
  ((length l' <= length l + 1)%nat /\ (length l <= length l' + 1)%nat)
  /\ (length l' = (length l + 1)%nat -> cmd = "/add")
  /\ ((length l' + 1)%nat = length l -> cmd = "/remove").
Proof.
  intros H. inversion H; subst.
  - rewrite length_app. cbn [length]. repeat split; (lia || done).
  - rewrite length_insert. repeat split; lia.
  - rewrite length_delete by (by apply lookup_lt_is_Some_2). repeat split; (lia || done).
  - repeat split; (lia || done).
Qed.

(** What a command of the authorized sender leaves in the bin: what was
    there, or the document the router decided to save. *)
Lemma cloud_persisted_cases (n : Cloud.net) (remote : TaskDocument)
    (o : option TaskDocument * string) :
  persisted (Cloud.performed n remote o) = remote
  \/ exists db', o.1 = Some db' /\ Cloud.put n = Cloud.PutOk
                 /\ persisted (Cloud.performed n remote o) = db'.
Proof.
  destruct o as [[db'|] msg]; [|by left]. cbn [Cloud.performed persisted]. unfold Cloud.saved.
  destruct (Cloud.put n) eqn:E; [|by left..]. right. by exists db'.
Qed.

Lemma lowdb_persisted_cases (d : Lowdb.disk) (file : TaskDocument) (o : Lowdb.decision) :
  persisted (Lowdb.performed d file o).1 = file
  \/ exists k db' msg, o = Lowdb.Access k /\ k file = (Some db', msg)
                       /\ Lowdb.read_ok d = true /\ Lowdb.write_ok d = true
                       /\ persisted (Lowdb.performed d file o).1 = db'.
Proof.
  destruct o as [msg|k]; [by left|]. unfold Lowdb.performed.
  destruct (Lowdb.read_ok d) eqn:Hr; [|by left].
  destruct (k file) as [[db'|] msg] eqn:Hk; [|by left].
  destruct (Lowdb.write_ok d) eqn:Hw; [|by left].
  right. by exists k, db', msg.
Qed.

Lemma cloud_after_skip (cfg : config) (d : TaskDocument) (c : Cloud.net * string * num) :
  cloud_effective cfg c = false -> Cloud.after cfg d c = d.
Proof.
  destruct c as [[n text] fromId]. unfold cloud_effective, Cloud.after. cbn [fst snd].
  intros H. destruct (unauthorized cfg fromId) eqn:Hauth.
  { by rewrite cloud_handle_unauthorized. }
  rewrite cloud_handle_run by done. cbn [fst negb andb] in *.
  destruct (cloud_persisted_cases n d (Cloud.outcome (tokens text) (Cloud.loaded n d)))
    as [E|(db' & Ho & Hput & _)]; [done|].
  rewrite Hput, andb_true_r in H.
  by rewrite (cloud_outcome_readonly _ _ H) in Ho.
Qed.

Lemma lowdb_after_skip (d : TaskDocument) (c : Lowdb.disk * string) :
  lowdb_effective c = false -> Lowdb.after d c = d.
Proof.
  destruct c as [disk text]. unfold lowdb_effective, Lowdb.after. cbn [fst snd].
  intros H. rewrite lowdb_handle_run.
  destruct (lowdb_persisted_cases disk d (Lowdb.outcome text))
    as [E|(k & db' & msg & Ho & Hk & Hr & Hw & _)]; [done|].
  rewrite Hr, Hw, !andb_true_r in H.
  pose proof (lowdb_outcome_readonly text k d H Ho) as Hnone. by rewrite Hk in Hnone.
Qed.

End RunFacts.
Import RunFacts.

(** X1. The JSONBin router answers every message of the authorized sender,
    whatever the text and however the fetch and the save end, for a bin
    that holds a task document: handleCommand finishes normally, having
    fetched the document first and once, handed at most one document to
    saveData, and sent exactly one message, last. *)
Theorem cloud_router_always_replies (cfg : config) (n : Cloud.net) (text : string)
    (fromId : num) (remote : TaskDocument) :
  unauthorized cfg fromId = false ->
  let r := run (Cloud.handleCommand cfg n text fromId) remote in
  r.2 = Done tt
  /\ head (trace r.1) = Some Fetch /\ fetches r.1 = 1%nat
  /\ (length (stored r.1) <= 1)%nat
  /\ exists msg, sent r.1 = [msg] /\ last (trace r.1) = Some (Send msg).
Proof.
  intros Hauth r. subst r. rewrite cloud_handle_run by done. cbn [fst snd].
  destruct (Cloud.outcome (tokens text) (Cloud.loaded n remote)) as [[db|] msg];
    unfold Cloud.performed, Cloud.fetch_trace, fetches, stored, sent;
    destruct (Cloud.fetch_ok n); cbn; (repeat split; [lia|]); by exists msg.
Qed.

Lemma cloud_router_always_replies_witness :
  let n := {| Cloud.fetch_ok := false; Cloud.put := Cloud.PutRejects |} in
  let r := run (Cloud.handleCommand cfg42 n "/add weekday Buy milk" sender42)
               {| weekday := ["a"]; weekend := [] |} in
  r.2 = Done tt
  /\ head (trace r.1) = Some Fetch /\ fetches r.1 = 1%nat
  /\ (length (stored r.1) <= 1)%nat
  /\ exists msg, sent r.1 = [msg] /\ last (trace r.1) = Some (Send msg).
Proof.
  apply (cloud_router_always_replies cfg42
           {| Cloud.fetch_ok := false; Cloud.put := Cloud.PutRejects |}
           "/add weekday Buy milk" sender42 {| weekday := ["a"]; weekend := [] |}).
  evaluate.
Defined.

(** X2. The lowdb router reads db.json at most once and writes it at most
    once per message, never writes before it has read, and sends at most
    one message, as the last thing it does. It finishes normally exactly
    when its message is out and the reply to it could be parsed. It throws
    in two ways: a read or a write rejected, and then nothing was sent and
    db.json is as it was; or the reply to the send is not JSON, and then
    the message is out and what the command wrote stays written. *)
Theorem lowdb_router_reads_and_writes_once (d : Lowdb.disk) (text : string)
    (file : TaskDocument) :
  let r := run (Lowdb.handleCommand d text) file in
  (fetches r.1 <= 1)%nat /\ (length (stored r.1) <= 1)%nat
  /\ (stored r.1 <> [] -> head (trace r.1) = Some Fetch)
  /\ (length (sent r.1) <= 1)%nat
  /\ (forall msg, sent r.1 = [msg] -> last (trace r.1) = Some (Send msg))
  /\ (r.2 = Done tt <-> (exists msg, sent r.1 = [msg]) /\ Lowdb.reply_ok d = true)
  /\ (r.2 = Thrown <->
      (sent r.1 = [] /\ persisted r.1 = file
       /\ (Lowdb.read_ok d = false \/ Lowdb.write_ok d = false))
      \/ ((exists msg, sent r.1 = [msg]) /\ Lowdb.reply_ok d = false))
  /\ (forall db', stored r.1 = [db'] -> Lowdb.write_ok d = true -> persisted r.1 = db')
  /\ (Lowdb.read_ok d = true -> Lowdb.write_ok d = true -> Lowdb.reply_ok d = true ->
      r.2 = Done tt).
Proof.
  intros r. subst r. rewrite lowdb_handle_run. unfold Lowdb.performed, Lowdb.replied.
  destruct (Lowdb.outcome text) as [msg|k]; [|destruct (Lowdb.read_ok d) eqn:Hr;
    [destruct (k file) as [[db'|] msg]; [destruct (Lowdb.write_ok d) eqn:Hw|]|]];
    destruct (Lowdb.reply_ok d) eqn:Hp; cbn;
    repeat split; try (done || lia || eauto);
    try (intros; destruct_and?; destruct_or?; destruct_and?; simplify_eq; eauto; done);
    try (by intros [[? ?] _]).
Qed.

(** X3. Under any command word other than /add, /edit and /remove (so for
    /help, /lists, /view and every unknown word) neither router hands a
    document to the storage, and the persisted document is as it was,
    whatever the backend does; so the same message handled again runs the
    same way. *)
Theorem readonly_commands_never_write (cfg : config) (n : Cloud.net) (d : Lowdb.disk)
    (text : string) (fromId : num) (remote : TaskDocument) :
  mutating (command text) = false ->
  (let h := Cloud.handleCommand cfg n text fromId in
   let w := (run h remote).1 in
   stored w = [] /\ persisted w = remote /\ run h (persisted w) = run h remote)
  /\ (let h := Lowdb.handleCommand d text in
      let w := (run h remote).1 in
      stored w = [] /\ persisted w = remote /\ run h (persisted w) = run h remote).
Proof.
  intros Hcmd.
  assert (forall (A : Type) (h : io A), 
            stored (run h remote).1 = [] /\ persisted (run h remote).1 = remote ->
            stored (run h remote).1 = [] /\ persisted (run h remote).1 = remote
            /\ run h (persisted (run h remote).1) = run h remote) as Hagain.
  { intros A h [H1 H2]. rewrite H2. done. }
  split; intros h w; subst h w; apply Hagain.
  - destruct (unauthorized cfg fromId) eqn:Hauth.
    { by rewrite cloud_handle_unauthorized. }
    rewrite cloud_handle_run by done. cbn [fst].
    pose proof (cloud_outcome_readonly (tokens text) (Cloud.loaded n remote) Hcmd) as Ho.
    destruct (Cloud.outcome (tokens text) (Cloud.loaded n remote)) as [o msg].
    cbn [fst] in Ho. subst o. by rewrite cloud_stored_reply.
  - rewrite lowdb_handle_run. unfold Lowdb.performed.
    destruct (Lowdb.outcome text) as [msg|k] eqn:Ho; [done|].
    destruct (Lowdb.read_ok d); [|done].
    pose proof (lowdb_outcome_readonly text k remote Hcmd Ho) as Hk.
    destruct (k remote) as [o msg]. cbn [fst] in Hk. by subst o.
Qed.

Lemma readonly_commands_never_write_witness :
  let remote := {| weekday := ["a"; "b"]; weekend := ["c"] |} in
  let text := "/view weekday" in
  (let h := Cloud.handleCommand cfg42 net_ok text sender42 in
   let w := (run h remote).1 in
   stored w = [] /\ persisted w = remote /\ run h (persisted w) = run h remote)
  /\ (let h := Lowdb.handleCommand disk_ok text in
      let w := (run h remote).1 in
      stored w = [] /\ persisted w = remote /\ run h (persisted w) = run h remote).
Proof.
  apply (readonly_commands_never_write cfg42 net_ok disk_ok "/view weekday" sender42
           {| weekday := ["a"; "b"]; weekend := ["c"] |}).
  evaluate.
Defined.

(** X4. The document a session of messages leaves depends only on the
    messages that can write: those of the authorized sender under /add,
    /edit or /remove whose save is taken by the backend. Every other
    message can be dropped from the session without changing the document
    it ends with. In both variants. *)
Theorem session_depends_on_effective_calls (cfg : config)
    (calls : list (Cloud.net * string * num)) (calls' : list (Lowdb.disk * string))
    (d : TaskDocument) :
  Cloud.session cfg calls d = Cloud.session cfg (List.filter (cloud_effective cfg) calls) d
  /\ Lowdb.session calls' d = Lowdb.session (List.filter lowdb_effective calls') d.
Proof.
  split.
  - unfold Cloud.session. revert d. induction calls as [|c calls IH]; intros d; [done|].
    cbn [foldl List.filter]. destruct (cloud_effective cfg c) eqn:E.
    + cbn [foldl]. apply IH.
    + rewrite cloud_after_skip by done. apply IH.
  - unfold Lowdb.session. revert d. induction calls' as [|c calls' IH]; intros d; [done|].
    cbn [foldl List.filter]. destruct (lowdb_effective c) eqn:E.
    + cbn [foldl]. apply IH.
    + rewrite lowdb_after_skip by done. apply IH.
Qed.

(** X5. Whatever a router hands to the storage is the document it loaded
    with one change to the list the message names, of the kind of its
    command word: /add puts a text that is not blank at the end, /edit puts
    one at a position the list has, /remove takes out the entry of one
    position, or none; the other list is as loaded. And the persisted
    document is then what was there or what was handed over. *)
Theorem every_write_is_one_change (cfg : config) (n : Cloud.net) (d : Lowdb.disk)
    (text : string) (fromId : num) (remote : TaskDocument) :
  (let w := (run (Cloud.handleCommand cfg n text fromId) remote).1 in
   let db := Cloud.loaded n remote in
   (persisted w = remote \/ persisted w ∈ stored w)
   /\ forall db', db' ∈ stored w ->
        exists name,
          list_arg text = Some name
          /\ list_step (command text) (get_list name db) (get_list name db')
          /\ get_list (other name) db' = get_list (other name) db)
  /\ (let w := (run (Lowdb.handleCommand d text) remote).1 in
      (persisted w = remote \/ persisted w ∈ stored w)
      /\ forall db', db' ∈ stored w ->
           exists name,
             list_arg text = Some name
             /\ list_step (command text) (get_list name remote) (get_list name db')
             /\ get_list (other name) db' = get_list (other name) remote).
Proof.
  split; intros w; [intros db; subst db|]; subst w.
  - destruct (unauthorized cfg fromId) eqn:Hauth.
    { rewrite cloud_handle_unauthorized by done. split; [by left|]. by intros db' H%elem_of_nil. }
    rewrite cloud_handle_run by done. cbn [fst].
    destruct (Cloud.outcome (tokens text) (Cloud.loaded n remote)) as [[db|] msg] eqn:Ho.
    + rewrite cloud_stored_save, cloud_persisted_save. split.
      * unfold Cloud.saved. destruct (Cloud.put n); [right; apply list_elem_of_here|by left..].
      * intros db' ->%list_elem_of_singleton.
        destruct (cloud_outcome_change _ _ _ _ Ho) as (name & l' & Hname & -> & Hch).
        exists name. by rewrite get_set_list, get_set_other.
    + rewrite cloud_stored_reply. split; [by left|]. by intros db' H%elem_of_nil.
  - rewrite lowdb_handle_run. unfold Lowdb.performed.
    destruct (Lowdb.outcome text) as [msg|k] eqn:Ho.
    { split; [by left|]. by intros db' H%elem_of_nil. }
    destruct (Lowdb.read_ok d); [|split; [by left|]; by intros db' H%elem_of_nil].
    destruct (k remote) as [[db|] msg] eqn:Hk;
      [|split; [by left|]; by intros db' H%elem_of_nil].
    assert (forall db', db' ∈ [db] ->
              exists name, list_arg text = Some name
                /\ list_step (command text) (get_list name remote) (get_list name db')
                /\ get_list (other name) db' = get_list (other name) remote) as Hone.
    { intros db' ->%list_elem_of_singleton.
      destruct (lowdb_outcome_change _ _ _ _ _ Ho Hk) as (name & l' & Hname & -> & Hch).
      exists name. by rewrite get_set_list, get_set_other. }
    destruct (Lowdb.write_ok d); (split; [|exact Hone]).
    + right. apply list_elem_of_here.
    + by left.
Qed.

(** ** Messages one after the other *)

Module StepFacts.

(** The document a message leaves: the one that was there, or the loaded
    one with one change to the list the message names. *)
Lemma cloud_persisted_change (cfg : config) (n : Cloud.net) (text : string) (fromId : num)
    (remote : TaskDocument) :
  let w := (run (Cloud.handleCommand cfg n text fromId) remote).1 in
  persisted w = remote
  \/ exists name l',
       list_arg text = Some name
       /\ persisted w = set_list name l' (Cloud.loaded n remote)
       /\ list_step (command text) (get_list name (Cloud.loaded n remote)) l'.
Proof.
  intros w. subst w. destruct (unauthorized cfg fromId) eqn:Hauth.
  { left. by rewrite cloud_handle_unauthorized. }
  rewrite cloud_handle_run by done. cbn [fst].
  destruct (cloud_persisted_cases n remote (Cloud.outcome (tokens text) (Cloud.loaded n remote)))
    as [E|(db' & Ho & _ & E)]; [by left|right].
  destruct (Cloud.outcome (tokens text) (Cloud.loaded n remote)) as [o msg] eqn:Hout.
  cbn [fst] in Ho. subst o.
  destruct (cloud_outcome_change _ _ _ _ Hout) as (name & l' & Hname & -> & Hch).
  by exists name, l'.
Qed.

Lemma lowdb_persisted_change (d : Lowdb.disk) (text : string) (file : TaskDocument) :
  let w := (run (Lowdb.handleCommand d text) file).1 in
  persisted w = file
  \/ exists name l',
       list_arg text = Some name
       /\ persisted w = set_list name l' file
       /\ list_step (command text) (get_list name file) l'.
Proof.
  intros w. subst w. rewrite lowdb_handle_run.
  destruct (lowdb_persisted_cases d file (Lowdb.outcome text))
    as [E|(k & db' & msg & Ho & Hk & _ & _ & E)]; [by left|right].
  destruct (lowdb_outcome_change _ _ _ _ _ Ho Hk) as (name & l' & Hname & -> & Hch).
  by exists name, l'.
Qed.

Lemma other_name (name name' : list_name) : name <> name' -> name = other name'.
Proof. by destruct name, name'. Qed.

Lemma name_cases (name name' : list_name) : name = name' \/ name = other name'.
Proof. destruct name, name'; auto. Qed.

(** The runs of the commands that write, with backends that work. *)
Section Runs.
Variables (cfg : config) (fromId : num) (n : Cloud.net) (d : Lowdb.disk).
Variables (text : string) (name : list_name) (remote : TaskDocument).
Hypothesis Hauth : unauthorized cfg fromId = false.
Hypothesis Hname : list_arg text = Some name.
Hypothesis Hfetch : Cloud.fetch_ok n = true.
Hypothesis Hput : Cloud.put n = Cloud.PutOk.
Hypothesis Hread : Lowdb.read_ok d = true.
Hypothesis Hwrite : Lowdb.write_ok d = true.

Lemma cloud_after_add :
  command text = "/add" -> task_arg text <> EmptyString ->
  Cloud.after cfg remote (n, text, fromId)
  = set_list name (get_list name remote ++ [task_arg text]) remote.
Proof using Hauth Hname Hfetch Hput.
  intros Hcmd Htask. unfold Cloud.after. cbn [fst snd].
  rewrite cloud_handle_run by done. cbn [fst]. unfold Cloud.loaded. rewrite Hfetch.
  rewrite (cloud_add text name remote Hname Hcmd Htask), cloud_persisted_save.
  unfold Cloud.saved. by rewrite Hput.
Qed.

Lemma lowdb_after_add :
  command text = "/add" -> task_arg text <> EmptyString ->
  Lowdb.after remote (d, text)
  = set_list name (get_list name remote ++ [task_arg text]) remote.
Proof using Hname Hread Hwrite.
  intros Hcmd Htask. unfold Lowdb.after. cbn [fst snd].
  rewrite lowdb_handle_run, (lowdb_add text name Hname Hcmd Htask).
  by rewrite (lowdb_performed_write d remote _ _ _ Hread eq_refl), Hwrite.
Qed.

Section Position.
Variables (i : nat) (x : string).
Hypothesis Hidx : index_arg text = of_nat i.
Hypothesis Hi : (1 <= i)%nat.
Hypothesis Hlen : Z.of_nat (length (get_list name remote)) < 2 ^ 32.
Hypothesis Hx : get_list name remote !! (i - 1)%nat = Some x.

Lemma cloud_run_remove :
  command text = "/remove" ->
  let w := (run (Cloud.handleCommand cfg n text fromId) remote).1 in
  persisted w = set_list name (delete (i - 1)%nat (get_list name remote)) remote
  /\ sent w = [Cloud.removed_text name x].
Proof using Hauth Hname Hfetch Hput Hidx Hi Hlen Hx.
  intros Hcmd w. subst w. rewrite cloud_handle_run by done. cbn [fst].
  unfold Cloud.loaded. rewrite Hfetch.
  rewrite (cloud_remove text name remote Hname i x Hidx Hi Hlen Hx Hcmd).
  rewrite cloud_persisted_save, cloud_sent_save. unfold Cloud.saved. by rewrite Hput.
Qed.

Lemma lowdb_run_remove :
  command text = "/remove" ->
  let w := (run (Lowdb.handleCommand d text) remote).1 in
  persisted w = set_list name (delete (i - 1)%nat (get_list name remote)) remote
  /\ sent w = [Lowdb.removed_text name x].
Proof using Hname Hread Hwrite Hidx Hi Hlen Hx.
  intros Hcmd w. subst w. rewrite lowdb_handle_run.
  destruct (lowdb_remove text name remote Hname i x Hidx Hi Hlen Hx Hcmd) as (k & -> & Hk).
  by rewrite (lowdb_performed_write d remote _ _ _ Hread Hk), Hwrite.
Qed.

Lemma cloud_run_edit :
  command text = "/edit" -> text_arg text <> EmptyString -> x <> EmptyString ->
  let w := (run (Cloud.handleCommand cfg n text fromId) remote).1 in
  persisted w = set_list name (<[(i - 1)%nat := text_arg text]> (get_list name remote)) remote
  /\ sent w = [Cloud.edited_text name (of_nat i) x (text_arg text)].
Proof using Hauth Hname Hfetch Hput Hidx Hi Hlen Hx.
  intros Hcmd Htext Hne w. subst w. rewrite cloud_handle_run by done. cbn [fst].
  unfold Cloud.loaded. rewrite Hfetch.
  rewrite (cloud_edit text name remote Hname i x Hidx Hi Hlen Hx Hcmd Htext Hne).
  rewrite cloud_persisted_save, cloud_sent_save. unfold Cloud.saved. by rewrite Hput.
Qed.

Lemma lowdb_run_edit :
  command text = "/edit" -> text_arg text <> EmptyString -> x <> EmptyString ->
  let w := (run (Lowdb.handleCommand d text) remote).1 in
  persisted w = set_list name (<[(i - 1)%nat := text_arg text]> (get_list name remote)) remote
  /\ sent w = [Lowdb.edited_text name (of_nat i) x (text_arg text)].
Proof using Hname Hread Hwrite Hidx Hi Hlen Hx.
  intros Hcmd Htext Hne w. subst w. rewrite lowdb_handle_run.
  destruct (lowdb_edit text name remote Hname i x Hidx Hi Hlen Hx Hcmd Htext Hne)
    as (k & -> & Hk).
  by rewrite (lowdb_performed_write d remote _ _ _ Hread Hk), Hwrite.
Qed.

End Position.
End Runs.

Lemma set_list_set_list (name : list_name) (l l' : list string) (db : TaskDocument) :
  set_list name l' (set_list name l db) = set_list name l' db.
Proof. by destruct name. Qed.

Lemma delete_snoc (l : list string) (t : string) : delete (length l) (l ++ [t]) = l.
Proof.
  rewrite delete_take_drop, take_app_length.
  rewrite drop_app_ge by lia. replace (S (length l) - length l)%nat with 1%nat by lia.
  cbn [drop]. apply app_nil_r.
Qed.

End StepFacts.
Import StepFacts.

(** X6. A message never changes the list it does not name: the lowdb
    router whatever the disk and the send do, the JSONBin router whenever
    its fetch succeeds. *)
Theorem unnamed_list_is_untouched (cfg : config) (n : Cloud.net) (d : Lowdb.disk)
    (text : string) (fromId : num) (remote : TaskDocument) (name : list_name) :
  list_arg text <> Some name ->
  (Cloud.fetch_ok n = true ->
   get_list name (persisted (run (Cloud.handleCommand cfg n text fromId) remote).1)
   = get_list name remote)
  /\ get_list name (persisted (run (Lowdb.handleCommand d text) remote).1)
     = get_list name remote.
Proof.
  intros Hname. split.
  - intros Hfetch.
    destruct (cloud_persisted_change cfg n text fromId remote)
      as [->|(name' & l' & Hn & -> & _)]; [done|].
    unfold Cloud.loaded. rewrite Hfetch.
    rewrite (other_name name name') by congruence. apply get_set_other.
  - destruct (lowdb_persisted_change d text remote) as [->|(name' & l' & Hn & -> & _)]; [done|].
    rewrite (other_name name name') by congruence. apply get_set_other.
Qed.

Lemma unnamed_list_is_untouched_witness :
  let remote := {| weekday := ["a"; "b"]; weekend := ["c"] |} in
  let text := "/remove weekday 1" in
  (Cloud.fetch_ok net_ok = true ->
   get_list Weekend (persisted (run (Cloud.handleCommand cfg42 net_ok text sender42) remote).1)
   = get_list Weekend remote)
  /\ get_list Weekend (persisted (run (Lowdb.handleCommand disk_ok text) remote).1)
     = get_list Weekend remote.
Proof.
  apply (unnamed_list_is_untouched cfg42 net_ok disk_ok "/remove weekday 1" sender42
           {| weekday := ["a"; "b"]; weekend := ["c"] |} Weekend).
  vm_compute. discriminate.
Defined.

(** X7. One message changes the length of a list by at most one. A list
    gets longer only under /add and shorter only under /remove, and only
    the list the message names. The lowdb router whatever the disk and the
    send do, the JSONBin router whenever its fetch succeeds. *)
Theorem lists_grow_and_shrink_by_one (cfg : config) (n : Cloud.net) (d : Lowdb.disk)
    (text : string) (fromId : num) (remote : TaskDocument) (name : list_name) :
  let l := get_list name remote in
  let bounded (l' : list string) :=
    ((length l' <= length l + 1)%nat /\ (length l <= length l' + 1)%nat)
    /\ (length l' = (length l + 1)%nat -> command text = "/add" /\ list_arg text = Some name)
    /\ ((length l' + 1)%nat = length l ->
        command text = "/remove" /\ list_arg text = Some name) in
  (Cloud.fetch_ok n = true ->
   bounded (get_list name (persisted (run (Cloud.handleCommand cfg n text fromId) remote).1)))
  /\ bounded (get_list name (persisted (run (Lowdb.handleCommand d text) remote).1)).
Proof.
  intros l bounded.
  assert (bounded l) as Hsame by (unfold bounded; repeat split; lia).
  assert (forall name' l', list_step (command text) (get_list name' remote) l' ->
            list_arg text = Some name' ->
            bounded (get_list name (set_list name' l' remote))) as Hstep.
  { intros name' l' Hch Hn. destruct (name_cases name name') as [<-|Hne].
    - rewrite get_set_list. destruct (list_step_length _ _ _ Hch) as (Hb & Hup & Hdown).
      unfold bounded. fold l in Hb, Hup, Hdown. repeat split; try lia; auto.
    - rewrite Hne, get_set_other. by rewrite <- Hne. }
  split.
  - intros Hfetch.
    destruct (cloud_persisted_change cfg n text fromId remote)
      as [->|(name' & l' & Hn & -> & Hch)]; [done|].
    unfold Cloud.loaded in *. rewrite Hfetch in *. by apply Hstep.
  - destruct (lowdb_persisted_change d text remote) as [->|(name' & l' & Hn & -> & Hch)];
      [done|]. by apply Hstep.
Qed.

(** X8. A document saved by saveData is the one the next getData gives
    back: after a PUT that succeeds, a fetch that succeeds loads exactly the
    document saved, both lists entry by entry (its JSON form is read back
    as the same document); after a PUT that fails it loads the document
    that was in the bin before. *)
Theorem save_then_load_round_trip (n1 n2 : Cloud.net) (data : TaskDocument) (w : world) :
  Cloud.fetch_ok n2 = true ->
  let r := (Cloud.saveData n1 data ;; Cloud.getDocument n2) w in
  (Cloud.put n1 = Cloud.PutOk -> r.2 = Done data /\ persisted r.1 = data)
  /\ (Cloud.put n1 <> Cloud.PutOk -> r.2 = Done (persisted w) /\ persisted r.1 = persisted w)
  /\ Json.decode (Json.encode data) = Some data
  /\ stored r.1 = stored w ++ [data].
Proof.
  intros Hfetch r.
  assert (r = ({| persisted := Cloud.saved n1 data (persisted w);
                  trace := (trace w ++ [Store data; Log (Cloud.save_line n1)]) ++ [Fetch] |},
               Done (Cloud.saved n1 data (persisted w)))) as ->.
  { subst r. unfold bind. rewrite saveData_run, getDocument_run.
    unfold Cloud.loaded, Cloud.fetch_trace. by rewrite Hfetch. }
  cbn [fst snd persisted trace]. unfold Cloud.saved. split; [|split; [|split]].
  - by intros ->.
  - by destruct (Cloud.put n1).
  - apply decode_encode.
  - unfold stored. cbn [trace]. rewrite !omap_app. cbn. by rewrite app_nil_r.
Qed.

Lemma save_then_load_round_trip_witness :
  let data := {| weekday := ["a"; "b"]; weekend := ["c"] |} in
  let r := (Cloud.saveData net_ok data ;; Cloud.getDocument net_ok)
             {| persisted := default_doc; trace := [] |} in
  r.2 = Done data /\ persisted r.1 = data.
Proof.
  apply (save_then_load_round_trip net_ok net_ok {| weekday := ["a"; "b"]; weekend := ["c"] |}
           {| persisted := default_doc; trace := [] |}); reflexivity.
Defined.

(** X9. When the fetch fails and the save succeeds, a command that writes
    replaces the whole bin by what it made of the default document: /add
    leaves a document that holds the new task and nothing else, and /remove
    with any index that passes the guard leaves both lists empty and
    answers that the index is out of range. What was in the bin is lost. *)
Theorem failed_fetch_then_write_overwrites (cfg : config) (n : Cloud.net) (text : string)
    (fromId : num) (remote : TaskDocument) (name : list_name) :
  unauthorized cfg fromId = false -> list_arg text = Some name ->
  Cloud.fetch_ok n = false -> Cloud.put n = Cloud.PutOk ->
  let w := (run (Cloud.handleCommand cfg n text fromId) remote).1 in
  (command text = "/add" -> task_arg text <> EmptyString ->
   persisted w = set_list name [task_arg text] default_doc
   /\ sent w = ["✅ Added to *" +:+ name_str name +:+ "*: " +:+ (task_arg text)])
  /\ (command text = "/remove" -> falsy (index_arg text) = false ->
      persisted w = default_doc /\ sent w = ["❌ Index out of range."]).
Proof.
  intros Hauth Hname Hfetch Hput w. subst w. rewrite cloud_handle_run by done. cbn [fst].
  unfold Cloud.loaded. rewrite Hfetch. split.
  - intros Hcmd Htask. rewrite (cloud_add text name default_doc Hname Hcmd Htask).
    rewrite cloud_persisted_save, cloud_sent_save. unfold Cloud.saved. rewrite Hput.
    by destruct name.
  - intros Hcmd Hidx. unfold Cloud.outcome, command, list_arg, index_arg in *.
    rewrite Hcmd, Hname, Hidx. eqb_literals.
    assert (get_list name default_doc = []) as -> by (by destruct name).
    destruct (splice1_cases [] (sub (Number (tokens text !! 2%nat)) one))
      as [->|(i & x & Hx & _)]; [|done].
    rewrite cloud_persisted_save, cloud_sent_save. unfold Cloud.saved. rewrite Hput.
    by destruct name.
Qed.

Lemma failed_fetch_then_write_overwrites_witness :
  let n := {| Cloud.fetch_ok := false; Cloud.put := Cloud.PutOk |} in
  let remote := {| weekday := ["a"; "b"]; weekend := ["c"] |} in
  let w := (run (Cloud.handleCommand cfg42 n "/remove weekday 1" sender42) remote).1 in
  persisted w = default_doc /\ sent w = ["❌ Index out of range."].
Proof.
  apply (failed_fetch_then_write_overwrites cfg42
           {| Cloud.fetch_ok := false; Cloud.put := Cloud.PutOk |} "/remove weekday 1"
           sender42 {| weekday := ["a"; "b"]; weekend := ["c"] |} Weekday); evaluate.
Defined.

(** X10. Positions are reused: once /remove has taken the entry at
    position [i], the same message sent again takes the entry that was
    next, the one that stood at position [i + 1]. In both variants, with
    backends that work. *)
Theorem remove_twice_takes_the_next_entry
    (cfg : config) (fromId : num) (text : string) (name : list_name) (i : nat)
    (x y : string) (n : Cloud.net) (d : Lowdb.disk) (remote : TaskDocument) :
  unauthorized cfg fromId = false ->
  command text = "/remove" -> list_arg text = Some name -> index_arg text = of_nat i ->
  (1 <= i)%nat ->
  get_list name remote !! (i - 1)%nat = Some x -> get_list name remote !! i = Some y ->
  Z.of_nat (length (get_list name remote)) < 2 ^ 32 ->
  Cloud.fetch_ok n = true -> Cloud.put n = Cloud.PutOk ->
  Lowdb.read_ok d = true -> Lowdb.write_ok d = true ->
  let l2 := delete (i - 1)%nat (delete (i - 1)%nat (get_list name remote)) in
  (let w1 := (run (Cloud.handleCommand cfg n text fromId) remote).1 in
   let w2 := (run (Cloud.handleCommand cfg n text fromId) (persisted w1)).1 in
   sent w1 = ["🗑️ Removed from *" +:+ name_str name +:+ "*: " +:+ x]
   /\ sent w2 = ["🗑️ Removed from *" +:+ name_str name +:+ "*: " +:+ y]
   /\ persisted w2 = set_list name l2 remote)
  /\ (let w1 := (run (Lowdb.handleCommand d text) remote).1 in
      let w2 := (run (Lowdb.handleCommand d text) (persisted w1)).1 in
      sent w1 = ["Removed from *" +:+ name_str name +:+ "*: " +:+ x]
      /\ sent w2 = ["Removed from *" +:+ name_str name +:+ "*: " +:+ y]
      /\ persisted w2 = set_list name l2 remote).
Proof.
  intros Hauth Hcmd Hname Hidx Hi Hx Hy Hlen Hfetch Hput Hread Hwrite l2.
  set (db1 := set_list name (delete (i - 1)%nat (get_list name remote)) remote).
  assert (get_list name db1 = delete (i - 1)%nat (get_list name remote)) as Hl1
    by apply get_set_list.
  assert (get_list name db1 !! (i - 1)%nat = Some y) as Hy1.
  { rewrite Hl1, list_lookup_delete_ge by lia. by replace (S (i - 1)) with i by lia. }
  assert (Z.of_nat (length (get_list name db1)) < 2 ^ 32) as Hlen1.
  { rewrite Hl1, length_delete by eauto. lia. }
  assert (set_list name (delete (i - 1)%nat (get_list name db1)) db1 = set_list name l2 remote)
    as Hdb2 by (rewrite Hl1; apply set_list_set_list).
  split; intros w1 w2; subst w1 w2.
  - destruct (cloud_run_remove cfg fromId n text name remote Hauth Hname Hfetch Hput
                i x Hidx Hi Hlen Hx Hcmd) as [-> ->]. fold db1.
    destruct (cloud_run_remove cfg fromId n text name db1 Hauth Hname Hfetch Hput
                i y Hidx Hi Hlen1 Hy1 Hcmd) as [-> ->].
    by rewrite Hdb2.
  - destruct (lowdb_run_remove d text name remote Hname Hread Hwrite
                i x Hidx Hi Hlen Hx Hcmd) as [-> ->]. fold db1.
    destruct (lowdb_run_remove d text name db1 Hname Hread Hwrite
                i y Hidx Hi Hlen1 Hy1 Hcmd) as [-> ->].
    by rewrite Hdb2.
Qed.

Lemma remove_twice_takes_the_next_entry_witness :
  let text := "/remove weekday 2" in
  let remote := {| weekday := ["a"; "b"; "c"; "d"]; weekend := ["z"] |} in
  let l2 := delete (2 - 1)%nat (delete (2 - 1)%nat (get_list Weekday remote)) in
  (let w1 := (run (Cloud.handleCommand cfg42 net_ok text sender42) remote).1 in
   let w2 := (run (Cloud.handleCommand cfg42 net_ok text sender42) (persisted w1)).1 in
   sent w1 = ["🗑️ Removed from *" +:+ name_str Weekday +:+ "*: " +:+ "b"]
   /\ sent w2 = ["🗑️ Removed from *" +:+ name_str Weekday +:+ "*: " +:+ "c"]
   /\ persisted w2 = set_list Weekday l2 remote)
  /\ (let w1 := (run (Lowdb.handleCommand disk_ok text) remote).1 in
      let w2 := (run (Lowdb.handleCommand disk_ok text) (persisted w1)).1 in
      sent w1 = ["Removed from *" +:+ name_str Weekday +:+ "*: " +:+ "b"]
      /\ sent w2 = ["Removed from *" +:+ name_str Weekday +:+ "*: " +:+ "c"]
      /\ persisted w2 = set_list Weekday l2 remote).
Proof.
  apply (remove_twice_takes_the_next_entry cfg42 sender42 "/remove weekday 2" Weekday 2 "b" "c"
           net_ok disk_ok {| weekday := ["a"; "b"; "c"; "d"]; weekend := ["z"] |});
    solve [evaluate | vm_compute; lia].
Defined.

(** X11. /add followed by /remove of the position just filled, the length
    of the list plus one, gives back the document as it was, and the reply
    to the /remove echoes the text that was added. In both variants, with
    backends that work. *)
Theorem add_then_remove_last_restores
    (cfg : config) (fromId : num) (add remove : string) (name : list_name)
    (n1 n2 : Cloud.net) (d1 d2 : Lowdb.disk) (remote : TaskDocument) :
  unauthorized cfg fromId = false ->
  command add = "/add" -> list_arg add = Some name -> task_arg add <> EmptyString ->
  command remove = "/remove" -> list_arg remove = Some name ->
  index_arg remove = of_nat (S (length (get_list name remote))) ->
  Z.of_nat (S (length (get_list name remote))) < 2 ^ 32 ->
  Cloud.fetch_ok n1 = true -> Cloud.put n1 = Cloud.PutOk ->
  Cloud.fetch_ok n2 = true -> Cloud.put n2 = Cloud.PutOk ->
  Lowdb.read_ok d1 = true -> Lowdb.write_ok d1 = true ->
  Lowdb.read_ok d2 = true -> Lowdb.write_ok d2 = true ->
  (let w1 := (run (Cloud.handleCommand cfg n1 add fromId) remote).1 in
   let w2 := (run (Cloud.handleCommand cfg n2 remove fromId) (persisted w1)).1 in
   persisted w2 = remote
   /\ sent w2 = ["🗑️ Removed from *" +:+ name_str name +:+ "*: " +:+ (task_arg add)])
  /\ (let w1 := (run (Lowdb.handleCommand d1 add) remote).1 in
      let w2 := (run (Lowdb.handleCommand d2 remove) (persisted w1)).1 in
      persisted w2 = remote
      /\ sent w2 = ["Removed from *" +:+ name_str name +:+ "*: " +:+ (task_arg add)]).
Proof.
  intros Hauth Hadd Hname Htask Hrem Hname' Hidx Hlen Hf1 Hp1 Hf2 Hp2 Hr1 Hw1 Hr2 Hw2.
  set (db1 := set_list name (get_list name remote ++ [task_arg add]) remote).
  assert (get_list name db1 = get_list name remote ++ [task_arg add]) as Hl1
    by apply get_set_list.
  assert (get_list name db1 !! (S (length (get_list name remote)) - 1)%nat
          = Some (task_arg add)) as Hx.
  { rewrite Hl1. replace (S (length (get_list name remote)) - 1)%nat
      with (length (get_list name remote) + 0)%nat by lia.
    by rewrite lookup_app_r, Nat.add_comm, Nat.add_sub by lia. }
  assert (Z.of_nat (length (get_list name db1)) < 2 ^ 32) as Hlen1.
  { rewrite Hl1, length_app. cbn [length]. lia. }
  assert (set_list name (delete (S (length (get_list name remote)) - 1)%nat (get_list name db1))
            db1 = remote) as Hback.
  { rewrite Hl1. replace (S (length (get_list name remote)) - 1)%nat
      with (length (get_list name remote)) by lia.
    subst db1. rewrite delete_snoc, set_list_set_list. apply set_list_get_list. }
  split; intros w1 w2; subst w1 w2.
  - pose proof (cloud_after_add cfg fromId n1 add name remote Hauth Hname Hf1 Hp1 Hadd Htask)
      as E. unfold Cloud.after in E. cbn [fst snd] in E. rewrite E. fold db1.
    destruct (cloud_run_remove cfg fromId n2 remove name db1 Hauth Hname' Hf2 Hp2
                _ _ Hidx ltac:(lia) Hlen1 Hx Hrem) as [-> ->].
    by rewrite Hback.
  - pose proof (lowdb_after_add d1 add name remote Hname Hr1 Hw1 Hadd Htask) as E.
    unfold Lowdb.after in E. cbn [fst snd] in E. rewrite E. fold db1.
    destruct (lowdb_run_remove d2 remove name db1 Hname' Hr2 Hw2
                _ _ Hidx ltac:(lia) Hlen1 Hx Hrem) as [-> ->].
    by rewrite Hback.
Qed.

Lemma add_then_remove_last_restores_witness :
  let add := "/add weekday Buy milk" in
  let remove := "/remove weekday 3" in
  let remote := {| weekday := ["a"; "b"]; weekend := ["z"] |} in
  (let w1 := (run (Cloud.handleCommand cfg42 net_ok add sender42) remote).1 in
   let w2 := (run (Cloud.handleCommand cfg42 net_ok remove sender42) (persisted w1)).1 in
   persisted w2 = remote
   /\ sent w2 = ["🗑️ Removed from *" +:+ name_str Weekday +:+ "*: " +:+ (task_arg add)])
  /\ (let w1 := (run (Lowdb.handleCommand disk_ok add) remote).1 in
      let w2 := (run (Lowdb.handleCommand disk_ok remove) (persisted w1)).1 in
      persisted w2 = remote
      /\ sent w2 = ["Removed from *" +:+ name_str Weekday +:+ "*: " +:+ (task_arg add)]).
Proof.
  apply (add_then_remove_last_restores cfg42 sender42 "/add weekday Buy milk"
           "/remove weekday 3" Weekday net_ok net_ok disk_ok disk_ok
           {| weekday := ["a"; "b"]; weekend := ["z"] |});
    solve [evaluate | discriminate | vm_compute; lia].
Defined.



(** X13. /remove writes before it looks at what it removed: with an index
    past the end of the list both routers hand the unchanged document to
    the storage and only then answer that the index is out of range; in the
    lowdb variant a write that rejects then ends the command with no answer
    at all, and after a write that succeeds the command ends as its send
    does. /edit with such an index answers without writing. Either way the
    persisted document is as it was. *)
Theorem out_of_range_remove_still_writes
    (cfg : config) (n : Cloud.net) (d : Lowdb.disk) (text : string) (fromId : num)
    (name : list_name) (i : nat) (remote : TaskDocument) :
  unauthorized cfg fromId = false ->
  list_arg text = Some name -> index_arg text = of_nat i ->
  (length (get_list name remote) < i)%nat -> Z.of_nat i < 2 ^ 53 ->
  Cloud.fetch_ok n = true -> Lowdb.read_ok d = true ->
  (command text = "/remove" ->
   (let w := (run (Cloud.handleCommand cfg n text fromId) remote).1 in
    stored w = [remote] /\ persisted w = remote /\ sent w = ["❌ Index out of range."])
   /\ (let r := run (Lowdb.handleCommand d text) remote in
       stored r.1 = [remote] /\ persisted r.1 = remote
       /\ (Lowdb.write_ok d = true ->
           sent r.1 = ["Index out of range."] /\ r.2 = Lowdb.replied d)
       /\ (Lowdb.write_ok d = false -> sent r.1 = [] /\ r.2 = Thrown)))
  /\ (command text = "/edit" -> text_arg text <> EmptyString ->
      (let w := (run (Cloud.handleCommand cfg n text fromId) remote).1 in
       stored w = [] /\ persisted w = remote /\ sent w = ["❌ Index out of range."])
      /\ (let w := (run (Lowdb.handleCommand d text) remote).1 in
          stored w = [] /\ persisted w = remote /\ sent w = ["Index out of range."])).
Proof.
  intros Hauth Hname Hidx Hlt Hb Hfetch Hread.
  assert (1 <= i)%nat as Hi by lia.
  assert (falsy (of_nat i) = false /\ isInteger (of_nat i) = true /\ ltb (of_nat i) one = false)
    as (Hf & Hint & Hone)
    by (unfold of_nat; rewrite falsy_of_Z, isInteger_of_Z, ltb_of_Z_one by lia; done).
  split.
  - intros Hcmd. split; [intros w|intros r]; [subst w|subst r].
    + rewrite cloud_handle_run by done. unfold Cloud.loaded. rewrite Hfetch.
      unfold Cloud.outcome, command, list_arg, index_arg in *.
      rewrite Hcmd, Hname, Hidx. eqb_literals. rewrite Hf.
      rewrite splice1_beyond, set_list_get_list by done. cbn [fst].
      rewrite cloud_stored_save, cloud_sent_save, cloud_persisted_save.
      unfold Cloud.saved. by destruct (Cloud.put n).
    + rewrite lowdb_handle_run.
      unfold Lowdb.outcome, command, list_arg, index_arg, tokens in *.
      rewrite Hcmd, Hname, Hidx. eqb_literals. rewrite Hint, Hone. cbn [negb orb].
      erewrite lowdb_performed_write; [|done|]; cycle 1.
      { cbn beta. rewrite splice1_beyond, set_list_get_list by done. reflexivity. }
      destruct (Lowdb.write_ok d); done.
  - intros Hcmd Htext. split; intros w; subst w.
    + rewrite cloud_handle_run by done. unfold Cloud.loaded. rewrite Hfetch.
      unfold Cloud.outcome, command, list_arg, index_arg, text_arg in *.
      rewrite Hcmd, Hname, Hidx. eqb_literals. rewrite Hf, eqb_nonempty by done. cbn [orb].
      rewrite get_beyond by done. cbn [fst]. by rewrite cloud_stored_reply, cloud_sent_reply.
    + rewrite lowdb_handle_run.
      unfold Lowdb.outcome, command, list_arg, index_arg, text_arg, tokens in *.
      rewrite Hcmd, Hname, Hidx. eqb_literals.
      rewrite Hint, Hone, eqb_nonempty by done. cbn [negb orb].
      erewrite lowdb_performed_read; [done|done|]. cbn beta. by rewrite get_beyond.
Qed.

Lemma out_of_range_remove_still_writes_witness :
  let remote := {| weekday := ["a"; "b"]; weekend := [] |} in
  let text := "/remove weekday 5" in
  let d := {| Lowdb.read_ok := true; Lowdb.write_ok := false; Lowdb.reply_ok := true |} in
  (let w := (run (Cloud.handleCommand cfg42 net_ok text sender42) remote).1 in
   stored w = [remote] /\ persisted w = remote /\ sent w = ["❌ Index out of range."])
  /\ (let r := run (Lowdb.handleCommand d text) remote in
      stored r.1 = [remote] /\ persisted r.1 = remote
      /\ (Lowdb.write_ok d = true ->
          sent r.1 = ["Index out of range."] /\ r.2 = Lowdb.replied d)
      /\ (Lowdb.write_ok d = false -> sent r.1 = [] /\ r.2 = Thrown)).
Proof.
  apply (out_of_range_remove_still_writes cfg42 net_ok
           {| Lowdb.read_ok := true; Lowdb.write_ok := false; Lowdb.reply_ok := true |}
           "/remove weekday 5" sender42 Weekday 5 {| weekday := ["a"; "b"]; weekend := [] |});
    solve [evaluate | vm_compute; lia].
Defined.

(** ** The routes *)

Module RouteFacts.

(** A router answers no HTTP request itself. *)
Lemma cloud_handle_responses (cfg : config) (n : Cloud.net) (text fromId : Json.value)
    (remote : TaskDocument) :
  omap (fun e => match e with Respond status body => Some (status, body) | _ => None end)
       (trace (run (Cloud.handleCommand cfg n text fromId) remote).1) = [].
Proof.
  destruct (unauthorized cfg fromId) eqn:Hauth.
  { by rewrite cloud_handle_unauthorized. }
  destruct (as_text_cases text) as [[s ->]|Htext]; [|by rewrite cloud_handle_not_text].
  rewrite cloud_handle_run by done. cbn [fst].
  destruct (Cloud.outcome (tokens s) (Cloud.loaded n remote)) as [[db|] msg];
    unfold Cloud.performed, Cloud.fetch_trace; by destruct (Cloud.fetch_ok n).
Qed.

Lemma lowdb_handle_responses (d : Lowdb.disk) (text : Json.value) (file : TaskDocument) :
  omap (fun e => match e with Respond status body => Some (status, body) | _ => None end)
       (trace (run (Lowdb.handleCommand d text) file).1) = [].
Proof.
  destruct (as_text_cases text) as [[s ->]|Htext];
    [|by unfold run; rewrite lowdb_handle_not_text].
  rewrite lowdb_handle_run. unfold Lowdb.performed.
  destruct (Lowdb.outcome s) as [msg|k]; [done|].
  destruct (Lowdb.read_ok d); [|done].
  destruct (k file) as [[data'|] msg]; [|done]. by destruct (Lowdb.write_ok d).
Qed.

(** The runs of the digest. *)
Lemma cloud_daily_run (n : Cloud.net) (now : Z) (remote : TaskDocument) :
  run (Cloud.daily n now) remote
  = let which := getListTypeByDay now in
    ({| persisted := remote;
        trace := Cloud.fetch_trace n
                 ++ [Send match get_list which (Cloud.loaded n remote) with
                          | [] => "✅ You have no *" +:+ name_str which +:+ "* tasks today!"
                          | l => Cloud.digest_text which l
                          end;
                     Respond 200 "✅ Daily list sent to Telegram."] |}, Done tt).
Proof.
  unfold run, Cloud.daily, bind. rewrite getDocument_run. cbn [persisted trace app].
  unfold Cloud.sendTelegram, emit. cbn [persisted trace]. rewrite <- app_assoc.
  by destruct (get_list (getListTypeByDay now) (Cloud.loaded n remote)).
Qed.

Lemma cloud_cron_run (n : Cloud.net) (now : Z) (remote : TaskDocument) :
  run (Cloud.cron n now) remote
  = let which := getListTypeByDay now in
    ({| persisted := remote;
        trace := Log "⏰ Running daily 10 AM reminder..." :: Cloud.fetch_trace n
                 ++ [Send match get_list which (Cloud.loaded n remote) with
                          | [] => "✅ No *" +:+ name_str which
                                  +:+ "* tasks today! Enjoy your day ☀️"
                          | l => Cloud.digest_text which l
                          end] |}, Done tt).
Proof.
  unfold run, Cloud.cron, bind, emit at 1. rewrite getDocument_run. cbn [persisted trace app].
  unfold Cloud.sendTelegram, emit. cbn [persisted trace].
  by destruct (get_list (getListTypeByDay now) (Cloud.loaded n remote)).
Qed.

Lemma lowdb_daily_run (d : Lowdb.disk) (now : Z) (file : TaskDocument) :
  run (Lowdb.daily d now) file
  = let msg := Lowdb.digest_header (istDayType now)
               +:+ prettyList (get_list (istDayType now) file) in
    if Lowdb.read_ok d
    then if Lowdb.reply_ok d
         then ({| persisted := file;
                  trace := [Fetch; Send msg; Respond 200 "Sent today's to-do list."] |},
               Done tt)
         else ({| persisted := file; trace := [Fetch; Send msg] |}, Thrown)
    else ({| persisted := file; trace := [Fetch] |}, Thrown).
Proof.
  unfold run, Lowdb.daily, Lowdb.db_read, Lowdb.sendTelegram, emit, read_persisted, throw.
  unfold bind. cbn [persisted trace app].
  destruct (Lowdb.read_ok d); [|done]. by destruct (Lowdb.reply_ok d).
Qed.

End RouteFacts.
Import RouteFacts.



(** X16. The daily digest cannot change the document: GET / of both
    variants and the scheduled task fetch the document once, hand nothing
    to the storage and leave the persisted document as it was. The JSONBin
    routes, for a bin that holds a task document, always send one message
    (and GET / answers 200). The lowdb route sends its message when db.json
    can be read, and answers 200 when the reply to the send can be parsed as
    well; when it cannot, the route throws once the message is out and
    answers nothing, as it does, before anything is sent, when the read
    rejects. *)
Theorem digest_never_writes (n : Cloud.net) (d : Lowdb.disk) (now : Z) (remote : TaskDocument) :
  let quiet (w : world) := stored w = [] /\ persisted w = remote /\ fetches w = 1%nat in
  (let r := run (Cloud.daily n now) remote in
   quiet r.1 /\ r.2 = Done tt /\ length (sent r.1) = 1%nat
   /\ responses r.1 = [(200%nat, "✅ Daily list sent to Telegram.")])
  /\ (let r := run (Cloud.cron n now) remote in
      quiet r.1 /\ r.2 = Done tt /\ length (sent r.1) = 1%nat /\ responses r.1 = [])
  /\ (let r := run (Lowdb.daily d now) remote in
      quiet r.1
      /\ (Lowdb.read_ok d = true -> length (sent r.1) = 1%nat)
      /\ (Lowdb.read_ok d = true -> Lowdb.reply_ok d = true ->
          r.2 = Done tt /\ responses r.1 = [(200%nat, "Sent today's to-do list.")])
      /\ (Lowdb.read_ok d = true -> Lowdb.reply_ok d = false ->
          r.2 = Thrown /\ responses r.1 = [])
      /\ (Lowdb.read_ok d = false -> r.2 = Thrown /\ sent r.1 = [] /\ responses r.1 = [])).
Proof.
  intros quiet. subst quiet. cbv zeta.
  rewrite cloud_daily_run, cloud_cron_run, lowdb_daily_run. cbv zeta.
  unfold Cloud.fetch_trace, fetches, responses, sent, stored.
  destruct (Cloud.fetch_ok n), (Lowdb.read_ok d), (Lowdb.reply_ok d); cbn; repeat split; done.
Qed.

(** X17. When the fetch fails, the digest of the JSONBin variant says that
    there are no tasks, whatever the bin holds: getData falls back to the
    empty document, and GET / and the scheduled task send their messages
    for an empty list. *)
Theorem failed_fetch_digest_says_no_tasks (n : Cloud.net) (now : Z) (remote : TaskDocument) :
  Cloud.fetch_ok n = false ->
  let which := getListTypeByDay now in
  sent (run (Cloud.daily n now) remote).1
  = ["✅ You have no *" +:+ name_str which +:+ "* tasks today!"]
  /\ sent (run (Cloud.cron n now) remote).1
     = ["✅ No *" +:+ name_str which +:+ "* tasks today! Enjoy your day ☀️"]
  /\ Log "❌ Failed to fetch data:" ∈ trace (run (Cloud.daily n now) remote).1.
Proof.
  intros Hfetch which. subst which.
  assert (forall name, get_list name default_doc = []) as Hempty by (by intros []).
  rewrite cloud_daily_run, cloud_cron_run. cbv zeta.
  unfold Cloud.loaded, Cloud.fetch_trace. rewrite Hfetch, Hempty.
  split; [done|]. split; [done|]. cbn. apply list_elem_of_further, list_elem_of_here.
Qed.

Lemma failed_fetch_digest_says_no_tasks_witness :
  let n := {| Cloud.fetch_ok := false; Cloud.put := Cloud.PutOk |} in
  let remote := {| weekday := ["a"]; weekend := ["b"] |} in
  let which := getListTypeByDay 1762000000000 in
  sent (run (Cloud.daily n 1762000000000) remote).1
  = ["✅ You have no *" +:+ name_str which +:+ "* tasks today!"]
  /\ sent (run (Cloud.cron n 1762000000000) remote).1
     = ["✅ No *" +:+ name_str which +:+ "* tasks today! Enjoy your day ☀️"]
  /\ Log "❌ Failed to fetch data:" ∈ trace (run (Cloud.daily n 1762000000000) remote).1.
Proof.
  apply (failed_fetch_digest_says_no_tasks {| Cloud.fetch_ok := false; Cloud.put := Cloud.PutOk |}
           1762000000000 {| weekday := ["a"]; weekend := ["b"] |}).
  reflexivity.
Defined.

(** X18. The list of the day as a function of the clock: with the time in
    milliseconds since the epoch, the weekend list is selected exactly
    during the two days that start on Friday at 18:30 UTC, which is
    midnight of Saturday in Asia/Kolkata, and the selection repeats every
    week. *)
Theorem weekend_window (now : Z) :
  0 <= now ->
  let day := 86400000 in
  let week := 7 * day in
  (getListTypeByDay now = Weekend <-> 2 * day <= (now + 19800000) mod week < 4 * day)
  /\ (getListTypeByDay now = Weekend
      <-> day + 66600000 <= now mod week < 3 * day + 66600000)
  /\ (getListTypeByDay now = Weekday <-> getListTypeByDay now <> Weekend)
  /\ getListTypeByDay (now + week) = getListTypeByDay now
  /\ istDayType now = getListTypeByDay now.
Proof.
  intros Hnow day week.
  assert (forall t, getListTypeByDay t = Weekend
                    <-> 2 * day <= (t + 19800000) mod week < 4 * day) as Hsel.
  { intros t. unfold getListTypeByDay, weekdayName.
    set (q := (t + 19800000) / 86400000).
    assert ((t + 19800000) mod week = day * (q mod 7) + (t + 19800000) mod day) as ->.
    { unfold week, day, q. rewrite (Z.mul_comm 7), Z.rem_mul_r by lia. lia. }
    assert (0 <= (t + 19800000) mod day < day) as Hlow by (apply Z.mod_pos_bound; lia).
    assert ((q + 4) mod 7 = (q mod 7 + 4) mod 7) as -> by (by rewrite Zplus_mod_idemp_l).
    assert (0 <= q mod 7 < 7) as Hq by (apply Z.mod_pos_bound; lia).
    assert (q mod 7 = 0 \/ q mod 7 = 1 \/ q mod 7 = 2 \/ q mod 7 = 3
            \/ q mod 7 = 4 \/ q mod 7 = 5 \/ q mod 7 = 6) as Hc by lia.
    unfold day in *.
    destruct Hc as [->|[->|[->|[->|[->|[->| ->]]]]]]; cbn; split; intros; (done || lia). }
  split; [apply Hsel|]. split; [|split; [|split; [|done]]].
  - rewrite Hsel.
    assert (0 <= now mod week < week) as Hm by (apply Z.mod_pos_bound; unfold week, day; lia).
    assert ((now + 19800000) mod week = (now mod week + 19800000) mod week) as ->
      by (by rewrite Zplus_mod_idemp_l).
    unfold week, day in *.
    destruct (Z_lt_le_dec (now mod (7 * 86400000) + 19800000) (7 * 86400000)) as [Hlt|Hge].
    + rewrite Z.mod_small by lia. lia.
    + replace (now mod (7 * 86400000) + 19800000)
        with (now mod (7 * 86400000) + 19800000 - 7 * 86400000 + 1 * (7 * 86400000)) by lia.
      rewrite Z_mod_plus_full, Z.mod_small by lia. lia.
  - destruct (getListTypeByDay now); split; intros; done.
  - destruct (getListTypeByDay (now + week)) eqn:E1, (getListTypeByDay now) eqn:E2; try done.
    + apply Hsel in E2. replace (now + 19800000) with (now + week + 19800000 + (-1) * week) in E2
        by lia. rewrite Z_mod_plus_full in E2. apply Hsel in E2. congruence.
    + apply Hsel in E1. replace (now + week + 19800000) with (now + 19800000 + 1 * week) in E1
        by lia. rewrite Z_mod_plus_full in E1. apply Hsel in E1. congruence.
Qed.

Lemma weekend_window_witness :
  getListTypeByDay 1762000000000 = Weekend
  <-> 2 * 86400000 <= (1762000000000 + 19800000) mod (7 * 86400000) < 4 * 86400000.
Proof. apply (weekend_window 1762000000000). done. Defined.

(** ** Lines as users type them *)

Module TrimFacts.

(** The first byte of a white-space character is at most 32 or at least
    192; its other bytes lie in between. *)
Lemma ws3_bytes (a b c : ascii) :
  ws3 a b c = true ->
  (225 <= nat_of_ascii a /\ 128 <= nat_of_ascii b <= 187 /\ 128 <= nat_of_ascii c <= 191)%nat.
Proof.
  unfold ws3. cbv zeta. intros H.
  repeat first [rewrite orb_true_iff in H | rewrite andb_true_iff in H
               | rewrite Nat.eqb_eq in H | rewrite Nat.leb_le in H].
  lia.
Qed.

Lemma blank_head (a : ascii) (r : string) :
  blank (String a r) = true -> (nat_of_ascii a <= 32 \/ 192 <= nat_of_ascii a)%nat.
Proof.
  unfold blank. rewrite trimStart_strip1.
  destruct (strip1 (String a r)) as [r'|] eqn:E; [|done]. intros _.
  cbn [strip1] in E. destruct (ws1 a) eqn:H1; [apply ws1_range in H1; lia|].
  destruct r as [|b r2]; [done|].
  destruct (ws2 a b) eqn:H2; [apply ws2_range in H2; lia|].
  destruct r2 as [|c r3]; [done|].
  destruct (ws3 a b c) eqn:H3; [apply ws3_bytes in H3; lia|done].
Qed.

(** Where nothing can be stripped from a string, nothing can be stripped
    once white space follows it. *)
Lemma strip1_none_app (x q : string) :
  strip1 x = None -> x <> EmptyString -> blank q = true -> strip1 (x +:+ q) = None.
Proof.
  intros Hx Hne Hq.
  destruct q as [|c q']; [by rewrite append_nil_r|].
  pose proof (blank_head c q' Hq) as Hc.
  destruct x as [|a [|b [|e x3]]]; [done|..]; rewrite ?append_cons, ?append_nil_l in *;
    cbn [strip1] in *.
  - destruct (ws1 a); [done|].
    destruct (ws2 a c) eqn:H2; [apply ws2_range in H2; lia|].
    destruct q' as [|e q'']; [done|].
    destruct (ws3 a c e) eqn:H3; [apply ws3_bytes in H3; lia|done].
  - destruct (ws1 a); [done|]. destruct (ws2 a b); [done|].
    destruct (ws3 a b c) eqn:H3; [apply ws3_bytes in H3; lia|done].
  - destruct (ws1 a); [done|]. destruct (ws2 a b); [done|]. by destruct (ws3 a b e).
Qed.

Lemma blank_strip1 (x r : string) : strip1 x = Some r -> blank x = blank r.
Proof. intros E. unfold blank. by rewrite (trimStart_strip1 x), E. Qed.

Lemma trimStart_app_blank (x q : string) :
  blank x = false -> blank q = true -> trimStart (x +:+ q) = trimStart x +:+ q.
Proof.
  induction x as [x IH] using length_ind. intros Hx Hq.
  rewrite (trimStart_strip1 x), (trimStart_strip1 (x +:+ q)).
  destruct (strip1 x) as [r|] eqn:E.
  - rewrite (strip1_app _ _ q E). apply IH; [by apply strip1_shorter| |done].
    by rewrite <- (blank_strip1 x r).
  - rewrite strip1_none_app; [done|done| |done]. by intros ->.
Qed.

Lemma blank_app_r (x q : string) : blank q = true -> blank (x +:+ q) = blank x.
Proof.
  intros Hq. destruct (blank x) eqn:Hx.
  - unfold blank in *. by rewrite blank_app.
  - unfold blank in *. rewrite trimStart_app_blank by done.
    destruct (trimStart x); done.
Qed.

Lemma trimEnd_blank (q : string) : blank q = true -> trimEnd q = EmptyString.
Proof. intros Hq. destruct q; [done|]. cbn [trimEnd]. by rewrite Hq. Qed.

(** [trimEnd] does not see the white space added at the end. *)
Lemma trimEnd_app_blank (x q : string) : blank q = true -> trimEnd (x +:+ q) = trimEnd x.
Proof.
  intros Hq. induction x as [|a r IH]; [by apply trimEnd_blank|].
  rewrite append_cons. cbn [trimEnd]. rewrite <- append_cons, blank_app_r by done.
  by rewrite IH.
Qed.

Lemma trim_blank (s : string) : blank s = true -> trim s = EmptyString.
Proof. unfold trim, blank. intros H. by destruct (trimStart s). Qed.

(** White space around a text is not seen by [trim]. *)
Lemma trim_surrounded (p s q : string) :
  blank p = true -> blank q = true -> trim (p +:+ s +:+ q) = trim s.
Proof.
  intros Hp Hq. unfold trim. rewrite blank_app by done.
  destruct (blank s) eqn:Hs.
  - pose proof (blank_app_r s q Hq) as H. rewrite Hs in H. unfold blank in *.
    by destruct (trimStart (s +:+ q)), (trimStart s).
  - rewrite trimStart_app_blank by done. by apply trimEnd_app_blank.
Qed.

Lemma trim_trimEnd (s : string) : trim (trimEnd s) = trim s.
Proof.
  destruct (trimEnd_suffix s) as [w [Hs Hw]].
  rewrite Hs at 2. symmetry. apply (trim_surrounded EmptyString); done.
Qed.

(** *** Lines that start with words *)

Lemma blank_solid (a : ascii) (r : string) : solid a = true -> blank (String a r) = false.
Proof. intros Ha. unfold blank. by rewrite trimStart_solid. Qed.

(** After words and single spaces, the end of a line is trimmed as if it
    stood alone. *)
Lemma trimEnd_word_app (x y : string) :
  all_solid x = true -> x <> EmptyString -> blank y = false ->
  trimEnd (x +:+ " " +:+ y) = x +:+ " " +:+ trimEnd y.
Proof.
  intros Hx Hne Hy. induction x as [|a r IH]; [done|].
  apply andb_true_iff in Hx as [Ha Hr].
  rewrite !append_cons. cbn [trimEnd]. rewrite blank_solid by done.
  f_equal. destruct r as [|b r'].
  - rewrite !append_nil_l. change (" " +:+ y) with (String " " y).
    cbn [trimEnd]. unfold blank at 1. cbn [trimStart ws1]. 
    change (ws1 " ") with true. cbv iota. fold (blank y). by rewrite Hy.
  - by apply IH.
Qed.

Lemma trimEnd_word (x : string) : all_solid x = true -> trimEnd x = x.
Proof.
  induction x as [|a r IH]; [done|]. intros [Ha Hr]%andb_true_iff.
  cbn [trimEnd]. rewrite blank_solid by done. by rewrite IH.
Qed.

Lemma all_solid_no_space (x : string) : all_solid x = true -> no_space x = true.
Proof.
  induction x as [|a r IH]; [done|]. intros [Ha Hr]%andb_true_iff.
  cbn [no_space]. rewrite IH by done. rewrite andb_true_r.
  destruct (Ascii.eqb_spec a " ") as [->|]; done.
Qed.

Lemma all_solid_dec (i : nat) : all_solid (dec i) = true.
Proof.
  destruct (all_dec_dec i) as [H _]. induction (dec i) as [|a r IH]; [done|].
  apply andb_true_iff in H as [Ha Hr]. cbn [all_solid].
  by rewrite is_dec_solid, IH.
Qed.

End TrimFacts.

Module LineFacts.
Import TrimFacts.

Lemma word_head (t : string) : word t -> exists a r, t = String a r /\ solid a = true.
Proof.
  intros [Hne Ht]. destruct t as [|a r]; [done|].
  apply andb_true_iff in Ht as [Ha _]. by exists a, r.
Qed.

Lemma join_words_head (ts : list string) :
  ts <> [] -> Forall word ts -> exists a r, join " " ts = String a r /\ solid a = true.
Proof.
  intros Hne Hts. destruct ts as [|t ts]; [done|].
  inversion_clear Hts as [|?? Ht Hts'].
  destruct (word_head t Ht) as (a & r & -> & Ha).
  destruct ts as [|t' ts]; [by exists a, r|].
  rewrite join_cons by done. rewrite append_cons. by eexists _, _.
Qed.

Lemma trimEnd_join_words (ts : list string) :
  ts <> [] -> Forall word ts -> trimEnd (join " " ts) = join " " ts.
Proof.
  induction ts as [|t ts IH]; [done|]. intros _ Hts.
  inversion_clear Hts as [|?? [Hne Ht] Hts'].
  destruct ts as [|t' ts]; [by apply trimEnd_word|].
  rewrite join_cons by done.
  destruct (join_words_head (t' :: ts)) as (a & r & E & Ha); [done|done|].
  rewrite trimEnd_word_app; [|done|done|by rewrite E; apply blank_solid].
  by rewrite IH.
Qed.

Lemma trimEnd_after_words (ts : list string) (y : string) :
  ts <> [] -> Forall word ts -> blank y = false ->
  trimEnd (join " " ts +:+ " " +:+ y) = join " " ts +:+ " " +:+ trimEnd y.
Proof.
  induction ts as [|t ts IH]; [done|]. intros _ Hts Hy.
  inversion_clear Hts as [|?? [Hne Ht] Hts'].
  destruct ts as [|t' ts]; [by apply trimEnd_word_app|].
  rewrite join_cons by done. rewrite !append_assoc.
  destruct (join_words_head (t' :: ts)) as (a & r & E & Ha); [done|done|].
  rewrite trimEnd_word_app; [|done|done|].
  - by rewrite IH.
  - rewrite E, append_cons. by apply blank_solid.
Qed.

Lemma split_space_after_words (ts : list string) (z : string) :
  ts <> [] -> Forall word ts ->
  split_space (join " " ts +:+ " " +:+ z) = ts ++ split_space z.
Proof.
  induction ts as [|t ts IH]; [done|]. intros _ Hts.
  inversion_clear Hts as [|?? [Hne Ht] Hts'].
  destruct ts as [|t' ts].
  - cbn [join String.concat app]. by rewrite split_space_app by by apply all_solid_no_space.
  - rewrite join_cons by done. rewrite !append_assoc.
    rewrite split_space_app by by apply all_solid_no_space.
    cbn [app]. f_equal. by apply IH.
Qed.

(** The tokens of a line that starts with words separated by single
    spaces: these words, then the tokens of what follows them, trimmed at
    its end. *)
Lemma tokens_after_words (ts : list string) (rest : string) :
  ts <> [] -> Forall word ts ->
  tokens (join " " ts +:+ " " +:+ rest)
  = if blank rest then ts else ts ++ split_space (trimEnd rest).
Proof.
  intros Hne Hts. unfold tokens, trim.
  destruct (join_words_head ts Hne Hts) as (a & r & E & Ha).
  assert (trimStart (join " " ts +:+ " " +:+ rest) = join " " ts +:+ " " +:+ rest) as ->
    by (rewrite E, append_cons; by apply trimStart_solid).
  destruct (blank rest) eqn:Hrest.
  - rewrite trimEnd_app_blank.
    + rewrite trimEnd_join_words by done. apply split_space_join; [done|].
      eapply Forall_impl; [done|]. intros t [_ Ht]. by apply all_solid_no_space.
    + unfold blank. change (" " +:+ rest) with (String " " rest). cbn [trimStart].
      change (ws1 " ") with true. cbv iota. exact Hrest.
  - rewrite trimEnd_after_words by done. by apply split_space_after_words.
Qed.

Lemma word_name (name : list_name) : word (name_str name).
Proof. by destruct name. Qed.

Lemma word_dec (i : nat) : word (dec i).
Proof. split; [by destruct (all_dec_dec i)|apply all_solid_dec]. Qed.

Lemma includes_name (name : list_name) : includes (Some (name_str name)) = Some name.
Proof. by destruct name. Qed.

Lemma join_split_trimEnd (rest : string) :
  trim (join " " (split_space (trimEnd rest))) = trim rest.
Proof. rewrite join_split_space. apply trim_trimEnd. Qed.

(** The lines of /add and of /edit as a user types them. *)
Lemma add_line (name : list_name) (rest : string) :
  let text := "/add " +:+ name_str name +:+ " " +:+ rest in
  command text = "/add" /\ list_arg text = Some name /\ task_arg text = trim rest.
Proof.
  intros text.
  assert (tokens text = if blank rest then ["/add"; name_str name]
                        else ["/add"; name_str name] ++ split_space (trimEnd rest)) as Ht.
  { rewrite <- tokens_after_words; [|done|].
    - unfold text. cbn [join String.concat]. by rewrite !append_assoc.
    - repeat constructor; (done || apply word_name). }
  unfold command, list_arg, task_arg. rewrite Ht.
  destruct (blank rest) eqn:Hrest; cbn [hd lookup list_lookup drop app];
    rewrite includes_name; (split; [done|split; [done|]]).
  - by rewrite (trim_blank rest Hrest).
  - apply join_split_trimEnd.
Qed.

Lemma edit_line (name : list_name) (i : nat) (rest : string) :
  let text := "/edit " +:+ name_str name +:+ " " +:+ dec i +:+ " " +:+ rest in
  command text = "/edit" /\ list_arg text = Some name
  /\ index_arg text = of_nat i /\ text_arg text = trim rest.
Proof.
  intros text.
  assert (tokens text = if blank rest then ["/edit"; name_str name; dec i]
                        else ["/edit"; name_str name; dec i] ++ split_space (trimEnd rest))
    as Ht.
  { rewrite <- tokens_after_words; [|done|].
    - unfold text. cbn [join String.concat]. by rewrite !append_assoc.
    - repeat constructor; (done || apply word_name || apply word_dec). }
  unfold command, list_arg, index_arg, text_arg. rewrite Ht.
  destruct (blank rest) eqn:Hrest; cbn [hd lookup list_lookup drop app];
    rewrite includes_name, Number_dec; (split; [done|split; [done|split; [done|]]]).
  - by rewrite (trim_blank rest Hrest).
  - apply join_split_trimEnd.
Qed.

End LineFacts.
Import TrimFacts LineFacts.

(** X19. White space around a message does not matter: with any white
    space (spaces, tabs, line breaks, no-break spaces and the like) put
    before and after a line, both routers read the same tokens and handle
    the message in the same way. *)
Theorem surrounding_white_space_is_ignored (cfg : config) (n : Cloud.net) (d : Lowdb.disk)
    (fromId : num) (p text q : string) :
  blank p = true -> blank q = true ->
  tokens (p +:+ text +:+ q) = tokens text
  /\ Cloud.handleCommand cfg n (p +:+ text +:+ q) fromId = Cloud.handleCommand cfg n text fromId
  /\ Lowdb.handleCommand d (p +:+ text +:+ q) = Lowdb.handleCommand d text.
Proof.
  intros Hp Hq. pose proof (trim_surrounded p text q Hp Hq) as E.
  unfold tokens, Cloud.handleCommand, Lowdb.handleCommand. by rewrite E.
Qed.

Lemma surrounding_white_space_is_ignored_witness :
  let p := bytes [32; 9; 194; 160]%nat in
  let q := bytes [10; 226; 128; 175; 32]%nat in
  tokens (p +:+ "/view weekday" +:+ q) = tokens "/view weekday"
  /\ Cloud.handleCommand cfg42 net_ok (p +:+ "/view weekday" +:+ q) sender42
     = Cloud.handleCommand cfg42 net_ok "/view weekday" sender42
  /\ Lowdb.handleCommand disk_ok (p +:+ "/view weekday" +:+ q)
     = Lowdb.handleCommand disk_ok "/view weekday".
Proof.
  apply (surrounding_white_space_is_ignored cfg42 net_ok disk_ok sender42
           (bytes [32; 9; 194; 160]%nat) "/view weekday" (bytes [10; 226; 128; 175; 32]%nat));
    reflexivity.
Defined.

(** X20. A message made of white space only has one token, the empty
    string, which is no command word: both routers answer that the command
    is unknown, and write nothing. *)
Theorem blank_line_is_unknown (cfg : config) (n : Cloud.net) (d : Lowdb.disk)
    (fromId : num) (text : string) (remote : TaskDocument) :
  blank text = true -> unauthorized cfg fromId = false ->
  tokens text = [EmptyString]
  /\ (let w := (run (Cloud.handleCommand cfg n text fromId) remote).1 in
      sent w = ["Unknown command. Use /help for usage."] /\ stored w = [] /\ persisted w = remote)
  /\ run (Lowdb.handleCommand d text) remote
     = ({| persisted := remote; trace := [Send "Unknown command. Use /help for commands."] |},
        Lowdb.replied d).
Proof.
  intros Hblank Hauth.
  assert (tokens text = [EmptyString]) as Ht by (unfold tokens; by rewrite trim_blank).
  split; [done|]. split.
  - intros w. subst w. rewrite cloud_handle_run by done. rewrite Ht. cbn [fst].
    change (Cloud.outcome [EmptyString] (Cloud.loaded n remote))
      with (@None TaskDocument, Cloud.unknown).
    by rewrite cloud_sent_reply, cloud_stored_reply.
  - rewrite lowdb_handle_run. unfold Lowdb.outcome. fold (tokens text). by rewrite Ht.
Qed.

Lemma blank_line_is_unknown_witness :
  let text := bytes [32; 9; 32]%nat in
  let remote := {| weekday := ["a"]; weekend := [] |} in
  tokens text = [EmptyString]
  /\ (let w := (run (Cloud.handleCommand cfg42 net_ok text sender42) remote).1 in
      sent w = ["Unknown command. Use /help for usage."] /\ stored w = [] /\ persisted w = remote)
  /\ run (Lowdb.handleCommand disk_ok text) remote
     = ({| persisted := remote; trace := [Send "Unknown command. Use /help for commands."] |},
        Lowdb.replied disk_ok).
Proof.
  apply (blank_line_is_unknown cfg42 net_ok disk_ok sender42 (bytes [32; 9; 32]%nat)
           {| weekday := ["a"]; weekend := [] |}); evaluate.
Defined.

(** X21. The text of a task is what follows the arguments, as typed: for
    a line made of /add, a list name and any text, the task is that text
    trimmed at both ends, its inner spacing untouched; for a line made of
    /edit, a list name, a decimal index and any text, the index is read as
    that number and the new text is that text trimmed. *)
Theorem text_after_arguments_is_kept (name : list_name) (i : nat) (rest : string) :
  (let text := "/add " +:+ name_str name +:+ " " +:+ rest in
   command text = "/add" /\ list_arg text = Some name /\ task_arg text = trim rest)
  /\ (let text := "/edit " +:+ name_str name +:+ " " +:+ dec i +:+ " " +:+ rest in
      command text = "/edit" /\ list_arg text = Some name
      /\ index_arg text = of_nat i /\ text_arg text = trim rest).
Proof. split; [apply add_line | apply edit_line]. Qed.

(** ** The rendering *)

(** X22. The placeholder stands for the empty list only: the rendering of
    a list that has a task starts with the number 1 and that task, so it is
    never the placeholder, whatever the tasks are. formatList and
    prettyList render alike. *)
Theorem placeholder_only_for_the_empty_list (l : list string) :
  (formatList l = "_(empty)_" <-> l = [])
  /\ prettyList l = formatList l
  /\ (forall t r, l = t :: r -> exists rest, formatList l = "1. " +:+ t +:+ rest).
Proof.
  assert (forall t r, exists rest, formatList (t :: r) = "1. " +:+ t +:+ rest) as Hhead.
  { intros t r. unfold formatList. cbn [numbered]. destruct (numbered 1 r) as [|x xs] eqn:E.
    - exists EmptyString. cbn [join String.concat]. by rewrite append_nil_r.
    - rewrite join_cons by done. exists (nl +:+ join nl (x :: xs)).
      change (dec (0 + 1)) with "1". by rewrite !append_assoc. }
  split; [|split; [done|]].
  - split; [|by intros ->]. destruct l as [|t r]; [done|].
    destruct (Hhead t r) as [rest ->]. done.
  - intros t r ->. apply Hhead.
Qed.

(** X23. The rendering of a list does not tell its tasks apart: a task
    whose text holds a line break followed by the next number, a dot and a
    space is rendered exactly as two tasks are. /add takes such a text as
    one task, since a line is cut at spaces only. *)
Theorem rendering_is_ambiguous (l : list string) (t1 t2 : string) :
  let one := t1 +:+ nl +:+ entry (length l + 2) t2 in
  formatList (l ++ [one]) = formatList (l ++ [t1; t2])
  /\ l ++ [one] <> l ++ [t1; t2]
  /\ (forall name : list_name,
        task_arg ("/add " +:+ name_str name +:+ " " +:+ one) = trim one).
Proof.
  intros one. split; [|split].
  - rewrite formatList_snoc.
    replace (l ++ [t1; t2]) with ((l ++ [t1]) ++ [t2]) by (by rewrite <- app_assoc).
    rewrite (formatList_snoc (l ++ [t1])), length_app. cbn [length].
    unfold lines_before at 2. destruct (l ++ [t1]) as [|x xs] eqn:E.
    { by destruct l. }
    rewrite <- E, formatList_snoc. unfold one, entry at 1 3.
    replace (S (length l + 1)) with (length l + 2)%nat by lia.
    by rewrite !append_assoc.
  - intros H. apply app_inv_head in H. discriminate.
  - intros name. apply add_line.
Qed.

(** ** Numbers as they are printed *)

Module PrintFacts.

(** *** Integers from 2^53 on are not confused with smaller ones *)

Lemma shr_fexp_exponent (m e : Z) (l : location) :
  (shr_fexp 53 1024 m e l).2 = Z.max e (fexp 53 1024 (Zdigits2 m + e)).
Proof.
  unfold shr_fexp, shr.
  destruct (fexp 53 1024 (Zdigits2 m + e) - e) as [|n|n] eqn:E; cbn [snd]; lia.
Qed.

Lemma digits2_ge (p : positive) (n : Z) : 2 ^ n <= Z.pos p -> n < Z.pos (digits2_pos p).
Proof.
  intros H. pose proof (digits2_bounds p) as [_ Hhi].
  destruct (Z.lt_ge_cases n (Z.pos (digits2_pos p))) as [|Hge]; [done|].
  assert (2 ^ Z.pos (digits2_pos p) <= 2 ^ n) by (apply Z.pow_le_mono_r; lia). lia.
Qed.

(** The binary64 value of an integer from 2^53 on has a positive
    exponent, when it is finite. *)
Lemma of_Z_large (p : positive) :
  2 ^ 53 <= Z.pos p ->
  match of_Z (Z.pos p) with S754_finite _ _ e => 1 <= e | _ => True end.
Proof.
  intros Hp. apply digits2_ge in Hp.
  unfold of_Z, binary_normalize, binary_round.
  set (d := Z.pos (digits2_pos p)) in *.
  unfold fexp at 1. unfold emin. rewrite shl_align_ge by lia.
  unfold binary_round_aux.
  pose proof (shr_fexp_exponent (Z.pos p) 0 loc_Exact) as H1.
  destruct (shr_fexp 53 1024 (Z.pos p) 0 loc_Exact) as [mrs' e'].
  cbn [snd] in H1. cbn [Zdigits2] in H1. fold d in H1.
  unfold fexp, emin in H1.
  pose proof (shr_fexp_exponent
                (round_nearest_even (shr_m mrs') (loc_of_shr_record mrs')) e' loc_Exact) as H2.
  destruct (shr_fexp 53 1024 _ e' loc_Exact) as [mrs'' e''].
  cbn [snd] in H2.
  destruct (shr_m mrs'') as [|m|m]; [done| |done].
  destruct (e'' <=? 1024 - 53); [|done]. lia.
Qed.

Lemma canon_inj (p q : positive) :
  Z.pos p < 2 ^ 53 -> Z.pos q < 2 ^ 53 -> canon p = canon q -> p = q.
Proof.
  intros Hp Hq. apply digits2_le in Hp, Hq. unfold canon. intros H.
  injection H as Hm He.
  assert (Z.pos (digits2_pos p) = Z.pos (digits2_pos q)) as Hd by lia.
  rewrite Hd in Hm. apply (f_equal Z.pos) in Hm. rewrite !Zpos_shl in Hm by lia.
  apply Z.mul_cancel_r in Hm; [lia|].
  apply Z.pow_nonzero; lia.
Qed.

Lemma of_Z_inj (m n : Z) : 0 < n < 2 ^ 53 -> 0 < m -> of_Z m = of_Z n -> m = n.
Proof.
  intros [Hn0 Hn] Hm. destruct n as [|q|q]; [lia| |lia]. destruct m as [|p|p]; [lia| |lia].
  rewrite (of_Z_pos q) by done. destruct (Z.lt_ge_cases (Z.pos p) (2 ^ 53)) as [Hlt|Hge].
  - rewrite of_Z_pos by done. intros H. f_equal. by apply canon_inj.
  - pose proof (of_Z_large p Hge) as H. intros E. rewrite E in H. unfold canon in H.
    apply digits2_le in Hn. lia.
Qed.

(** *** The number of decimal digits *)

Lemma log10_up_spec (fuel : nat) (a b l : Z) :
  0 < b -> b <= a -> a < b * 10 ^ Z.of_nat fuel ->
  let r := log10_up fuel a b l in
  l <= r /\ b * 10 ^ (r - l) <= a < b * 10 ^ (r - l + 1).
Proof.
  revert b l. induction fuel as [|fuel IH]; intros b l Hb Hle Hlt r.
  { cbn in Hlt. lia. }
  subst r. cbn [log10_up]. destruct (Z.ltb_spec a (10 * b)) as [H|H].
  - rewrite Z.sub_diag. cbn. lia.
  - rewrite Nat2Z.inj_succ, Z.pow_succ_r in Hlt by lia.
    destruct (IH (10 * b) (l + 1)) as [H1 H2]; [lia|lia|lia|].
    set (r := log10_up fuel a (10 * b) (l + 1)) in *.
    split; [lia|].
    replace (r - l) with (Z.succ (r - (l + 1))) by lia.
    replace (Z.succ (r - (l + 1)) + 1) with (Z.succ (r - (l + 1) + 1)) by lia.
    rewrite !Z.pow_succ_r by lia. lia.
Qed.

Lemma log10_floor_spec (n b : Z) :
  0 < b -> 1 <= n < 10 ^ 400 ->
  let l := log10_floor (n * b) b in
  0 <= l /\ 10 ^ l <= n < 10 ^ (l + 1).
Proof.
  intros Hb [Hn Hhi] l. subst l. unfold log10_floor.
  replace (b <=? n * b) with true by (symmetry; apply Z.leb_le; nia).
  destruct (log10_up_spec 400 (n * b) b 0) as [H1 H2]; [lia|nia| |].
  { change (Z.of_nat 400) with 400. nia. }
  set (l := log10_up 400 (n * b) b 0) in *. rewrite Z.sub_0_r in H2.
  split; [done|]. split; nia.
Qed.

(** *** The digits found for an integer *)

Section Integer.
(** An integer [N] of [L] decimal digits below 2^53, as the fraction
    [N * b / b]. *)
Variables (N b L : Z).
Hypothesis Hb : 0 < b.
Hypothesis HL : 10 ^ (L - 1) <= N < 10 ^ L.
Hypothesis HN : 0 < N < 2 ^ 53.

Lemma round_decimal_integer (s t : Z) :
  0 < s -> 0 <= t -> (round_decimal false s t = of_Z N <-> s * 10 ^ t = N).
Proof using All.
  intros Hs Ht. unfold round_decimal.
  replace (s =? 0) with false by (symmetry; apply Z.eqb_neq; lia).
  replace (0 <=? t) with true by (symmetry; apply Z.leb_le; lia).
  cbn [cond_Zopp]. fold (of_Z (s * 10 ^ t)). split; [|by intros ->].
  apply of_Z_inj; [done|]. assert (0 < 10 ^ t) by (apply Z.pow_pos_nonneg; lia). nia.
Qed.

Lemma candidates_integer (k : Z) :
  1 <= k <= L ->
  candidates (of_Z N) (N * b) b k (L - 1)
  = if decide (N mod 10 ^ (L - k) = 0) then [(N / 10 ^ (L - k), L - k)] else [].
Proof using All.
  intros Hk. unfold candidates.
  replace (L - 1 - k + 1) with (L - k) by lia.
  replace (L - 1 - k + 2) with (L - k + 1) by lia.
  replace (0 <=? L - k) with true by (symmetry; apply Z.leb_le; lia).
  replace (0 <=? L - k + 1) with true by (symmetry; apply Z.leb_le; lia).
  rewrite !(Z.mul_comm N b), !Z.div_mul_cancel_l by (try apply Z.pow_nonzero; lia).
  set (X := 10 ^ (L - k)).
  assert (0 < X) as HX by (apply Z.pow_pos_nonneg; lia).
  assert (10 ^ (L - k + 1) = 10 * X) as HX1 by (unfold X; rewrite Z.pow_add_r by lia; lia).
  assert (10 ^ L = 10 ^ k * X) as HLk
    by (unfold X; rewrite <- Z.pow_add_r by lia; f_equal; lia).
  assert (10 ^ k = 10 * 10 ^ (k - 1)) as Hk1
    by (rewrite <- Z.pow_succ_r by lia; f_equal; lia).
  assert (10 ^ (L - 1) = 10 ^ (k - 1) * X) as HLk1
    by (unfold X; rewrite <- Z.pow_add_r by lia; f_equal; lia).
  assert (0 < 10 ^ (k - 1)) as Hk0 by (apply Z.pow_pos_nonneg; lia).
  rewrite HX1.
  pose proof (Z.div_mod N X ltac:(lia)) as Hdiv.
  pose proof (Z.mod_pos_bound N X HX) as Hmod.
  pose proof (Z.div_mod N (10 * X) ltac:(lia)) as Hdiv'.
  pose proof (Z.mod_pos_bound N (10 * X) ltac:(lia)) as Hmod'.
  set (q := N / X) in *. set (q' := N / (10 * X)) in *.
  assert (10 ^ (k - 1) <= q < 10 ^ k) as Hq by (split; nia).
  assert (q' < 10 ^ (k - 1)) as Hq' by nia.
  assert (0 <= q') as Hq0 by (apply Z.div_pos; lia).
  (* the second exponent gives nothing *)
  rewrite (filter_cons_False _ (q', _)) by (cbn [fst]; lia).
  rewrite (filter_cons_False _ (q' + 1, _)).
  2:{ cbn [fst]. intros [_ H].
      apply round_decimal_integer in H; [|lia|lia]. rewrite HX1 in H. nia. }
  rewrite filter_nil, app_nil_r.
  (* the first one gives [q] when it is exact *)
  assert (~ (10 ^ (k - 1) <= (q + 1, L - k).1 < 10 ^ k
             /\ round_decimal false (q + 1, L - k).1 (L - k) = of_Z N)) as Hnext.
  { cbn [fst]. intros [_ H]. apply round_decimal_integer in H; [|lia|lia]. fold X in H. nia. }
  destruct (decide (N mod X = 0)) as [H0|H0].
  - rewrite filter_cons_True.
    + by rewrite filter_cons_False, filter_nil.
    + cbn [fst]. split; [done|]. apply round_decimal_integer; [lia|lia|]. fold X. lia.
  - rewrite filter_cons_False.
    + by rewrite filter_cons_False, filter_nil.
    + cbn [fst]. intros [_ H]. apply round_decimal_integer in H; [|lia|lia]. fold X in H. lia.
Qed.

Lemma shortest_integer (fuel : nat) (k : Z) :
  1 <= k <= L -> L - k < Z.of_nat fuel ->
  exists k', k <= k' <= L /\ N mod 10 ^ (L - k') = 0
             /\ shortest fuel (of_Z N) (N * b) b k (L - 1) = (N / 10 ^ (L - k'), k', L).
Proof using All.
  revert k. induction fuel as [|fuel IH]; intros k Hk Hfuel; [lia|].
  cbn [shortest]. rewrite candidates_integer by done.
  destruct (decide (N mod 10 ^ (L - k) = 0)) as [H0|H0].
  - exists k. split; [lia|]. split; [done|]. unfold nearest. cbn [foldr].
    do 2 f_equal. lia.
  - unfold nearest. cbn [foldr].
    assert (k < L) as Hlt.
    { destruct (Z.eq_dec k L) as [->|]; [|lia]. rewrite Z.sub_diag in H0.
      change (10 ^ 0) with 1 in H0. by rewrite Z.mod_1_r in H0. }
    destruct (IH (k + 1)) as (k' & Hk' & Hmod & E); [lia|lia|].
    exists k'. split; [lia|]. done.
Qed.

End Integer.

(** *** Decimal numerals *)

Lemma string_of_revapp (l d : Decimal.uint) :
  NilEmpty.string_of_uint (Decimal.revapp l d)
  = NilEmpty.string_of_uint (Decimal.revapp l Decimal.Nil) +:+ NilEmpty.string_of_uint d.
Proof.
  revert d. induction l as [|l IH|l IH|l IH|l IH|l IH|l IH|l IH|l IH|l IH|l IH]; intros d;
    cbn [Decimal.revapp]; [done|..];
    rewrite IH; symmetry; rewrite IH; cbn [NilEmpty.string_of_uint];
    by rewrite append_assoc, append_cons, append_nil_l.
Qed.

Lemma to_uint_tenfold (p : positive) :
  NilEmpty.string_of_uint (Pos.to_uint (10 * p))
  = NilEmpty.string_of_uint (Pos.to_uint p) +:+ "0".
Proof.
  pose proof (DecimalPos.Unsigned.to_ldec_tenfold p) as H.
  change (10 * N.pos p)%N with (N.pos (10 * p)) in H. cbn [DecimalPos.Unsigned.to_lu] in H.
  unfold Pos.to_uint, Decimal.rev. rewrite H. cbn [Decimal.revapp].
  by rewrite string_of_revapp.
Qed.

Lemma decZ_pos (p : positive) : decZ (Z.pos p) = NilEmpty.string_of_uint (Pos.to_uint p).
Proof.
  unfold decZ, NilZero.string_of_uint. cbn [Z.to_N N.to_uint].
  pose proof (DecimalPos.Unsigned.to_uint_nonnil p). by destruct (Pos.to_uint p).
Qed.

Lemma decZ_tenfold (s : Z) : 0 < s -> decZ (10 * s) = decZ s +:+ "0".
Proof.
  intros Hs. destruct s as [|p|p]; [lia| |lia].
  change (10 * Z.pos p) with (Z.pos (10 * p)). rewrite !decZ_pos. apply to_uint_tenfold.
Qed.

Lemma zeros_succ (j : nat) : zeros (Z.of_nat (S j)) = "0" +:+ zeros (Z.of_nat j).
Proof. unfold zeros. rewrite !Nat2Z.id. done. Qed.

(** A numeral followed by [j] zeros is the numeral of [10 ^ j] times its
    number. *)
Lemma decZ_pow10 (s j : Z) : 0 < s -> 0 <= j -> decZ (s * 10 ^ j) = decZ s +:+ zeros j.
Proof.
  intros Hs Hj. rewrite <- (Z2Nat.id j Hj). clear Hj. revert s Hs.
  induction (Z.to_nat j) as [|n IH]; intros s Hs.
  - cbn. by rewrite Z.mul_1_r, append_nil_r.
  - rewrite Nat2Z.inj_succ, Z.pow_succ_r by lia.
    replace (s * (10 * 10 ^ Z.of_nat n)) with (10 * s * 10 ^ Z.of_nat n) by lia.
    rewrite IH by lia. rewrite decZ_tenfold by done.
    rewrite <- Nat2Z.inj_succ, zeros_succ. by rewrite append_assoc.
Qed.

(** The numerals of [Z], [N] and [nat] agree. *)
Lemma of_uint_acc_value (d : Decimal.uint) (acc : positive) :
  Z.pos (Pos.of_uint_acc d acc) = uint_value (Z.pos acc) d.
Proof.
  revert acc. induction d as [|d IH|d IH|d IH|d IH|d IH|d IH|d IH|d IH|d IH|d IH];
    intros acc; cbn [Pos.of_uint_acc uint_value]; [done|..];
    rewrite IH; f_equal; lia.
Qed.

Lemma of_uint_value (d : Decimal.uint) : Z.of_N (Pos.of_uint d) = uint_value 0 d.
Proof.
  induction d as [|d IH|d IH|d IH|d IH|d IH|d IH|d IH|d IH|d IH|d IH];
    cbn [Pos.of_uint uint_value]; [done|done|..];
    cbn [Z.of_N]; by rewrite of_uint_acc_value.
Qed.

Lemma decZ_of_nat (i : nat) : decZ (Z.of_nat i) = dec i.
Proof.
  unfold decZ, dec. f_equal.
  assert (Z.to_N (Z.of_nat i) = N.of_uint (Nat.to_uint i)) as ->.
  { apply N2Z.inj. rewrite Z2N.id by lia. unfold N.of_uint.
    by rewrite of_uint_value, uint_value_to_uint. }
  rewrite DecimalN.Unsigned.to_of.
  rewrite <- (DecimalNat.Unsigned.to_of (Nat.to_uint i)).
  by rewrite DecimalNat.Unsigned.of_to.
Qed.

(** *** Number::toString of an integer *)

Lemma NumberToString_canon (p : positive) :
  Z.pos p < 2 ^ 53 -> NumberToString (canon p) = decZ (Z.pos p).
Proof.
  intros Hp. pose proof (digits2_le _ _ Hp) as Hd.
  pose proof (of_Z_pos p Hp) as Hcanon. unfold canon in *.
  set (d := Z.pos (digits2_pos p)) in *.
  assert (1 <= d) by (subst d; lia).
  cbn [NumberToString].
  assert (exists b, 0 < b /\ fraction (shl p (53 - d)) (d - 53) = (Z.pos p * b, b))
    as (b & Hb & ->).
  { unfold fraction. rewrite Zpos_shl by lia. destruct (Z.leb_spec 0 (d - 53)).
    - exists 1. split; [lia|]. replace (53 - d) with 0 by lia. replace (d - 53) with 0 by lia.
      f_equal; lia.
    - exists (2 ^ (53 - d)). split; [apply Z.pow_pos_nonneg; lia|].
      f_equal. f_equal. lia. }
  rewrite <- Hcanon.
  destruct (log10_floor_spec (Z.pos p) b Hb) as [Hl0 Hl].
  { split; [lia|]. assert (2 ^ 53 < 10 ^ 400) by done. lia. }
  set (l := log10_floor (Z.pos p * b) b) in *.
  assert (l < 16) as Hl16.
  { destruct (Z.lt_ge_cases l 16) as [|Hge]; [done|].
    assert (10 ^ 16 <= 10 ^ l) by (apply Z.pow_le_mono_r; lia).
    assert (2 ^ 53 < 10 ^ 16) by done. lia. }
  destruct (shortest_integer (Z.pos p) b (l + 1) Hb) with (fuel := 17%nat) (k := 1)
    as (k' & Hk' & Hmod & E).
  { by replace (l + 1 - 1) with l by lia. }
  { lia. }
  { lia. }
  { lia. }
  replace (l + 1 - 1) with l in E by lia. rewrite E.
  unfold format.
  replace ((k' <=? l + 1) && (l + 1 <=? 21)) with true
    by (symmetry; apply andb_true_iff; split; apply Z.leb_le; lia).
  rewrite append_nil_l.
  assert (0 < 10 ^ (l + 1 - k')) as HX by (apply Z.pow_pos_nonneg; lia).
  pose proof (Z.div_mod (Z.pos p) (10 ^ (l + 1 - k')) ltac:(lia)) as Hdiv.
  rewrite Hmod, Z.add_0_r in Hdiv.
  rewrite <- decZ_pow10; [f_equal; lia| |lia].
  apply Z.div_str_pos. split; [done|]. 
  apply Z.divide_pos_le; [lia|]. apply Z.mod_divide; [lia|done].
Qed.

Lemma NumberToString_of_Z (n : Z) : 0 <= n < 2 ^ 53 -> NumberToString (of_Z n) = decZ n.
Proof.
  intros [H0 H1]. destruct n as [|p|p]; [done| |lia].
  rewrite of_Z_pos by done. by apply NumberToString_canon.
Qed.

Lemma of_nat_inj (i j : nat) :
  Z.of_nat i < 2 ^ 53 -> Z.of_nat j < 2 ^ 53 -> of_nat i = of_nat j -> i = j.
Proof.
  intros Hi Hj. unfold of_nat. destruct i as [|i], j as [|j]; [done|..].
  - rewrite Nat2Z.inj_succ, <- Z.add_1_r in *.
    destruct (Z.of_nat j + 1) as [|p|p] eqn:E; [lia| |lia].
    rewrite (of_Z_pos p) by lia. done.
  - rewrite Nat2Z.inj_succ, <- Z.add_1_r in *.
    destruct (Z.of_nat i + 1) as [|p|p] eqn:E; [lia| |lia].
    rewrite (of_Z_pos p) by lia. done.
  - intros H. apply of_Z_inj in H; lia.
Qed.

Lemma NumberToString_of_nat (i : nat) :
  Z.of_nat i < 2 ^ 53 -> NumberToString (of_nat i) = dec i.
Proof. intros H. unfold of_nat. rewrite NumberToString_of_Z by lia. apply decZ_of_nat. Qed.

End PrintFacts.
Import PrintFacts.

(** X24. The sender the routers accept: for a sender whose id is an
    integer below 2^53 (the ids of Telegram are), [String(fromId)] is the
    decimal numeral of the id, so the sender is authorized exactly when
    CHAT_ID is that numeral; of two different ids at most one is
    authorized. *)
Theorem authorized_sender_is_the_decimal_chat_id (cfg : config) (i j : nat) :
  Z.of_nat i < 2 ^ 53 -> Z.of_nat j < 2 ^ 53 ->
  NumberToString (of_nat i) = dec i
  /\ (unauthorized cfg (of_nat i) = false <-> CHAT_ID cfg = dec i)
  /\ (unauthorized cfg (of_nat i) = false -> unauthorized cfg (of_nat j) = false -> i = j).
Proof.
  intros Hi Hj.
  assert (forall k, Z.of_nat k < 2 ^ 53 ->
            (unauthorized cfg (of_nat k) = false <-> CHAT_ID cfg = dec k)) as Hiff.
  { intros k Hk. unfold unauthorized. cbn [Json.ToString Json.ToString_json].
    rewrite NumberToString_of_nat by done.
    rewrite negb_false_iff, String.eqb_eq. split; congruence. }
  split; [by apply NumberToString_of_nat|]. split; [by apply Hiff|].
  intros H1%Hiff H2%Hiff; [|done..]. rewrite H1 in H2.
  apply (f_equal (fun s => Number (Some s))) in H2. rewrite !Number_dec in H2.
  by apply of_nat_inj.
Qed.

Lemma authorized_sender_is_the_decimal_chat_id_witness :
  NumberToString (of_nat 42) = dec 42
  /\ (unauthorized cfg42 (of_nat 42) = false <-> CHAT_ID cfg42 = dec 42)
  /\ (unauthorized cfg42 (of_nat 42) = false -> unauthorized cfg42 (of_nat 43) = false ->
      42%nat = 43%nat).
Proof.
  apply (authorized_sender_is_the_decimal_chat_id cfg42 42 43); vm_compute; reflexivity.
Defined.

(** X25. /edit in full, on a line as a user types it: for the line made
    of /edit, a list name, the decimal numeral of a position that holds a
    text and a new text that is not blank, both routers put the new text,
    trimmed, at that position and answer with the position as it was typed,
    the old text and the new one between quotes. With backends that work. *)
Theorem edit_line_in_full
    (cfg : config) (fromId : num) (name : list_name) (i : nat) (rest old : string)
    (n : Cloud.net) (d : Lowdb.disk) (remote : TaskDocument) :
  unauthorized cfg fromId = false ->
  (1 <= i)%nat -> get_list name remote !! (i - 1)%nat = Some old -> old <> EmptyString ->
  trim rest <> EmptyString ->
  Z.of_nat (length (get_list name remote)) < 2 ^ 32 ->
  Cloud.fetch_ok n = true -> Cloud.put n = Cloud.PutOk ->
  Lowdb.read_ok d = true -> Lowdb.write_ok d = true ->
  let text := "/edit " +:+ name_str name +:+ " " +:+ dec i +:+ " " +:+ rest in
  let db' := set_list name (<[(i - 1)%nat := trim rest]> (get_list name remote)) remote in
  (let w := (run (Cloud.handleCommand cfg n text fromId) remote).1 in
   persisted w = db'
   /\ sent w = ["✏️ Edited *" +:+ name_str name +:+ "* " +:+ dec i +:+ ": " +:+
                dq +:+ old +:+ dq +:+ " → " +:+ dq +:+ trim rest +:+ dq])
  /\ (let w := (run (Lowdb.handleCommand d text) remote).1 in
      persisted w = db'
      /\ sent w = ["Edited *" +:+ name_str name +:+ "* " +:+ dec i +:+ ": " +:+
                   dq +:+ old +:+ dq +:+ " → " +:+ dq +:+ trim rest +:+ dq]).
Proof.
  intros Hauth Hi Hold Hne Hrest Hlen Hfetch Hput Hread Hwrite text db'.
  destruct (edit_line name i rest) as (Hcmd & Hname & Hidx & Htext).
  fold text in Hcmd, Hname, Hidx, Htext.
  assert (Z.of_nat i < 2 ^ 53) as Hi53.
  { pose proof (lookup_lt_Some _ _ _ Hold). lia. }
  rewrite <- Htext in Hrest. subst db'. rewrite <- Htext.
  split; intros w; subst w.
  - destruct (cloud_run_edit cfg fromId n text name remote Hauth Hname Hfetch Hput
                i old Hidx Hi Hlen Hold Hcmd Hrest Hne) as [-> ->].
    split; [done|]. unfold Cloud.edited_text. by rewrite NumberToString_of_nat.
  - destruct (lowdb_run_edit d text name remote Hname Hread Hwrite
                i old Hidx Hi Hlen Hold Hcmd Hrest Hne) as [-> ->].
    split; [done|]. unfold Lowdb.edited_text. by rewrite NumberToString_of_nat.
Qed.

Lemma edit_line_in_full_witness :
  let remote := {| weekday := ["x"]; weekend := ["a"; "b"; "c"] |} in
  let text := "/edit " +:+ name_str Weekend +:+ " " +:+ dec 2 +:+ " " +:+ "  Buy  oat milk " in
  let db' := set_list Weekend (<[(2 - 1)%nat := trim "  Buy  oat milk "]>
                                 (get_list Weekend remote)) remote in
  (let w := (run (Cloud.handleCommand cfg42 net_ok text sender42) remote).1 in
   persisted w = db'
   /\ sent w = ["✏️ Edited *" +:+ name_str Weekend +:+ "* " +:+ dec 2 +:+ ": " +:+
                dq +:+ "b" +:+ dq +:+ " → " +:+ dq +:+ trim "  Buy  oat milk " +:+ dq])
  /\ (let w := (run (Lowdb.handleCommand disk_ok text) remote).1 in
      persisted w = db'
      /\ sent w = ["Edited *" +:+ name_str Weekend +:+ "* " +:+ dec 2 +:+ ": " +:+
                   dq +:+ "b" +:+ dq +:+ " → " +:+ dq +:+ trim "  Buy  oat milk " +:+ dq]).
Proof.
  apply (edit_line_in_full cfg42 sender42 Weekend 2 "  Buy  oat milk " "b" net_ok disk_ok
           {| weekday := ["x"]; weekend := ["a"; "b"; "c"] |});
    solve [evaluate | discriminate | vm_compute; lia].
Defined.

(** ** Starting up *)

(** X26. initDB leaves db.json initialised and is idempotent: what it
    puts in [db.data] is never null or another falsy value; a content that
    is truthy is kept as it is, and anything else becomes the default
    document; run again on its own result it changes nothing. It throws when
    the read or the write rejects. *)
Theorem initDB_is_idempotent (r : Lowdb.read_result) (d : Lowdb.disk) (j : Json.json) :
  Lowdb.initDB r d = Done j ->
  Json.truthy j = true
  /\ Lowdb.initDB (Lowdb.Data (Some j)) d = Done j
  /\ (forall v, r = Lowdb.Data (Some v) -> Json.truthy v = true -> j = v)
  /\ (forall v, r = Lowdb.Data (Some v) -> Json.truthy v = false ->
      Json.decode j = Some default_doc)
  /\ (r = Lowdb.Data None -> Json.decode j = Some default_doc)
  /\ Lowdb.write_ok d = true
  /\ Lowdb.initDB Lowdb.ReadRejects d = Thrown.
Proof.
  unfold Lowdb.initDB. destruct r as [|v]; [done|].
  destruct (Lowdb.write_ok d) eqn:Hw; [|done]. intros H. injection H as <-.
  assert (Json.truthy match v with
                      | Some j => if Json.truthy j then j else Json.encode default_doc
                      | None => Json.encode default_doc
                      end = true) as Htruthy.
  { destruct v as [v|]; [|done]. by destruct (Json.truthy v) eqn:Hv. }
  split; [done|]. split; [by rewrite Htruthy|]. split; [|split; [|split]].
  - intros v' E Hv. simplify_eq. by rewrite Hv.
  - intros v' E Hv. simplify_eq. rewrite Hv. apply decode_encode.
  - intros E. simplify_eq. apply decode_encode.
  - done.
Qed.

Lemma initDB_is_idempotent_witness :
  let j := Json.encode default_doc in
  Json.truthy j = true
  /\ Lowdb.initDB (Lowdb.Data (Some j)) disk_ok = Done j
  /\ (forall v, Lowdb.Data (Some Json.JNull) = Lowdb.Data (Some v) -> Json.truthy v = true ->
      j = v)
  /\ (forall v, Lowdb.Data (Some Json.JNull) = Lowdb.Data (Some v) -> Json.truthy v = false ->
      Json.decode j = Some default_doc)
  /\ (Lowdb.Data (Some Json.JNull) = Lowdb.Data None -> Json.decode j = Some default_doc)
  /\ Lowdb.write_ok disk_ok = true
  /\ Lowdb.initDB Lowdb.ReadRejects disk_ok = Thrown.
Proof.
  apply (initDB_is_idempotent (Lowdb.Data (Some Json.JNull)) disk_ok (Json.encode default_doc)).
  reflexivity.
Defined.


(** ** Instances of the facts on invalid indexes and on a write that fails *)

Lemma lowdb_invalid_index_is_usage_witness :
  let file := {| weekday := ["a"; "b"]; weekend := [] |} in
  run (Lowdb.handleCommand disk_ok "/remove weekday -1") file
  = ({| persisted := file; trace := [Send "Usage: /remove <weekday|weekend> <index>"] |},
     Lowdb.replied disk_ok).
Proof.
  apply (lowdb_invalid_index_is_usage disk_ok "/remove weekday -1" Weekday
           {| weekday := ["a"; "b"]; weekend := [] |});
    [evaluate | right; evaluate | evaluate].
Defined.

Lemma cloud_falsy_index_is_usage_witness :
  let remote := {| weekday := ["a"; "b"]; weekend := [] |} in
  run (Cloud.handleCommand cfg42 net_ok "/edit weekday zero x" sender42) remote
  = (Cloud.performed net_ok remote (None, "Usage: /edit <weekday|weekend> <index> <new text>"),
     Done tt).
Proof.
  apply (cloud_falsy_index_is_usage cfg42 net_ok "/edit weekday zero x" sender42 Weekday
           {| weekday := ["a"; "b"]; weekend := [] |}); evaluate.
Defined.

Lemma lowdb_write_failure_propagates_witness :
  let d := {| Lowdb.read_ok := true; Lowdb.write_ok := false; Lowdb.reply_ok := true |} in
  let u := text_update "/add weekday Buy milk" sender42 in
  let data' := {| weekday := ["a"; "Buy milk"]; weekend := [] |} in
  let file := {| weekday := ["a"]; weekend := [] |} in
  run (Lowdb.handleCommand d "/add weekday Buy milk") file
  = ({| persisted := file; trace := [Fetch; Store data'] |}, Thrown)
  /\ run (Lowdb.webhook cfg42 d u) file
     = ({| persisted := file;
           trace := [Fetch; Store data'; Log "webhook error"; Respond 500 "error"] |},
        Done tt).
Proof.
  apply (lowdb_write_failure_propagates cfg42
           {| Lowdb.read_ok := true; Lowdb.write_ok := false; Lowdb.reply_ok := true |}
           (text_update "/add weekday Buy milk" sender42) "/add weekday Buy milk" sender42
           (fun data => (Some (set_list Weekday (get_list Weekday data ++ ["Buy milk"]) data),
                         Lowdb.added_text Weekday "Buy milk"))
           {| weekday := ["a"]; weekend := [] |}
           {| weekday := ["a"; "Buy milk"]; weekend := [] |}
           (Lowdb.added_text Weekday "Buy milk"));
    solve [evaluate | discriminate].
Defined.
